(** * Jobly back end: partial updates, entity managers and auth guards

    A shallow embedding of the Express/PostgreSQL back end of Jobly
    (helpers/sql.js, helpers/tokens.js, models/company.js, models/job.js,
    models/user.js, models/jobApplication.js, middleware/auth.js, and of
    app.js and routes/users.js the routes that validate no body), the
    properties of its specification that were checked against it, and
    further properties of the code.

    Conventions of the embedding.
    - A JavaScript object is the list of its own enumerable properties in
      [Object.keys] order. The one lookup of the code by a key that it
      does not choose, [jsToSql[key]] in the builder, also finds the
      properties an object literal inherits from [Object.prototype]
      ([JS.inherited]).
    - A string is the sequence of the bytes of its UTF-8 encoding.
    - Numbers are integers ([Z]). The ids of the jobs are values of the
      type INTEGER of PostgreSQL ([Pg.int4]); an integer that a statement
      compares with a column of this type, or that an UPDATE stores in
      one, must be a value of the type too, and the database refuses the
      statement (22003) when it is not.
    - [undefined] arguments of typed parameters are [None].
    - A statement fails only for what it says (its syntax, an unknown
      column, a value its column does not take, a duplicate key); failures
      of the connection are not modelled. *)

From stdpp Require Import gmap strings list pretty sorting.
From Stdlib Require Import ZArith Ascii.

Open Scope string_scope.
Open Scope list_scope.

(** ** JavaScript values and objects *)

Module JS.

#[warnings="-register-all"]
Inductive value : Type :=
| VUndefined
| VNull
| VBool (b : bool)
| VNum (n : Z)
| VStr (s : string)
| VArr (items : list value)
| VObj (props : list (string * value)).

(** An object: its own properties, in [Object.keys] order. *)
Definition obj : Type := list (string * value).

Definition is_undefined (v : value) : bool :=
  match v with VUndefined => true | _ => false end.

(** [!!v] of JavaScript, for the values of the model. *)
Definition truthy (v : value) : bool :=
  match v with
  | VUndefined | VNull => false
  | VBool b => b
  | VNum n => negb (n =? 0)%Z
  | VStr s => negb (String.eqb s EmptyString)
  | VArr _ | VObj _ => true
  end.

(** [Object.keys(o)] *)
Definition keys (o : obj) : list string := o.*1.

(** [o[k]]: the value of the first property named [k], [undefined] when
    there is none. *)
Fixpoint prop (o : obj) (k : string) : value :=
  match o with
  | [] => VUndefined
  | (k', v) :: o' => if String.eqb k' k then v else prop o' k
  end.

(** [k in o] for own properties. *)
Definition has (o : obj) (k : string) : bool :=
  existsb (String.eqb k) (keys o).

(** [o[k] = v]: an existing property keeps its place, a new one is added
    last. *)
Fixpoint assign (o : obj) (k : string) (v : value) : obj :=
  match o with
  | [] => [(k, v)]
  | (k', v') :: o' =>
      if String.eqb k' k then (k', v) :: o' else (k', v') :: assign o' k v
  end.

(** [delete o[k]] *)
Definition delete (o : obj) (k : string) : obj :=
  List.filter (fun kv => negb (String.eqb kv.1 k)) o.

Definition is_null (v : value) : bool :=
  match v with VNull => true | _ => false end.

(** [String(v)]; an array prints its items separated by commas, [null]
    and [undefined] items as nothing. *)
Fixpoint to_string (v : value) : string :=
  match v with
  | VUndefined => "undefined"
  | VNull => "null"
  | VBool true => "true"
  | VBool false => "false"
  | VNum n => pretty n
  | VStr s => s
  | VArr items =>
      String.concat ","
        (List.map
           (λ x, match x with
                 | VUndefined | VNull => EmptyString
                 | _ => to_string x
                 end)
           items)
  | VObj _ => "[object Object]"
  end.

(** [v == 'true']: a string is compared as it is, an array through its
    string; a number, a boolean, [null] and [undefined] are never equal to
    this string (as a number it is NaN). *)
Definition loosely_equals_true_string (v : value) : bool :=
  match v with
  | VStr s => String.eqb s "true"
  | VArr _ => String.eqb (to_string v) "true"
  | _ => false
  end.

(** What an object literal inherits from [Object.prototype]: the names,
    and the text each value has in a template literal. Node prints a
    built-in function as [function name() { [native code] }];
    [constructor] is the function [Object], and [__proto__] gives
    [Object.prototype] itself, an object. All of these values are truthy. *)
Definition native (name : string) : string :=
  "function " +:+ name +:+ "() { [native code] }".

Definition Object_prototype : list (string * string) :=
  [("constructor", native "Object");
   ("__defineGetter__", native "__defineGetter__");
   ("__defineSetter__", native "__defineSetter__");
   ("hasOwnProperty", native "hasOwnProperty");
   ("__lookupGetter__", native "__lookupGetter__");
   ("__lookupSetter__", native "__lookupSetter__");
   ("isPrototypeOf", native "isPrototypeOf");
   ("propertyIsEnumerable", native "propertyIsEnumerable");
   ("toString", native "toString");
   ("valueOf", native "valueOf");
   ("__proto__", "[object Object]");
   ("toLocaleString", native "toLocaleString")].

(** [`${o[k]}`] for an object literal [o] that has no own property [k];
    [None] when it inherits none either. *)
Definition inherited (k : string) : option string :=
  snd <$> List.find (λ entry, String.eqb entry.1 k) Object_prototype.

End JS.

Import JS.

(** ** Characters

    A character of a string is a byte that is not a continuation byte
    ([10xxxxxx]) with the continuation bytes that follow it. *)

Module Utf8.

Definition is_continuation (c : ascii) : bool :=
  let n := nat_of_ascii c in (128 <=? n)%nat && (n <? 192)%nat.

(** The string without the continuation bytes it starts with. *)
Fixpoint skip_continuation (s : string) : string :=
  match s with
  | String c s' => if is_continuation c then skip_continuation s' else s
  | EmptyString => s
  end.

(** The characters of a string, in order. *)
Fixpoint characters (s : string) : list string :=
  match s with
  | EmptyString => []
  | String c s' =>
      match characters s' with
      | String d t :: rest =>
          if is_continuation d then String c (String d t) :: rest
          else String c EmptyString :: String d t :: rest
      | rest => String c EmptyString :: rest
      end
  end.

(** The bytes of a character. *)
Definition bytes (character : string) : list nat :=
  nat_of_ascii <$> String.list_ascii_of_string character.

End Utf8.

(** The double quote character, as a string. *)
Definition dq : string := String (ascii_of_nat 34) EmptyString.

(** ** expressError.js *)

Inductive error : Type :=
| BadRequestError (message : string)                   (* status 400 *)
| NotFoundError (message : string)                     (* status 404 *)
| UnauthorizedError (message : string)                 (* status 401 *)
| ExpressError (message : string) (status : option Z)
| DatabaseError (code : string) (message : string)     (* thrown by db.query *)
| BcryptError (message : string)                       (* thrown by bcrypt *)
| TypeError (message : string)
| ReferenceError (message : string).

Definition message_of (e : error) : string :=
  match e with
  | BadRequestError m | NotFoundError m | UnauthorizedError m
  | ExpressError m _ | DatabaseError _ m | BcryptError m
  | TypeError m | ReferenceError m => m
  end.

Definition is_BadRequest (e : error) : bool :=
  match e with BadRequestError _ => true | _ => false end.

(** ** helpers/sql.js *)

Module Sql.

(** One element of the array [cols]: the text ["column"=$index]. *)
Record assignment : Type := { a_column : string; a_index : nat }.

Definition render (a : assignment) : string :=
  dq +:+ a_column a +:+ dq +:+ "=$" +:+ pretty (a_index a).

(** The returned object [{ setCols, values }]. [assignments] is the array
    [cols] before it is joined; the database model reads it instead of
    parsing [setCols]. *)
Record partial_update : Type := {
  setCols : string;
  values : list value;
  assignments : list assignment
}.

(** [cols.push(`"${sqlKey}"=$${values.length + 1}`); values.push(v)] *)
Definition push (sqlKey : string) (v : value)
    (acc : list assignment * list value) : list assignment * list value :=
  (acc.1 ++ [{| a_column := sqlKey; a_index := length acc.2 + 1 |}],
   acc.2 ++ [v]).

(** [jsToSql[key] || key], as the template literal prints it. The mapping
    is an object literal of column names: its own entry is used unless it
    is the empty string, which is falsy; a key it does not have is looked
    up in [Object.prototype]. *)
Definition mapped (jsToSql : gmap string string) (key : string) : string :=
  match jsToSql !! key with
  | Some c => if String.eqb c EmptyString then key else c
  | None => default key (inherited key)
  end.

(** [Object.keys(jsToSql).some(k => k.startsWith(`${key}.`))] *)
Definition has_nested_mapping (jsToSql : gmap string string) (key : string)
    : bool :=
  existsb (String.prefix (key +:+ ".")) (map_to_list jsToSql).*1.

(** The body of [Object.entries(value).forEach(...)]. *)
Definition visit_nested (jsToSql : gmap string string) (key : string)
    (acc : list assignment * list value) (entry : string * value)
    : list assignment * list value :=
  if is_undefined entry.2 then acc
  else push (mapped jsToSql (key +:+ "." +:+ entry.1)) entry.2 acc.

(** The body of [keys.forEach(key => ...)]. *)
Definition visit (dataToUpdate : obj) (jsToSql : gmap string string)
    (acc : list assignment * list value) (key : string)
    : list assignment * list value :=
  let value := prop dataToUpdate key in
  if is_undefined value then acc
  else
    let sqlKey := mapped jsToSql key in
    match value with
    | VObj props =>
        if has_nested_mapping jsToSql key
        then fold_left (visit_nested jsToSql key) props acc
        else push sqlKey value acc
    | _ => push sqlKey value acc
    end.

Definition sqlForPartialUpdate (dataToUpdate : obj)
    (jsToSql : gmap string string) : error + partial_update :=
  let keys := JS.keys dataToUpdate in
  if (length keys =? 0)%nat then inl (BadRequestError "No data")
  else
    let acc := fold_left (visit dataToUpdate jsToSql) keys ([], []) in
    inr {| setCols := String.concat ", " (render <$> acc.1);
           values := acc.2;
           assignments := acc.1 |}.

End Sql.

Import Sql.

(** ** PostgreSQL, as far as the models use it *)

Module Pg.

(** *** The type INTEGER

    Its values are the integers from -2147483648 to 2147483647. A row
    holds the id of a job with the proof that it is one of them. *)

Definition in_int4 (n : Z) : bool :=
  (-2147483648 <=? n)%Z && (n <=? 2147483647)%Z.

Record int4 : Type := { int4_val :> Z; int4_ok : Is_true (in_int4 int4_val) }.

Arguments in_int4 : simpl never.

Definition to_int4 (n : Z) : option int4 :=
  match decide (Is_true (in_int4 n)) with
  | left ok => Some {| int4_val := n; int4_ok := ok |}
  | right _ => None
  end.

(** Modelled from the spec: the declaration of the table [companies] (the
    schema file is not among the sources). Here and for the three tables
    below, the columns are those the statements of the models name; their
    types and nullability follow the data model of the specification.
    CHECK and foreign key constraints are not modelled. *)
Record company_row : Type := {
  c_handle : string;
  c_name : string;
  c_num_employees : option Z;
  c_description : string;
  c_logo_url : option string
}.

(** Modelled from the spec: the declaration of the table [jobs].
    [j_equity] is a NUMERIC, kept as the decimal numeral PostgreSQL prints
    (and node-postgres hands to JavaScript as a string). *)
Record job_row : Type := {
  j_id4 : int4;
  j_title : string;
  j_salary : option Z;
  j_equity : option string;
  j_company_handle : string
}.

Definition j_id (r : job_row) : Z := j_id4 r.

(** Modelled from the spec: the declaration of the table [users]. *)
Record user_row : Type := {
  u_username : string;
  u_password : string;
  u_first_name : string;
  u_last_name : string;
  u_email : string;
  u_is_admin : bool
}.

(** Modelled from the spec: the declaration of the table [applications]. *)
Record application_row : Type := {
  app_username : string;
  app_job_id4 : int4
}.

Definition app_job_id (r : application_row) : Z := app_job_id4 r.

(** The database: the rows of the four tables, in their physical order. *)
Record db : Type := {
  companies : list company_row;
  jobs : list job_row;
  users : list user_row;
  applications : list application_row
}.

(** *** Cells and parameters *)

Definition as_text (v : value) : option string :=
  match v with VStr s => Some s | _ => None end.

Definition as_int (v : value) : option Z :=
  match v with VNum n => Some n | _ => None end.

Definition as_bool (v : value) : option bool :=
  match v with VBool b => Some b | _ => None end.

(** What an UPDATE stores in a column of the type INTEGER. *)
Definition as_integer (v : value) : option Z :=
  n ← as_int v; if in_int4 n then Some n else None.

(** A nullable column takes [null] (and [undefined], which node-postgres
    sends as NULL). *)
Definition nullable {A} (f : value → option A) (v : value)
    : option (option A) :=
  match v with
  | VNull | VUndefined => Some None
  | _ => Some <$> f v
  end.

Definition is_digit (c : ascii) : bool :=
  (("0" <=? c) && (c <=? "9"))%char.

Fixpoint count_dots (s : string) : nat :=
  match s with
  | EmptyString => 0
  | String c s' => (if Ascii.eqb c "." then 1 else 0) + count_dots s'
  end.

Fixpoint only_digits_and_dots (s : string) : bool :=
  match s with
  | EmptyString => true
  | String c s' => (is_digit c || Ascii.eqb c ".") && only_digits_and_dots s'
  end.

Fixpoint has_digit (s : string) : bool :=
  match s with
  | EmptyString => false
  | String c s' => is_digit c || has_digit s'
  end.

Definition unsigned (s : string) : string :=
  match s with
  | String c s' =>
      if Ascii.eqb c "-" || Ascii.eqb c "+" then s' else s
  | EmptyString => s
  end.

(** Plain decimal numerals: an optional sign, digits, at most one point.
    (PostgreSQL also reads numerals with an exponent or with white space
    around them, and NaN; the properties below are about plain ones.) *)
Definition is_numeral (s : string) : bool :=
  only_digits_and_dots (unsigned s) && has_digit s
  && (count_dots s <=? 1)%nat.

Fixpoint has_nonzero_digit (s : string) : bool :=
  match s with
  | EmptyString => false
  | String c s' => (is_digit c && negb (Ascii.eqb c "0")) || has_nonzero_digit s'
  end.

(** The digits before the point, and those after it. *)
Fixpoint integer_part (s : string) : string :=
  match s with
  | String c s' =>
      if Ascii.eqb c "." then EmptyString else String c (integer_part s')
  | EmptyString => EmptyString
  end.

Fixpoint fraction_part (s : string) : string :=
  match s with
  | String c s' => if Ascii.eqb c "." then s' else fraction_part s'
  | EmptyString => EmptyString
  end.

Fixpoint without_leading_zeros (s : string) : string :=
  match s with
  | String c s' => if Ascii.eqb c "0" then without_leading_zeros s' else s
  | EmptyString => s
  end.

(** A plain numeral as a NUMERIC column gives it back: no [+], a [-] only
    before a value that is not zero, an integer part of at least one
    digit and without leading zeros, and the digits after the point as
    they were written, the point only when there are some. *)
Definition numeric_out (s : string) : string :=
  let u := unsigned s in
  let sign :=
    if String.prefix "-" s && has_nonzero_digit u then "-"
    else EmptyString in
  let whole :=
    match without_leading_zeros (integer_part u) with
    | EmptyString => "0"
    | digits => digits
    end in
  let fraction :=
    match fraction_part u with
    | EmptyString => EmptyString
    | digits => "." +:+ digits
    end in
  sign +:+ whole +:+ fraction.

(** The value a NUMERIC column stores for a parameter, as it prints it. *)
Definition as_numeric (v : value) : option string :=
  match v with
  | VStr s => if is_numeral s then Some (numeric_out s) else None
  | VNum n => Some (pretty n)
  | _ => None
  end.

(** [x > 0] for a numeral [x]. *)
Definition positive_numeral (s : string) : bool :=
  match s with
  | String c _ => negb (Ascii.eqb c "-") && has_nonzero_digit s
  | EmptyString => false
  end.

(** [a = b] is TRUE (NULL and values of different types never are). *)
Definition sql_eq (a b : value) : bool :=
  match a, b with
  | VNum x, VNum y => (x =? y)%Z
  | VStr x, VStr y => String.eqb x y
  | VBool x, VBool y => Bool.eqb x y
  | _, _ => false
  end.

(** [a <= b] is TRUE; the statements compare integers only. *)
Definition sql_le (a b : value) : bool :=
  match a, b with
  | VNum x, VNum y => (x <=? y)%Z
  | _, _ => false
  end.

(** *** LOWER and LIKE *)

Definition lower_char (c : ascii) : ascii :=
  if (("A" <=? c) && (c <=? "Z"))%char
  then ascii_of_nat (nat_of_ascii c + 32)
  else c.

(** LOWER, on the ASCII letters. *)
Fixpoint lower (s : string) : string :=
  match s with
  | EmptyString => EmptyString
  | String c s' => String (lower_char c) (lower s')
  end.

(** [s LIKE p]: [%] matches any run of characters, [_] any one character,
    a backslash makes the next pattern character literal. A pattern that
    ends in a lone backslash is an error in PostgreSQL; the patterns of the
    models end in [%], so that this case does not arise, and it is [false]
    here. *)
Fixpoint like (p s : string) {struct p} : bool :=
  match p with
  | EmptyString =>
      match s with EmptyString => true | String _ _ => false end
  | String c p' =>
      if Ascii.eqb c "%" then
        (fix skip (s : string) : bool :=
           like p' s
           || match s with
              | EmptyString => false
              | String _ s' => skip s'
              end) s
      else if Ascii.eqb c "_" then
        match s with
        | EmptyString => false
        | String _ s' => like p' (Utf8.skip_continuation s')
        end
      else if Ascii.eqb c "\" then
        match p' with
        | EmptyString => false
        | String e p'' =>
            match s with
            | EmptyString => false
            | String x s' => Ascii.eqb x e && like p'' s'
            end
        end
      else
        match s with
        | EmptyString => false
        | String x s' => Ascii.eqb x c && like p' s'
        end
  end.

(** [LOWER(a) LIKE '%' || LOWER(b) || '%'] is TRUE. *)
Definition sql_lower_like (a b : value) : bool :=
  match a, b with
  | VStr x, VStr y => like ("%" +:+ lower y +:+ "%") (lower x)
  | _, _ => false
  end.

Definition sql_positive (a : value) : bool :=
  match a with
  | VStr s => positive_numeral s
  | VNum n => (0 <? n)%Z
  | _ => false
  end.

(** The collation of the database, for ORDER BY. *)
Class Collation : Type := { collate : string → string → bool }.

(** Ascending order of ORDER BY: NULL is last. *)
Definition order_leb `{Collation} (a b : value) : bool :=
  match a, b with
  | VStr x, VStr y => collate x y
  | VNum x, VNum y => (x <=? y)%Z
  | VNull, VNull => true
  | VNull, _ => false
  | _, _ => true
  end.

(** *** Relations *)

Class Relation (R : Type) : Type := {
  key : Type;
  key_eq_dec :: EqDecision key;
  pkey : R → key;
  (** the cell of a column; [None]: the relation has no such column *)
  column : string → option (R → value);
  (** storing a value in a column; [None]: no such column, or a value
      the column does not take *)
  store_in : string → value → option (R → R)
}.

(** A row from the columns and values of an INSERT. *)
Class Insertable (R : Type) : Type := { build : obj → option R }.

Definition company_column (c : string) : option (company_row → value) :=
  match c with
  | "handle" => Some (λ r, VStr (c_handle r))
  | "name" => Some (λ r, VStr (c_name r))
  | "num_employees" => Some (λ r, from_option VNum VNull (c_num_employees r))
  | "description" => Some (λ r, VStr (c_description r))
  | "logo_url" => Some (λ r, from_option VStr VNull (c_logo_url r))
  | _ => None
  end.

Definition company_store (c : string) (v : value)
    : option (company_row → company_row) :=
  match c with
  | "handle" =>
      x ← as_text v;
      Some (λ r, {| c_handle := x; c_name := c_name r;
                    c_num_employees := c_num_employees r;
                    c_description := c_description r;
                    c_logo_url := c_logo_url r |})
  | "name" =>
      x ← as_text v;
      Some (λ r, {| c_handle := c_handle r; c_name := x;
                    c_num_employees := c_num_employees r;
                    c_description := c_description r;
                    c_logo_url := c_logo_url r |})
  | "num_employees" =>
      x ← nullable as_integer v;
      Some (λ r, {| c_handle := c_handle r; c_name := c_name r;
                    c_num_employees := x;
                    c_description := c_description r;
                    c_logo_url := c_logo_url r |})
  | "description" =>
      x ← as_text v;
      Some (λ r, {| c_handle := c_handle r; c_name := c_name r;
                    c_num_employees := c_num_employees r;
                    c_description := x;
                    c_logo_url := c_logo_url r |})
  | "logo_url" =>
      x ← nullable as_text v;
      Some (λ r, {| c_handle := c_handle r; c_name := c_name r;
                    c_num_employees := c_num_employees r;
                    c_description := c_description r;
                    c_logo_url := x |})
  | _ => None
  end.

#[export] Instance company_relation : Relation company_row := {
  key := string;
  pkey := c_handle;
  column := company_column;
  store_in := company_store
}.

Definition job_column (c : string) : option (job_row → value) :=
  match c with
  | "id" => Some (λ r, VNum (j_id r))
  | "title" => Some (λ r, VStr (j_title r))
  | "salary" => Some (λ r, from_option VNum VNull (j_salary r))
  | "equity" => Some (λ r, from_option VStr VNull (j_equity r))
  | "company_handle" => Some (λ r, VStr (j_company_handle r))
  | _ => None
  end.

Definition job_store (c : string) (v : value) : option (job_row → job_row) :=
  match c with
  | "id" =>
      x ← as_int v;
      i ← to_int4 x;
      Some (λ r, {| j_id4 := i; j_title := j_title r; j_salary := j_salary r;
                    j_equity := j_equity r;
                    j_company_handle := j_company_handle r |})
  | "title" =>
      x ← as_text v;
      Some (λ r, {| j_id4 := j_id4 r; j_title := x; j_salary := j_salary r;
                    j_equity := j_equity r;
                    j_company_handle := j_company_handle r |})
  | "salary" =>
      x ← nullable as_integer v;
      Some (λ r, {| j_id4 := j_id4 r; j_title := j_title r; j_salary := x;
                    j_equity := j_equity r;
                    j_company_handle := j_company_handle r |})
  | "equity" =>
      x ← nullable as_numeric v;
      Some (λ r, {| j_id4 := j_id4 r; j_title := j_title r;
                    j_salary := j_salary r; j_equity := x;
                    j_company_handle := j_company_handle r |})
  | "company_handle" =>
      x ← as_text v;
      Some (λ r, {| j_id4 := j_id4 r; j_title := j_title r;
                    j_salary := j_salary r; j_equity := j_equity r;
                    j_company_handle := x |})
  | _ => None
  end.

#[export] Instance job_relation : Relation job_row := {
  key := Z;
  pkey := j_id;
  column := job_column;
  store_in := job_store
}.

Definition user_column (c : string) : option (user_row → value) :=
  match c with
  | "username" => Some (λ r, VStr (u_username r))
  | "password" => Some (λ r, VStr (u_password r))
  | "first_name" => Some (λ r, VStr (u_first_name r))
  | "last_name" => Some (λ r, VStr (u_last_name r))
  | "email" => Some (λ r, VStr (u_email r))
  | "is_admin" => Some (λ r, VBool (u_is_admin r))
  | _ => None
  end.

Definition user_store (c : string) (v : value)
    : option (user_row → user_row) :=
  match c with
  | "username" =>
      x ← as_text v;
      Some (λ r, {| u_username := x; u_password := u_password r;
                    u_first_name := u_first_name r;
                    u_last_name := u_last_name r; u_email := u_email r;
                    u_is_admin := u_is_admin r |})
  | "password" =>
      x ← as_text v;
      Some (λ r, {| u_username := u_username r; u_password := x;
                    u_first_name := u_first_name r;
                    u_last_name := u_last_name r; u_email := u_email r;
                    u_is_admin := u_is_admin r |})
  | "first_name" =>
      x ← as_text v;
      Some (λ r, {| u_username := u_username r; u_password := u_password r;
                    u_first_name := x;
                    u_last_name := u_last_name r; u_email := u_email r;
                    u_is_admin := u_is_admin r |})
  | "last_name" =>
      x ← as_text v;
      Some (λ r, {| u_username := u_username r; u_password := u_password r;
                    u_first_name := u_first_name r;
                    u_last_name := x; u_email := u_email r;
                    u_is_admin := u_is_admin r |})
  | "email" =>
      x ← as_text v;
      Some (λ r, {| u_username := u_username r; u_password := u_password r;
                    u_first_name := u_first_name r;
                    u_last_name := u_last_name r; u_email := x;
                    u_is_admin := u_is_admin r |})
  | "is_admin" =>
      x ← as_bool v;
      Some (λ r, {| u_username := u_username r; u_password := u_password r;
                    u_first_name := u_first_name r;
                    u_last_name := u_last_name r; u_email := u_email r;
                    u_is_admin := x |})
  | _ => None
  end.

#[export] Instance user_relation : Relation user_row := {
  key := string;
  pkey := u_username;
  column := user_column;
  store_in := user_store
}.

#[export] Instance user_insertable : Insertable user_row := {
  build o :=
    username ← as_text (prop o "username");
    password ← as_text (prop o "password");
    first_name ← as_text (prop o "first_name");
    last_name ← as_text (prop o "last_name");
    email ← as_text (prop o "email");
    is_admin ← as_bool (prop o "is_admin");
    Some {| u_username := username; u_password := password;
            u_first_name := first_name; u_last_name := last_name;
            u_email := email; u_is_admin := is_admin |}
}.

Definition application_column (c : string)
    : option (application_row → value) :=
  match c with
  | "username" => Some (λ r, VStr (app_username r))
  | "job_id" => Some (λ r, VNum (app_job_id r))
  | _ => None
  end.

Definition application_store (c : string) (v : value)
    : option (application_row → application_row) :=
  match c with
  | "username" =>
      x ← as_text v;
      Some (λ r, {| app_username := x; app_job_id4 := app_job_id4 r |})
  | "job_id" =>
      x ← as_int v;
      i ← to_int4 x;
      Some (λ r, {| app_username := app_username r; app_job_id4 := i |})
  | _ => None
  end.

#[export] Instance application_relation : Relation application_row := {
  key := string * Z;
  pkey r := (app_username r, app_job_id r);
  column := application_column;
  store_in := application_store
}.

#[export] Instance application_insertable : Insertable application_row := {
  build o :=
    username ← as_text (prop o "username");
    job_id ← as_int (prop o "job_id");
    i ← to_int4 job_id;
    Some {| app_username := username; app_job_id4 := i |}
}.

(** *** Statements

    The models build SQL text; here a statement is its syntax tree, and the
    conditions and assignments the source pushes as strings are pushed as
    trees ([render_cond] and [Sql.render] give the source's text). *)

Inductive cond : Type :=
| Ge (col : string) (i : nat)          (* col >= $i *)
| Le (col : string) (i : nat)          (* col <= $i *)
| Eq (col : string) (i : nat)          (* col = $i *)
| LowerLike (col : string) (i : nat)   (* LOWER(col) LIKE '%' || LOWER($i) || '%' *)
| Positive (col : string).             (* col > 0 *)

Definition render_cond (c : cond) : string :=
  match c with
  | Ge col i => col +:+ " >= $" +:+ pretty i
  | Le col i => col +:+ " <= $" +:+ pretty i
  | Eq col i => col +:+ " = $" +:+ pretty i
  | LowerLike col i =>
      "LOWER(" +:+ col +:+ ") LIKE '%' || LOWER($" +:+ pretty i +:+ ") || '%'"
  | Positive col => col +:+ " > 0"
  end.

(** [" WHERE " + conditions.join(" AND ")] *)
Definition render_where (conditions : list cond) : string :=
  " WHERE " +:+ String.concat " AND " (render_cond <$> conditions).

Inductive table : Type := Companies | Jobs | Users | Applications.

(** The statements of this module insert into users and applications. *)
Inductive target : Type := IntoUsers | IntoApplications.

(** A select list and a RETURNING list: columns with the names they are
    returned under ([column AS "name"]). *)
Definition select_list : Type := list (string * string).

Inductive statement : Type :=
| Select (columns : select_list) (from : table) (where_ : list cond)
    (order_by : option string)
| SelectUserLeftJoinApplications     (* the statement of User.get *)
| Update (relation : table) (setCols : string) (set : list assignment)
    (key_column : string) (key_index : nat) (returning : select_list)
| Insert (into : target) (columns : list string) (returning : select_list).

(** The parameter [$i]. *)
Definition arg (params : list value) (i : nat) : value :=
  default VNull (params !! (i - 1)%nat).

Section Execution.

Context `{Collation}.

Definition known (R : Type) `{Relation R} (c : string) : bool :=
  match column (R:=R) c with Some _ => true | None => false end.

Definition cell {R} `{Relation R} (c : string) (r : R) : value :=
  match column c with Some f => f r | None => VNull end.

Definition holds {R} `{Relation R} (params : list value) (r : R) (c : cond)
    : bool :=
  match c with
  | Ge col i => sql_le (arg params i) (cell col r)
  | Le col i => sql_le (cell col r) (arg params i)
  | Eq col i => sql_eq (cell col r) (arg params i)
  | LowerLike col i => sql_lower_like (cell col r) (arg params i)
  | Positive col => sql_positive (cell col r)
  end.

Definition cond_column (c : cond) : string :=
  match c with
  | Ge col _ | Le col _ | Eq col _ | LowerLike col _ | Positive col => col
  end.

(** The columns of the type INTEGER (modelled from the spec, as the
    tables are). *)
Definition integer_column (c : string) : bool :=
  match c with
  | "id" | "job_id" | "num_employees" | "salary" => true
  | _ => false
  end.

(** The parameter of the condition is an integer beyond the range of the
    INTEGER column it is compared with: the database refuses to bind
    it. *)
Definition out_of_range (params : list value) (c : cond) : bool :=
  match c with
  | Ge col i | Le col i | Eq col i =>
      integer_column col
      && match arg params i with
         | VNum n => negb (in_int4 n)
         | _ => false
         end
  | LowerLike _ _ | Positive _ => false
  end.

Definition cond_bound (n : nat) (c : cond) : bool :=
  match c with
  | Ge _ i | Le _ i | Eq _ i | LowerLike _ i => (1 <=? i)%nat && (i <=? n)%nat
  | Positive _ => true
  end.

Definition project {R} `{Relation R} (cols : select_list) (r : R) : obj :=
  (λ ca, (ca.2, cell ca.1 r)) <$> cols.

Definition sort_by {R} `{Relation R} (order : option string) (rows : list R)
    : list R :=
  match order with
  | Some c =>
      merge_sort (λ a b, Is_true (order_leb (cell c a) (cell c b))) rows
  | None => rows
  end.

Definition select {R} `{Relation R} (rows : list R) (cols : select_list)
    (conds : list cond) (order : option string) (params : list value)
    : error + list obj :=
  if forallb (known R)
       (cols.*1 ++ (cond_column <$> conds) ++ option_list order)
     && forallb (cond_bound (length params)) conds
  then
    if existsb (out_of_range params) conds then
      inl (DatabaseError "22003" "value is out of range for type integer")
    else
      inr (project cols
             <$> sort_by order
                   (List.filter (λ r, forallb (holds params r) conds) rows))
  else inl (DatabaseError "42703" "undefined column or parameter").

(** UPDATE ... SET ... WHERE key_column = $key_index RETURNING ...
    The list keeps an updated row where it was. PostgreSQL writes a new
    version of the row, and where a later reading without ORDER BY finds
    it is not fixed: the properties below do not depend on the place of
    an updated row among the others. *)
Definition update {R} `{Relation R} (rows : list R) (set : list assignment)
    (key_column : string) (key_index : nat) (returning : select_list)
    (params : list value) : error + (list obj * list R) :=
  match set with
  | [] => inl (DatabaseError "42601" "syntax error at or near WHERE")
  | _ :: _ =>
      if negb (bool_decide (NoDup (a_column <$> set))) then
        inl (DatabaseError "42601" "multiple assignments to same column")
      else if negb (forallb (known R) (key_column :: returning.*1)) then
        inl (DatabaseError "42703" "undefined column")
      else
        match mapM (λ a, store_in (a_column a) (arg params (a_index a))) set
        with
        | None =>
            inl (DatabaseError "42703"
                   "undefined column, or a value the column does not take")
        | Some changes =>
            if out_of_range params (Eq key_column key_index) then
              inl (DatabaseError "22003"
                     "value is out of range for type integer")
            else
              let hit r := sql_eq (cell key_column r) (arg params key_index) in
              let change r := foldl (λ r f, f r) r changes in
              let rows' := (λ r, if hit r then change r else r) <$> rows in
              if bool_decide (NoDup (pkey <$> rows')) then
                inr (project returning <$> (change <$> List.filter hit rows),
                     rows')
              else
                inl (DatabaseError "23505"
                       "duplicate key value violates unique constraint")
        end
  end.

Definition insert {R} `{Relation R} `{Insertable R} (rows : list R)
    (columns : list string) (returning : select_list) (params : list value)
    : error + (list obj * list R) :=
  if negb (length columns =? length params)%nat then
    inl (DatabaseError "42601" "INSERT has more or fewer expressions than target columns")
  else
    match build (zip columns params) with
    | None =>
        inl (DatabaseError "23502"
               "a column misses its value, or does not take it")
    | Some r =>
        if bool_decide (pkey r ∈ pkey <$> rows) then
          inl (DatabaseError "23505"
                 "duplicate key value violates unique constraint")
        else if negb (forallb (known R) returning.*1) then
          inl (DatabaseError "42703" "undefined column")
        else inr ([project returning r], rows ++ [r])
    end.

(** [SELECT u.username, u.first_name AS "firstName", u.last_name AS
    "lastName", u.email, u.is_admin AS "isAdmin", a.job_id AS "jobId"
    FROM users u LEFT JOIN applications a ON u.username = a.username
    WHERE u.username = $1] *)
Definition user_left_join_applications (d : db) (params : list value)
    : list obj :=
  flat_map
    (λ u,
       let head :=
         project [("username", "username"); ("first_name", "firstName");
                  ("last_name", "lastName"); ("email", "email");
                  ("is_admin", "isAdmin")] u in
       match
         List.filter (λ a, String.eqb (u_username u) (app_username a))
           (applications d)
       with
       | [] => [head ++ [("jobId", VNull)]]
       | mine => (λ a, head ++ [("jobId", VNum (app_job_id a))]) <$> mine
       end)
    (List.filter (λ u, sql_eq (VStr (u_username u)) (arg params 1))
       (users d)).

Definition reading (d : db) (r : error + list obj) : error + (list obj * db) :=
  match r with
  | inl e => inl e
  | inr rows => inr (rows, d)
  end.

Definition writing {R} (put : list R → db) (r : error + (list obj * list R))
    : error + (list obj * db) :=
  match r with
  | inl e => inl e
  | inr (rows, t) => inr (rows, put t)
  end.

Definition set_companies (d : db) (t : list company_row) : db :=
  {| companies := t; jobs := jobs d; users := users d;
     applications := applications d |}.
Definition set_jobs (d : db) (t : list job_row) : db :=
  {| companies := companies d; jobs := t; users := users d;
     applications := applications d |}.
Definition set_users (d : db) (t : list user_row) : db :=
  {| companies := companies d; jobs := jobs d; users := t;
     applications := applications d |}.
Definition set_applications (d : db) (t : list application_row) : db :=
  {| companies := companies d; jobs := jobs d; users := users d;
     applications := t |}.

(** What a statement returns and does to the database. *)
Definition exec (s : statement) (params : list value) (d : db)
    : error + (list obj * db) :=
  match s with
  | Select cols from conds order =>
      reading d
        match from with
        | Companies => select (companies d) cols conds order params
        | Jobs => select (jobs d) cols conds order params
        | Users => select (users d) cols conds order params
        | Applications => select (applications d) cols conds order params
        end
  | SelectUserLeftJoinApplications =>
      inr (user_left_join_applications d params, d)
  | Update t _ set kc ki returning =>
      match t with
      | Companies =>
          writing (set_companies d)
            (update (companies d) set kc ki returning params)
      | Jobs =>
          writing (set_jobs d) (update (jobs d) set kc ki returning params)
      | Users =>
          writing (set_users d) (update (users d) set kc ki returning params)
      | Applications =>
          writing (set_applications d)
            (update (applications d) set kc ki returning params)
      end
  | Insert into columns returning =>
      match into with
      | IntoUsers =>
          writing (set_users d) (insert (users d) columns returning params)
      | IntoApplications =>
          writing (set_applications d)
            (insert (applications d) columns returning params)
      end
  end.

End Execution.

(** *** db.js: the connection, and the effects of the models

    The world is the database together with the statements sent to it so
    far. A computation returns a value or throws. *)

Record issued : Type := { i_statement : statement; i_params : list value }.

Record world : Type := { store : db; log : list issued }.

Definition M (A : Type) : Type := world → (error + A) * world.

Definition ret {A} (a : A) : M A := λ w, (inr a, w).

Definition throw {A} (e : error) : M A := λ w, (inl e, w).

Definition bind {A B} (m : M A) (k : A → M B) : M B :=
  λ w, match m w with
       | (inl e, w') => (inl e, w')
       | (inr a, w') => k a w'
       end.

(** [try { m } catch (err) { h(err) }] *)
Definition try_catch {A} (m : M A) (h : error → M A) : M A :=
  λ w, match m w with
       | (inl e, w') => h e w'
       | (inr a, w') => (inr a, w')
       end.

(** A synchronous call that may throw. *)
Definition lift {A} (r : error + A) : M A := λ w, (r, w).

(** [await db.query(statement, params)], giving [result.rows]. *)
Definition query `{Collation} (s : statement) (params : list value)
    : M (list obj) :=
  λ w,
    let sent := log w ++ [{| i_statement := s; i_params := params |}] in
    match exec s params (store w) with
    | inl e => (inl e, {| store := store w; log := sent |})
    | inr (rows, d) => (inr rows, {| store := d; log := sent |})
    end.

End Pg.

Import Pg.

Notation "x <- m ;; k" := (bind m (λ x, k))
  (at level 100, m at next level, right associativity,
   format "'[v' x  <-  m  ;;  '/' k ']'").

(** ** db.js, for every statement of the models

    [Company.create], [Company.get], [Job.create] and the four [remove]
    send statements of four forms more. They run in a world that has the
    sequence of the job ids and whose log takes these statements too; a
    computation that sends statements of the forms above alone runs in it
    through [earlier]. *)

Module Db.

#[export] Instance company_insertable : Insertable company_row := {
  build o :=
    handle ← as_text (prop o "handle");
    name ← as_text (prop o "name");
    description ← as_text (prop o "description");
    num_employees ← nullable as_int (prop o "num_employees");
    logo_url ← nullable as_text (prop o "logo_url");
    Some {| c_handle := handle; c_name := name;
            c_num_employees := num_employees; c_description := description;
            c_logo_url := logo_url |}
}.

Inductive statement : Type :=
| Earlier (s : Pg.statement)
| InsertCompany (columns : list string) (returning : select_list)
| InsertJob (columns : list string) (returning : select_list)
| SelectCompanyLeftJoinJobs          (* the statement of Company.get *)
| Delete (from : table) (where_ : list cond) (returning : select_list).

(** The CHECK and UNIQUE constraints of [companies] and [jobs], beyond
    the primary keys, are not among the sources (the specification gives
    ranges for the salary and the equity): the rows a table admits beside
    those it holds, by these constraints and by the ranges of the types
    of its columns, are a parameter. *)
Class Constraints : Type := {
  admits_company : list company_row → company_row → bool;
  admits_job : list job_row → job_row → bool
}.

(** INSERT INTO companies *)
Definition insert_company `{Constraints} (rows : list company_row)
    (columns : list string) (returning : select_list) (params : list value)
    : error + (list obj * list company_row) :=
  if negb (length columns =? length params)%nat then
    inl (DatabaseError "42601" "INSERT has more or fewer expressions than target columns")
  else
    match build (zip columns params) with
    | None =>
        inl (DatabaseError "23502"
               "a column misses its value, or does not take it")
    | Some r =>
        if negb (admits_company rows r) then
          inl (DatabaseError "23514" "new row violates a constraint")
        else if bool_decide (pkey r ∈ pkey <$> rows) then
          inl (DatabaseError "23505"
                 "duplicate key value violates unique constraint")
        else if negb (forallb (known company_row) returning.*1) then
          inl (DatabaseError "42703" "undefined column")
        else inr ([project returning r], rows ++ [r])
    end.

(** INSERT INTO jobs: the id is the next value of the sequence. *)
Definition insert_job `{Constraints} (rows : list job_row) (id : Z)
    (columns : list string) (returning : select_list) (params : list value)
    : error + (list obj * list job_row) :=
  if negb (length columns =? length params)%nat then
    inl (DatabaseError "42601" "INSERT has more or fewer expressions than target columns")
  else
    let o := zip columns params in
    match
      id ← to_int4 id;
      title ← as_text (prop o "title");
      salary ← nullable as_int (prop o "salary");
      equity ← nullable as_numeric (prop o "equity");
      company_handle ← as_text (prop o "company_handle");
      Some {| j_id4 := id; j_title := title; j_salary := salary;
              j_equity := equity; j_company_handle := company_handle |}
    with
    | None =>
        inl (DatabaseError "23502"
               "a column misses its value, or does not take it")
    | Some r =>
        if negb (admits_job rows r) then
          inl (DatabaseError "23514" "new row violates a constraint")
        else if bool_decide (pkey r ∈ pkey <$> rows) then
          inl (DatabaseError "23505"
                 "duplicate key value violates unique constraint")
        else if negb (forallb (known job_row) returning.*1) then
          inl (DatabaseError "42703" "undefined column")
        else inr ([project returning r], rows ++ [r])
    end.

(** DELETE ... WHERE ... RETURNING ...: the rows the conditions select are
    taken out and returned. *)
Definition delete {R} `{Relation R} (rows : list R) (conds : list cond)
    (returning : select_list) (params : list value)
    : error + (list obj * list R) :=
  if forallb (known R) (returning.*1 ++ (cond_column <$> conds))
     && forallb (cond_bound (length params)) conds
  then
    if existsb (out_of_range params) conds then
      inl (DatabaseError "22003" "value is out of range for type integer")
    else
      let hit r := forallb (holds params r) conds in
      inr (project returning <$> List.filter hit rows,
           List.filter (λ r, negb (hit r)) rows)
  else inl (DatabaseError "42703" "undefined column or parameter").

(** [SELECT c.handle, c.name, c.description, c.num_employees AS
    "numEmployees", c.logo_url AS "logoUrl", j.id, j.title, j.salary,
    j.equity FROM companies c LEFT JOIN jobs j ON c.handle =
    j.company_handle WHERE c.handle = $1] *)
Definition company_left_join_jobs (d : db) (params : list value)
    : list obj :=
  flat_map
    (λ c,
       let head :=
         project [("handle", "handle"); ("name", "name");
                  ("description", "description");
                  ("num_employees", "numEmployees");
                  ("logo_url", "logoUrl")] c in
       match
         List.filter (λ j, String.eqb (c_handle c) (j_company_handle j))
           (jobs d)
       with
       | [] =>
           [head ++ [("id", VNull); ("title", VNull); ("salary", VNull);
                     ("equity", VNull)]]
       | theirs =>
           (λ j, head ++ project [("id", "id"); ("title", "title");
                                  ("salary", "salary"); ("equity", "equity")]
                           j) <$> theirs
       end)
    (List.filter (λ c, sql_eq (VStr (c_handle c)) (arg params 1))
       (companies d)).

(** The foreign keys of the schema are not among the sources. What the
    deletion of companies, jobs or users does to the rows that refer to
    them, or whether these forbid it, is left open: [on_delete] takes the
    table, the database before the statement and the database without the
    deleted rows to the database the statement leaves, or to its error. *)
Class ForeignKeys : Type := { on_delete : table → db → db → error + db }.

(** The foreign keys are looked at when a row has been deleted. *)
Definition referring `{ForeignKeys} (t : table) (d : db)
    (r : error + (list obj * db)) : error + (list obj * db) :=
  match r with
  | inr (row :: rows, d') =>
      match on_delete t d d' with
      | inr d'' => inr (row :: rows, d'')
      | inl e => inl e
      end
  | _ => r
  end.

(** What a statement returns and does to the database; [nextval] is the
    next value of the sequence of the job ids. *)
Definition exec `{Collation} `{ForeignKeys} `{Constraints} (s : statement)
    (params : list value) (d : db) (nextval : Z)
    : error + (list obj * db) :=
  match s with
  | Earlier s => Pg.exec s params d
  | InsertCompany columns returning =>
      writing (set_companies d)
        (insert_company (companies d) columns returning params)
  | InsertJob columns returning =>
      writing (set_jobs d)
        (insert_job (jobs d) nextval columns returning params)
  | SelectCompanyLeftJoinJobs => inr (company_left_join_jobs d params, d)
  | Delete from conds returning =>
      match from with
      | Companies =>
          referring Companies d
            (writing (set_companies d)
               (delete (companies d) conds returning params))
      | Jobs =>
          referring Jobs d
            (writing (set_jobs d) (delete (jobs d) conds returning params))
      | Users =>
          referring Users d
            (writing (set_users d) (delete (users d) conds returning params))
      | Applications =>          (* no table refers to the applications *)
          writing (set_applications d)
            (delete (applications d) conds returning params)
      end
  end.

Record issued : Type := { i_statement : statement; i_params : list value }.

(** [jobs_id_seq] is the value the sequence gives next. *)
Record world : Type := {
  store : db;
  jobs_id_seq : Z;
  log : list issued
}.

Definition M (A : Type) : Type := world → (error + A) * world.

Definition ret {A} (a : A) : M A := λ w, (inr a, w).

Definition throw {A} (e : error) : M A := λ w, (inl e, w).

Definition bind {A B} (m : M A) (k : A → M B) : M B :=
  λ w, match m w with
       | (inl e, w') => (inl e, w')
       | (inr a, w') => k a w'
       end.

(** [try { m } catch (err) { h(err) }] *)
Definition try_catch {A} (m : M A) (h : error → M A) : M A :=
  λ w, match m w with
       | (inl e, w') => h e w'
       | (inr a, w') => (inr a, w')
       end.

(** [await db.query(statement, params)], giving [result.rows]. An INSERT
    INTO jobs takes a value of the sequence, whether it succeeds or not. *)
Definition query `{Collation} `{ForeignKeys} `{Constraints} (s : statement)
    (params : list value) : M (list obj) :=
  λ w,
    let sent := log w ++ [{| i_statement := s; i_params := params |}] in
    let seq :=
      match s with
      | InsertJob _ _ => (jobs_id_seq w + 1)%Z
      | _ => jobs_id_seq w
      end in
    match exec s params (store w) (jobs_id_seq w) with
    | inl e => (inl e, {| store := store w; jobs_id_seq := seq; log := sent |})
    | inr (rows, d) =>
        (inr rows, {| store := d; jobs_id_seq := seq; log := sent |})
    end.

(** A computation of the statements above, in this world: it starts from
    the database and adds what it sends to the log. *)
Definition earlier {A} (m : Pg.M A) : M A :=
  λ w,
    let '(r, w') := m {| Pg.store := store w; Pg.log := [] |} in
    (r, {| store := Pg.store w';
           jobs_id_seq := jobs_id_seq w;
           log := log w
                  ++ ((λ i, {| i_statement := Earlier (Pg.i_statement i);
                               i_params := Pg.i_params i |})
                        <$> Pg.log w') |}).

End Db.

Notation "x <~ m ;; k" := (Db.bind m (λ x, k))
  (at level 100, m at next level, right associativity,
   format "'[v' x  <~  m  ;;  '/' k ']'").

(** ** config.js and the libraries the models call *)

Class Config : Type := { SECRET_KEY : string; BCRYPT_WORK_FACTOR : Z }.

(** bcrypt. The random salt is left out: a hash is a function of the
    password and the work factor. *)
Class Bcrypt : Type := {
  bcrypt_hash : string → Z → string;
  bcrypt_compare : string → string → bool
}.

(** ** models/company.js *)

Module Company.

Record filters : Type := {
  minEmployees : option Z;
  maxEmployees : option Z;
  nameLike : option string
}.

(** [handle, name, description, num_employees AS "numEmployees",
    logo_url AS "logoUrl"] *)
Definition columns : select_list :=
  [("handle", "handle"); ("name", "name"); ("description", "description");
   ("num_employees", "numEmployees"); ("logo_url", "logoUrl")].

Section Model.

Context `{Collation}.

Definition findAll (f : filters) : M (list obj) :=
  let conditions : list cond := [] in
  let values : list value := [] in
  let '(conditions, values) :=
    match minEmployees f with
    | Some minEmployees =>
        (conditions ++ [Ge "num_employees" (length values + 1)],
         values ++ [VNum minEmployees])
    | None => (conditions, values)
    end in
  let '(conditions, values) :=
    match maxEmployees f with
    | Some maxEmployees =>
        (conditions ++ [Le "num_employees" (length values + 1)],
         values ++ [VNum maxEmployees])
    | None => (conditions, values)
    end in
  let '(conditions, values) :=
    match nameLike f with
    | Some nameLike =>
        (conditions ++ [LowerLike "name" (length values + 1)],
         values ++ [VStr nameLike])
    | None => (conditions, values)
    end in
  companiesRes <-
    try_catch (query (Select columns Companies conditions (Some "name")) values)
      (λ err, throw (ExpressError (message_of err) None)) ;;
  ret companiesRes.

Definition update (handle : string) (data : obj) : M obj :=
  u <- lift (sqlForPartialUpdate data
               {[ "numEmployees" := "num_employees";
                  "logoUrl" := "logo_url" ]}) ;;
  let handleVarIdx := length (values u) + 1 in
  updateResult <-
    try_catch
      (query (Update Companies (setCols u) (assignments u) "handle"
                handleVarIdx columns)
         (values u ++ [VStr handle]))
      (λ err, throw (ExpressError (message_of err) None)) ;;
  match updateResult with
  | [] => throw (NotFoundError ("No company: " +:+ handle))
  | company :: _ => ret company
  end.

(** [create({ handle, name, description, numEmployees, logoUrl })] *)
Definition create `{Db.ForeignKeys} `{Db.Constraints} (company : obj)
    : Db.M obj :=
  let handle := prop company "handle" in
  duplicateCheck <~
    Db.try_catch
      (Db.query
         (Db.Earlier
            (Select [("handle", "handle")] Companies [Eq "handle" 1] None))
         [handle])
      (λ err, Db.throw (ExpressError (message_of err) None)) ;;
  match duplicateCheck with
  | _ :: _ =>
      Db.throw (BadRequestError ("Duplicate company: " +:+ to_string handle))
  | [] =>
      insertResult <~
        Db.try_catch
          (Db.query
             (Db.InsertCompany
                ["handle"; "name"; "description"; "num_employees";
                 "logo_url"]
                columns)
             [handle; prop company "name"; prop company "description";
              prop company "numEmployees"; prop company "logoUrl"])
          (λ err, Db.throw (ExpressError (message_of err) None)) ;;
      match insertResult with
      | [] => Db.throw (ExpressError "Error creating new company." None)
      | company :: _ => Db.ret company
      end
  end.

(** [get(handle)]; [!handle] holds of [undefined] and of the empty
    string. *)
Definition get `{Db.ForeignKeys} `{Db.Constraints} (handle : option string)
    : Db.M obj :=
  match handle with
  | None => Db.throw (NotFoundError "No company: undefined")
  | Some handle =>
      if String.eqb handle EmptyString
      then Db.throw (NotFoundError ("No company: " +:+ handle))
      else
        companyRes <~
          Db.try_catch (Db.query Db.SelectCompanyLeftJoinJobs [VStr handle])
            (λ err, Db.throw (ExpressError (message_of err) None)) ;;
        match companyRes with
        | [] => Db.throw (NotFoundError ("No company: " +:+ handle))
        | companyData :: _ =>
            let jobs :=
              (λ row, [("id", prop row "id"); ("title", prop row "title");
                       ("salary", prop row "salary");
                       ("equity", prop row "equity")]) <$> companyRes in
            let filteredJobs :=
              List.filter (λ job, negb (is_null (prop job "id"))) jobs in
            Db.ret [("handle", prop companyData "handle");
                    ("name", prop companyData "name");
                    ("description", prop companyData "description");
                    ("numEmployees", prop companyData "numEmployees");
                    ("logoUrl", prop companyData "logoUrl");
                    ("jobs", VArr (VObj <$> filteredJobs))]
        end
  end.

Definition remove `{Db.ForeignKeys} `{Db.Constraints} (handle : string)
    : Db.M unit :=
  removeResult <~
    Db.try_catch
      (Db.query (Db.Delete Companies [Eq "handle" 1] [("handle", "handle")])
         [VStr handle])
      (λ err, Db.throw (ExpressError (message_of err) None)) ;;
  match removeResult with
  | [] => Db.throw (NotFoundError ("No company: " +:+ handle))
  | _ :: _ => Db.ret tt
  end.

End Model.

End Company.

(** ** models/job.js *)

Module Job.

Record filters : Type := {
  minSalary : option Z;
  hasEquity : value;
  title : option string;
  titleLike : option string
}.

(** [id, title, salary, equity, company_handle AS "companyHandle"] *)
Definition columns : select_list :=
  [("id", "id"); ("title", "title"); ("salary", "salary");
   ("equity", "equity"); ("company_handle", "companyHandle")].

(** [hasEquity === true || hasEquity == 'true'] *)
Definition wants_equity (hasEquity : value) : bool :=
  match hasEquity with
  | VBool true => true
  | _ => loosely_equals_true_string hasEquity
  end.

Section Model.

Context `{Collation}.

Definition findAll (f : filters) : M (list obj) :=
  let conditions : list cond := [] in
  let values : list value := [] in
  let '(conditions, values) :=
    match minSalary f with
    | Some minSalary =>
        (conditions ++ [Ge "salary" (length values + 1)],
         values ++ [VNum minSalary])
    | None => (conditions, values)
    end in
  let '(conditions, values) :=
    match titleLike f with
    | Some titleLike =>
        (conditions ++ [LowerLike "title" (length values + 1)],
         values ++ [VStr titleLike])
    | None => (conditions, values)
    end in
  let '(conditions, values) :=
    match title f with
    | Some title =>
        (conditions ++ [Eq "title" (length values + 1)],
         values ++ [VStr title])
    | None => (conditions, values)
    end in
  let conditions :=
    if wants_equity (hasEquity f) then conditions ++ [Positive "equity"]
    else conditions in
  jobsRes <- query (Select columns Jobs conditions (Some "title")) values ;;
  ret jobsRes.

Definition update (id : Z) (data : obj) : M obj :=
  u <- lift (sqlForPartialUpdate data
               {[ "title" := "title"; "salary" := "salary";
                  "equity" := "equity" ]}) ;;
  let handleVarIdx := length (values u) + 1 in
  result <-
    query (Update Jobs (setCols u) (assignments u) "id" handleVarIdx columns)
      (values u ++ [VNum id]) ;;
  match result with
  | [] => throw (NotFoundError ("No job was updated: " +:+ pretty id))
  | job :: _ => ret job
  end.

(** [get(id)]; the statement does not select [id], the returned object
    takes it from the argument. *)
Definition get (id : option Z) : M obj :=
  match id with
  | None => throw (NotFoundError "No job for ID: undefined")
  | Some id =>
      jobRes <-
        try_catch
          (query (Select [("title", "title"); ("salary", "salary");
                          ("equity", "equity");
                          ("company_handle", "companyHandle")]
                    Jobs [Eq "id" 1] None)
             [VNum id])
          (λ err, throw (ExpressError (message_of err) (Some 500%Z))) ;;
      match jobRes with
      | [] =>
          throw (NotFoundError ("No job was found for ID: " +:+ pretty id))
      | job :: _ =>
          ret [("id", VNum id); ("title", prop job "title");
               ("salary", prop job "salary"); ("equity", prop job "equity");
               ("companyHandle", prop job "companyHandle")]
      end
  end.

(** [create({ title, salary, equity, companyHandle })];
    [companyHandle == null] holds of [null] and of [undefined]. *)
Definition create `{Db.ForeignKeys} `{Db.Constraints} (jobData : obj)
    : Db.M obj :=
  let companyHandle := prop jobData "companyHandle" in
  if is_null companyHandle || is_undefined companyHandle then
    Db.throw
      (BadRequestError "Company Handle is null. Please locate a company.")
  else
    companyCheck <~
      Db.try_catch
        (Db.query
           (Db.Earlier
              (Select [("handle", "handle")] Companies [Eq "handle" 1] None))
           [companyHandle])
        (λ err, Db.throw (ExpressError (message_of err) (Some 500%Z))) ;;
    match companyCheck with
    | [] =>
        Db.throw
          (BadRequestError
             ("Company not found: " +:+ to_string companyHandle))
    | _ :: _ =>
        jobInsertResult <~
          Db.try_catch
            (Db.query
               (Db.InsertJob ["title"; "salary"; "equity"; "company_handle"]
                  columns)
               [prop jobData "title"; prop jobData "salary";
                prop jobData "equity"; companyHandle])
            (λ err, Db.throw (ExpressError (message_of err) (Some 500%Z))) ;;
        match jobInsertResult with
        | job :: _ => Db.ret job
        | [] =>
            Db.throw
              (TypeError "Cannot read properties of undefined (reading 'id')")
        end
    end.

Definition remove `{Db.ForeignKeys} `{Db.Constraints} (id : Z) : Db.M unit :=
  jobRemovalResult <~
    Db.try_catch
      (Db.query (Db.Delete Jobs [Eq "id" 1] [("id", "id")]) [VNum id])
      (λ err, Db.throw (NotFoundError (message_of err))) ;;
  match jobRemovalResult with
  | [] => Db.throw (NotFoundError ("No job: " +:+ pretty id))
  | _ :: _ => Db.ret tt
  end.

End Model.

End Job.

(** ** models/user.js *)

Module User.

(** [username, first_name AS "firstName", last_name AS "lastName", email,
    is_admin AS "isAdmin"] *)
Definition columns : select_list :=
  [("username", "username"); ("first_name", "firstName");
   ("last_name", "lastName"); ("email", "email"); ("is_admin", "isAdmin")].

Definition columns_with_password : select_list :=
  [("username", "username"); ("password", "password");
   ("first_name", "firstName"); ("last_name", "lastName");
   ("email", "email"); ("is_admin", "isAdmin")].

Section Model.

Context `{Collation} `{Config} `{Bcrypt}.

Definition server_error {A} (err : error) : M A :=
  throw (ExpressError (message_of err) (Some 500%Z)).

Definition authenticate (username password : string) : M obj :=
  foundUser <-
    try_catch
      (query (Select columns_with_password Users [Eq "username" 1] None)
         [VStr username])
      server_error ;;
  match foundUser with
  | user :: _ =>
      match prop user "password" with
      | VStr hashed =>
          if bcrypt_compare password hashed
          then ret (JS.delete user "password")
          else throw (UnauthorizedError "Invalid username/password")
      | _ => throw (BcryptError "data and hash must be strings")
      end
  | [] => throw (UnauthorizedError "Invalid username/password")
  end.

(** [register({ username, password, firstName, lastName, email, isAdmin })];
    the result is [result.rows[0]]. *)
Definition register (userData : obj) : M value :=
  let username := prop userData "username" in
  duplicateCheck <-
    try_catch
      (query (Select [("username", "username")] Users [Eq "username" 1] None)
         [username])
      server_error ;;
  match duplicateCheck with
  | _ :: _ =>
      throw (BadRequestError ("Duplicate username: " +:+ to_string username))
  | [] =>
      match prop userData "password" with
      | VStr password =>
          let hashedPassword := bcrypt_hash password BCRYPT_WORK_FACTOR in
          result <-
            try_catch
              (query
                 (Insert IntoUsers
                    ["username"; "password"; "first_name"; "last_name";
                     "email"; "is_admin"]
                    columns)
                 [username; VStr hashedPassword; prop userData "firstName";
                  prop userData "lastName"; prop userData "email";
                  prop userData "isAdmin"])
              server_error ;;
          ret (match result with
               | user :: _ => VObj user
               | [] => VUndefined
               end)
      | _ => throw (BcryptError "data and salt arguments required")
      end
  end.

Definition findAll : M (list obj) :=
  result <-
    try_catch (query (Select columns Users [] (Some "username")) [])
      server_error ;;
  ret result.

Definition get (username : string) : M obj :=
  userRes <-
    try_catch (query SelectUserLeftJoinApplications [VStr username])
      server_error ;;
  match userRes with
  | [] => throw (NotFoundError ("No username found: " +:+ username))
  | user :: _ =>
      let jobs := (λ row, prop row "jobId") <$> userRes in
      let filteredJobs := List.filter (λ job, negb (is_null job)) jobs in
      ret [("username", prop user "username");
           ("firstName", prop user "firstName");
           ("lastName", prop user "lastName");
           ("email", prop user "email");
           ("isAdmin", prop user "isAdmin");
           ("jobs", VArr filteredJobs)]
  end.

Definition update (username : string) (data : obj) : M obj :=
  data <-
    (if truthy (prop data "password") then
       match prop data "password" with
       | VStr password =>
           ret (assign data "password"
                  (VStr (bcrypt_hash password BCRYPT_WORK_FACTOR)))
       | _ => throw (BcryptError "data must be a string or Buffer")
       end
     else ret data) ;;
  u <- lift (sqlForPartialUpdate data
               {[ "firstName" := "first_name"; "lastName" := "last_name";
                  "isAdmin" := "is_admin" ]}) ;;
  let usernameVarIdx := length (values u) + 1 in
  result <-
    try_catch
      (query (Update Users (setCols u) (assignments u) "username"
                usernameVarIdx columns)
         (values u ++ [VStr username]))
      server_error ;;
  match result with
  | [] => throw (NotFoundError ("No user: " +:+ username))
  | user :: _ =>
      let user := JS.delete user "password" in
      userJobs <-
        try_catch
          (query (Select [("job_id", "jobId")] Applications
                    [Eq "username" 1] None)
             [prop user "username"])
          server_error ;;
      match userJobs with
      | [] => ret user
      | _ :: _ =>
          ret (assign user "jobs"
                 (VArr ((λ row, prop row "jobId") <$> userJobs)))
      end
  end.

Definition remove `{Db.ForeignKeys} `{Db.Constraints} (username : string)
    : Db.M unit :=
  result <~
    Db.try_catch
      (Db.query (Db.Delete Users [Eq "username" 1] [("username", "username")])
         [VStr username])
      (λ err, Db.throw (ExpressError (message_of err) (Some 500%Z))) ;;
  match result with
  | [] => Db.throw (NotFoundError ("No user: " +:+ username))
  | _ :: _ => Db.ret tt
  end.

End Model.

End User.

(** ** models/jobApplication.js *)

Module JobApplication.

Section Model.

Context `{Collation}.

Definition server_error {A} (err : error) : M A :=
  throw (ExpressError (message_of err) (Some 500%Z)).

Definition apply (username : option string) (jobId : option Z) : M obj :=
  match username, jobId with
  | Some username, Some jobId =>
      jobIdCheck <-
        try_catch (query (Select [("id", "id")] Jobs [Eq "id" 1] None)
                     [VNum jobId])
          server_error ;;
      match jobIdCheck with
      | [] => throw (NotFoundError "Job cannot be found.")
      | _ :: _ =>
          validUsernameIdCheck <-
            try_catch
              (query (Select [("username", "username")] Users
                        [Eq "username" 1] None)
                 [VStr username])
              server_error ;;
          match validUsernameIdCheck with
          | [] => throw (NotFoundError "Username cannot be found.")
          | _ :: _ =>
              jobApplicationCheck <-
                try_catch
                  (query (Select [("job_id", "job_id")] Applications
                            [Eq "username" 1; Eq "job_id" 2] None)
                     [VStr username; VNum jobId])
                  server_error ;;
              match jobApplicationCheck with
              | _ :: _ =>
                  throw (BadRequestError
                           "Job Application has already been submitted for this job.")
              | [] =>
                  jobInsertResult <-
                    try_catch
                      (query (Insert IntoApplications ["username"; "job_id"]
                                [("username", "username");
                                 ("job_id", "jobId")])
                         [VStr username; VNum jobId])
                      (λ err,
                         match err with
                         | DatabaseError "23505" _ =>
                             (* the message names [id], which is not bound *)
                             throw (ReferenceError "id is not defined")
                         | _ => server_error err
                         end) ;;
                  match jobInsertResult with
                  | jobApplication :: _ =>
                      ret [("applied", prop jobApplication "jobId")]
                  | [] =>
                      throw (TypeError
                               "Cannot read properties of undefined (reading 'jobId')")
                  end
              end
          end
      end
  | _, _ => throw (BadRequestError "Invalid input parameters.")
  end.

(** [remove(username, jobId)]; it returns nothing. *)
Definition remove `{Db.ForeignKeys} `{Db.Constraints} (username : option string)
    (jobId : option Z) : Db.M unit :=
  match username, jobId with
  | Some username, Some jobId =>
      jobApplicationbRemovalResult <~
        Db.try_catch
          (Db.query
             (Db.Delete Applications [Eq "job_id" 1; Eq "username" 2]
                [("job_id", "job_id")])
             [VNum jobId; VStr username])
          (λ err, Db.throw (NotFoundError (message_of err))) ;;
      match jobApplicationbRemovalResult with
      | [] =>
          Db.throw
            (NotFoundError
               ("No job aplication found for Job ID " +:+ pretty jobId
                +:+ " by username " +:+ username))
      | _ :: _ => Db.ret tt
      end
  | _, _ => Db.throw (BadRequestError "Invalid input parameters.")
  end.

End Model.

End JobApplication.

(** ** middleware/auth.js *)

Module Auth.

(** The payload of a token, as [createToken] signs it: [username] and
    [isAdmin: user.isAdmin || false], a boolean for the users of the
    database. *)
Record claims : Type := { username : string; isAdmin : bool }.

(** [jwt.verify(token, secret)]; [None] when it throws. *)
Class Jwt : Type := { jwt_verify : string → string → option claims }.

(** What the middleware reads of a request: [req.headers.authorization]
    and [req.params.username]. *)
Record request : Type := {
  authorization : option string;
  params_username : option string
}.

(** [res.locals.user] *)
Record locals : Type := { user : option claims }.

(** [next()] or [next(err)] *)
Inductive continuation : Type :=
| Next
| NextErr (err : error).

(** The white space and the line terminators of ECMAScript, which
    [String.prototype.trim] strips: TAB, LF, VT, FF, CR, SP, U+00A0,
    U+1680, U+2000 to U+200A, U+2028, U+2029, U+202F, U+205F, U+3000 and
    U+FEFF, each by the bytes of its encoding. *)
Definition white_space : list (list nat) :=
  [[9]; [10]; [11]; [12]; [13]; [32]; [194; 160]; [225; 154; 128];
   [226; 128; 128]; [226; 128; 129]; [226; 128; 130]; [226; 128; 131];
   [226; 128; 132]; [226; 128; 133]; [226; 128; 134]; [226; 128; 135];
   [226; 128; 136]; [226; 128; 137]; [226; 128; 138]; [226; 128; 168];
   [226; 128; 169]; [226; 128; 175]; [226; 129; 159]; [227; 128; 128];
   [239; 187; 191]].

Definition is_white_space (character : string) : bool :=
  bool_decide (Utf8.bytes character ∈ white_space).

(** The list without the elements of [p] it starts with. *)
Fixpoint drop_leading {A} (p : A → bool) (l : list A) : list A :=
  match l with
  | x :: l' => if p x then drop_leading p l' else l
  | [] => []
  end.

(** [s.trim()] *)
Definition trim (s : string) : string :=
  String.concat EmptyString
    (rev (drop_leading is_white_space
            (rev (drop_leading is_white_space (Utf8.characters s))))).

(** [s.replace(/^[Bb]earer /, "")] *)
Definition strip_bearer (s : string) : string :=
  if String.prefix "Bearer " s || String.prefix "bearer " s
  then String.substring 7 (String.length s - 7) s
  else s.

Section Middleware.

Context `{Config} `{Jwt}.

Definition authenticateJWT (req : request) (res : locals)
    : locals * continuation :=
  match authorization req with
  | Some authHeader =>
      if String.eqb authHeader EmptyString then (res, Next)
      else
        let token := trim (strip_bearer authHeader) in
        match jwt_verify token SECRET_KEY with
        | Some payload => ({| user := Some payload |}, Next)
        | None => (res, Next)          (* catch (err) { return next(); } *)
        end
  | None => (res, Next)
  end.

Definition ensureLoggedIn (req : request) (res : locals) : continuation :=
  match user res with
  | None => NextErr (UnauthorizedError "Unauthorized")
  | Some _ => Next
  end.

Definition onlyAdmin (req : request) (res : locals) : continuation :=
  match user res with
  | Some u => if isAdmin u then Next
              else NextErr (UnauthorizedError "Unauthorized")
  | None => NextErr (UnauthorizedError "Unauthorized")
  end.

Definition ensureCorrectUserOrAdmin (req : request) (res : locals)
    : continuation :=
  match user res with
  | Some u =>
      if isAdmin u
         || bool_decide (Some (username u) = params_username req)
      then Next
      else NextErr (UnauthorizedError "Unauthorized")
  | None => NextErr (UnauthorizedError "Unauthorized")
  end.

End Middleware.

End Auth.

(** ** helpers/tokens.js *)

Module Tokens.

(** [jwt.sign(payload, secret)], for a payload object. *)
Class Signer : Type := { jwt_sign : obj → string → string }.

Section Helper.

Context `{Config} `{Signer}.

(** [console.assert] only writes to the console. *)
Definition createToken (user : obj) : string :=
  let payload :=
    [("username", prop user "username");
     ("isAdmin",
      if truthy (prop user "isAdmin") then prop user "isAdmin"
      else VBool false)] in
  jwt_sign payload SECRET_KEY.

End Helper.

End Tokens.

(** ** app.js and routes/users.js: the two routes that validate no body *)

Module App.

Import Auth.




Section Routes.

Context `{Collation} `{Config} `{Bcrypt} `{Jwt}.





End Routes.

End App.

(** ** models/_testCommon.js: the data of the test suite

    The rows [commonBeforeAll] inserts, with the settings of a test run and
    stand-ins for the libraries: a byte-wise collation, a hash that tags
    the password, and a token per user. *)

Module TestCommon.

Import Auth.

Definition test_collation : Collation := {| collate := String.leb |}.

Definition test_config : Config :=
  {| SECRET_KEY := "secret-dev"; BCRYPT_WORK_FACTOR := 1 |}.

Definition test_bcrypt : Bcrypt :=
  {| bcrypt_hash password _ := "$2b$" +:+ password;
     bcrypt_compare password hashed := String.eqb ("$2b$" +:+ password) hashed |}.

Definition test_jwt : Jwt :=
  {| jwt_verify token secret :=
       if negb (String.eqb secret "secret-dev") then None
       else if String.eqb token "u1Token" then
         Some {| username := "u1"; isAdmin := false |}
       else if String.eqb token "u2Token" then
         Some {| username := "u2"; isAdmin := false |}
       else if String.eqb token "adminToken" then
         Some {| username := "admin"; isAdmin := true |}
       else None |}.

Definition test_company (handle name : string) (n : Z) (description : string)
    (logo : string) : company_row :=
  {| c_handle := handle; c_name := name; c_num_employees := Some n;
     c_description := description; c_logo_url := Some logo |}.

Definition test_user (username password first last email : string)
    (admin : bool) : user_row :=
  {| u_username := username;
     u_password := @bcrypt_hash test_bcrypt password 1;
     u_first_name := first; u_last_name := last; u_email := email;
     u_is_admin := admin |}.

(** The id of a test row. *)
Definition test_id (n : Z) : int4 :=
  default {| int4_val := 0; int4_ok := I |} (to_int4 n).

Definition test_job (id : Z) (title : string) (salary : Z) (equity : string)
    (company : string) : job_row :=
  {| j_id4 := test_id id; j_title := title; j_salary := Some salary;
     j_equity := Some equity; j_company_handle := company |}.

Definition test_application (username : string) (jobId : Z)
    : application_row :=
  {| app_username := username; app_job_id4 := test_id jobId |}.

Definition test_db : db :=
  {| companies :=
       [test_company "c1" "C1" 1 "Desc1" "http://c1.img";
        test_company "c2" "C2" 2 "Desc2" "http://c2.img";
        test_company "c3" "C3" 3 "Desc3" "http://c3.img"];
     jobs :=
       [test_job 1 "j1" 100000 "0.1" "c1";
        test_job 2 "j2" 200000 "0.2" "c2";
        test_job 3 "j3" 300000 "0" "c3"];
     users :=
       [test_user "u1" "password1" "U1F" "U1L" "u1@email.com" false;
        test_user "u2" "password2" "U2F" "U2L" "u2@email.com" false;
        test_user "a1" "password3" "A1F" "A1L" "a1@email.com" true];
     applications := [] |}.

Definition test_world : world := {| store := test_db; log := [] |}.

(** The world after [u1] has applied to the jobs 1 and 2. *)
Definition test_world_applied : world :=
  {| store :=
       set_applications test_db
         [test_application "u1" 1; test_application "u1" 2];
     log := [] |}.

(** A stand-in for the foreign keys: deletions cascade, from the companies
    to their jobs and from the jobs and the users to their applications. *)
Definition test_foreign_keys : Db.ForeignKeys :=
  {| Db.on_delete t _ d :=
       let jobs' :=
         match t with
         | Companies =>
             List.filter
               (λ j, bool_decide
                       (j_company_handle j ∈ c_handle <$> companies d))
               (jobs d)
         | _ => jobs d
         end in
       inr {| companies := companies d; jobs := jobs'; users := users d;
              applications :=
                List.filter
                  (λ a, bool_decide (app_username a ∈ u_username <$> users d)
                        && bool_decide (app_job_id a ∈ j_id <$> jobs'))
                  (applications d) |} |}.

(** A stand-in for the constraints: the name of a company is unique, a
    number of employees and a salary are not negative. *)
Definition test_constraints : Db.Constraints :=
  {| Db.admits_company rows r :=
       negb (bool_decide (c_name r ∈ c_name <$> rows))
       && match c_num_employees r with
          | Some n => (0 <=? n)%Z
          | None => true
          end;
     Db.admits_job _ r :=
       match j_salary r with Some n => (0 <=? n)%Z | None => true end |}.

(** The world of the other operations after [commonBeforeAll], which
    restarts the sequence at 1 and inserts three jobs. *)
Definition test_session : Db.world :=
  {| Db.store := test_db; Db.jobs_id_seq := 4; Db.log := [] |}.

Definition test_session_applied : Db.world :=
  {| Db.store := store test_world_applied; Db.jobs_id_seq := 4;
     Db.log := [] |}.

(** The tokens [_testCommon.js] creates: [u1Token], [u2Token], [adminToken]. *)
Definition test_signer : Tokens.Signer :=
  {| Tokens.jwt_sign payload _ :=
       to_string (prop payload "username") +:+ "Token" |}.

End TestCommon.

(** * The vocabulary of the properties *)

Import Company Job User JobApplication Auth TestCommon.

(** ** The partial-update builder *)

(** The fields the builder keeps: those whose value is not [undefined]. *)
Definition kept (data : obj) : obj :=
  List.filter (λ kv, negb (is_undefined kv.2)) data.





(** The column of a field: the name the mapping has for it when that name
    is not empty; for a field the mapping does not have, the text of the
    property of that name that every object inherits, when there is one
    (a field named [toString] or [constructor], say); the field's own
    name otherwise. *)
Definition column_name (jsToSql : gmap string string) (k : string) : string :=
  match jsToSql !! k with
  | Some c => if decide (c = EmptyString) then k else c
  | None =>
      match inherited k with
      | Some text => text
      | None => k
      end
  end.


(** What a field contributes to the statement: nothing when it is
    [undefined]; one assignment per defined entry when it is an object and
    a key of the mapping starts with the name of the field and a dot; one
    assignment otherwise. *)
Definition expansion (jsToSql : gmap string string) (kv : string * value)
    : list (string * value) :=
  match kv.2 with
  | VUndefined => []
  | VObj props =>
      if has_nested_mapping jsToSql kv.1
      then (λ e, (column_name jsToSql (kv.1 +:+ "." +:+ e.1), e.2))
             <$> kept props
      else [(column_name jsToSql kv.1, kv.2)]
  | _ => [(column_name jsToSql kv.1, kv.2)]
  end.

(** ** Worlds *)

(** The world after a statement has been sent and has failed. *)
Definition refused (w : world) (s : statement) (params : list value) : world :=
  {| store := store w;
     log := log w ++ [{| i_statement := s; i_params := params |}] |}.

(** ** The middleware *)

(** The token the middleware verifies for a header. *)
Definition bearer_token (header : string) : string :=
  trim (strip_bearer header).

(** The no-break space U+00A0 and the line separator U+2028. *)
Definition nbsp : string :=
  String (ascii_of_nat 194) (String (ascii_of_nat 160) EmptyString).

Definition line_separator : string :=
  String (ascii_of_nat 226)
    (String (ascii_of_nat 128) (String (ascii_of_nat 168) EmptyString)).

(** The guard calls [next(new UnauthorizedError())]. *)
Definition rejects (k : continuation) : Prop :=
  k = NextErr (UnauthorizedError "Unauthorized").



(** ** The entities of a database *)

Definition job_exists (d : db) (jobId : Z) : Prop :=
  jobId ∈ j_id <$> jobs d.

Definition user_exists (d : db) (username : string) : Prop :=
  username ∈ u_username <$> users d.

Definition has_applied (d : db) (username : string) (jobId : Z) : Prop :=
  (username, jobId) ∈ pkey <$> applications d.

(** The ids of the jobs a user has applied to, in the order of the
    applications. *)
Definition applied_jobs (d : db) (username : string) : list Z :=
  app_job_id
    <$> List.filter (λ a, String.eqb (app_username a) username)
          (applications d).

(** The first company, job and user of a key. *)
Definition find_company (d : db) (handle : string) : option company_row :=
  List.find (λ r, String.eqb (c_handle r) handle) (companies d).

Definition find_job (d : db) (id : Z) : option job_row :=
  List.find (λ r, (j_id r =? id)%Z) (jobs d).

Definition find_user (d : db) (username : string) : option user_row :=
  List.find (λ r, String.eqb (u_username r) username) (users d).

Definition company_exists (d : db) (handle : string) : Prop :=
  handle ∈ c_handle <$> companies d.

(** The applications without that of a user to a job. *)
Definition other_applications (d : db) (username : string) (jobId : Z)
    : list application_row :=
  List.filter (λ a, negb (bool_decide (pkey a = (username, jobId))))
    (applications d).

(** ** Returned records *)

(** A job in the list of the jobs of its company. *)
Definition job_entry (j : job_row) : obj :=
  [("id", VNum (j_id j)); ("title", VStr (j_title j));
   ("salary", from_option VNum VNull (j_salary j));
   ("equity", from_option VStr VNull (j_equity j))].

(** The jobs of a company, in the order of the table. *)
Definition jobs_of (d : db) (handle : string) : list job_row :=
  List.filter (λ j, String.eqb (j_company_handle j) handle) (jobs d).

(** A user as the operations return it, without the applications. *)
Definition user_object (r : user_row) : obj :=
  [("username", VStr (u_username r)); ("firstName", VStr (u_first_name r));
   ("lastName", VStr (u_last_name r)); ("email", VStr (u_email r));
   ("isAdmin", VBool (u_is_admin r))].

(** A user as [User.get] returns it in a database. *)
Definition user_with_jobs (d : db) (r : user_row) : obj :=
  user_object r
  ++ [("jobs", VArr (VNum <$> applied_jobs d (u_username r)))].

(** The objects the User operations return in a world. *)
Inductive returns_user `{Collation} `{Config} `{Bcrypt} (w : world)
    : obj → Prop :=
| by_authenticate username password user w' :
    authenticate username password w = (inr user, w') →
    returns_user w user
| by_register userData user w' :
    register userData w = (inr (VObj user), w') →
    returns_user w user
| by_get username user w' :
    get username w = (inr user, w') →
    returns_user w user
| by_findAll users user w' :
    findAll w = (inr users, w') → user ∈ users →
    returns_user w user
| by_update username data user w' :
    update username data w = (inr user, w') →
    returns_user w user.

(** The rows of a statement have the names of its select list. *)
Definition names_of (s : statement) : option (list string) :=
  match s with
  | Select cols _ _ _ | Update _ _ _ _ _ cols | Insert _ _ cols => Some cols.*2
  | SelectUserLeftJoinApplications => None
  end.

(** ** Filters *)

(** [needle] occurs in [hay]. *)
Fixpoint contains (needle hay : string) : bool :=
  String.prefix needle hay
  || match hay with
     | EmptyString => false
     | String _ hay' => contains needle hay'
     end.

(** [needle] occurs in [hay] when the case of the ASCII letters is
    ignored. *)
Definition contains_ignoring_case (needle hay : string) : bool :=
  contains (lower needle) (lower hay).

Definition is_wildcard (c : ascii) : bool :=
  Ascii.eqb c "%" || Ascii.eqb c "_" || Ascii.eqb c "\".

(** No character of [s] is special in a LIKE pattern. *)
Fixpoint plain (s : string) : bool :=
  match s with
  | EmptyString => true
  | String c s' => negb (is_wildcard c) && plain s'
  end.





(** A company as [findAll] returns it. *)
Definition company_object (c : company_row) : obj :=
  [("handle", VStr (c_handle c)); ("name", VStr (c_name c));
   ("description", VStr (c_description c));
   ("numEmployees", from_option VNum VNull (c_num_employees c));
   ("logoUrl", from_option VStr VNull (c_logo_url c))].

(** A company as [Company.get] returns it in a database. *)
Definition company_with_jobs (d : db) (r : company_row) : obj :=
  company_object r
  ++ [("jobs", VArr (VObj <$> (job_entry <$> jobs_of d (c_handle r))))].





(** A job as [findAll] returns it. *)
Definition job_object (j : job_row) : obj :=
  [("id", VNum (j_id j)); ("title", VStr (j_title j));
   ("salary", from_option VNum VNull (j_salary j));
   ("equity", from_option VStr VNull (j_equity j));
   ("companyHandle", VStr (j_company_handle j))].

(** ** The update of a user *)

(** The mapping [User.update] passes to the builder. *)
Definition user_columns : gmap string string :=
  {[ "firstName" := "first_name"; "lastName" := "last_name";
     "isAdmin" := "is_admin" ]}.





(** The second part of [User.update]: from the call of the builder on. *)
Definition update_stored `{Collation} (username : string) (data : obj)
    : M obj :=
  u <- lift (sqlForPartialUpdate data user_columns) ;;
  let usernameVarIdx := length (values u) + 1 in
  result <-
    try_catch
      (query (Update Users (setCols u) (assignments u) "username"
                usernameVarIdx User.columns)
         (values u ++ [VStr username]))
      User.server_error ;;
  match result with
  | [] => throw (NotFoundError ("No user: " +:+ username))
  | user :: _ =>
      let user := JS.delete user "password" in
      userJobs <-
        try_catch
          (query (Select [("job_id", "jobId")] Applications
                    [Eq "username" 1] None)
             [prop user "username"])
          User.server_error ;;
      match userJobs with
      | [] => ret user
      | _ :: _ =>
          ret (assign user "jobs"
                 (VArr ((λ row, prop row "jobId") <$> userJobs)))
      end
  end.

(** * Properties *)

(** A closed decidable proposition, by evaluating its decision. *)
Ltac by_evaluation := apply (bool_decide_unpack _); vm_compute; exact I.

(** ** The model on the data of the test suite *)

Example where_clause_of_three_filters :
  render_where [Ge "num_employees" 1; Le "num_employees" 2; LowerLike "name" 3]
  = " WHERE num_employees >= $1 AND num_employees <= $2 AND LOWER(name) LIKE '%' || LOWER($3) || '%'".
Proof. reflexivity. Qed.

Example like_wildcards :
  like "%_%" "C1" = true ∧ like "%c%" "C1" = false ∧ like "%c%" (lower "C1") = true
  ∧ like "%100\%%" "100%" = true ∧ like "%100\%%" "1000" = false.
Proof. repeat split; reflexivity. Qed.

Example positive_numerals :
  positive_numeral "0.1" = true ∧ positive_numeral "0" = false
  ∧ positive_numeral "0.000" = false ∧ positive_numeral "-0.5" = false.
Proof. repeat split; reflexivity. Qed.

Example findAll_three_filters :
  fst (@Company.findAll test_collation
         {| minEmployees := Some 2%Z; maxEmployees := Some 3%Z;
            nameLike := Some "c" |} test_world)
  = inr [company_object (test_company "c2" "C2" 2 "Desc2" "http://c2.img");
         company_object (test_company "c3" "C3" 3 "Desc3" "http://c3.img")].
Proof. vm_compute. reflexivity. Qed.

Example findAll_hasEquity :
  fst (@Job.findAll test_collation
         {| minSalary := None; hasEquity := VBool true; title := None;
            titleLike := None |} test_world)
  = inr [job_object (test_job 1 "j1" 100000 "0.1" "c1");
         job_object (test_job 2 "j2" 200000 "0.2" "c2")].
Proof. vm_compute. reflexivity. Qed.

Example authenticate_u1 :
  fst (@authenticate test_collation test_bcrypt "u1" "password1" test_world)
  = inr [("username", VStr "u1"); ("firstName", VStr "U1F");
         ("lastName", VStr "U1L"); ("email", VStr "u1@email.com");
         ("isAdmin", VBool false)]
  ∧ fst (@authenticate test_collation test_bcrypt "u1" "wrong" test_world)
    = inl (UnauthorizedError "Invalid username/password").
Proof. split; vm_compute; reflexivity. Qed.

Example get_u1_after_applying :
  fst (@get test_collation "u1" test_world_applied)
  = inr [("username", VStr "u1"); ("firstName", VStr "U1F");
         ("lastName", VStr "U1L"); ("email", VStr "u1@email.com");
         ("isAdmin", VBool false); ("jobs", VArr [VNum 1; VNum 2])]
  ∧ fst (@get test_collation "u2" test_world_applied)
    = inr [("username", VStr "u2"); ("firstName", VStr "U2F");
           ("lastName", VStr "U2L"); ("email", VStr "u2@email.com");
           ("isAdmin", VBool false); ("jobs", VArr [])].
Proof. split; vm_compute; reflexivity. Qed.

(** ** The partial-update builder *)

Example sql_two_fields :
  sqlForPartialUpdate [("firstName", VStr "Aliya"); ("age", VNum 32)]
    {[ "firstName" := "first_name" ]}
  = inr {| setCols := dq +:+ "first_name" +:+ dq +:+ "=$1, "
                      +:+ dq +:+ "age" +:+ dq +:+ "=$2";
           values := [VStr "Aliya"; VNum 32];
           assignments := [ {| a_column := "first_name"; a_index := 1 |};
                            {| a_column := "age"; a_index := 2 |} ] |}.
Proof. reflexivity. Qed.

(** A field named like a property that every object inherits, and that
    the mapping does not have, gets the text of that property as its
    column; the mapping's own entry comes first. *)
Example sql_inherited_names :
  (∃ u, sqlForPartialUpdate
          [("toString", VNum 1); ("__proto__", VNum 2); ("age", VNum 3)] ∅
        = inr u
        ∧ setCols u
          = dq +:+ "function toString() { [native code] }" +:+ dq +:+ "=$1, "
            +:+ dq +:+ "[object Object]" +:+ dq +:+ "=$2, "
            +:+ dq +:+ "age" +:+ dq +:+ "=$3")
  ∧ (∃ u, sqlForPartialUpdate [("toString", VNum 1)]
            {[ "toString" := "to_string" ]} = inr u
          ∧ setCols u = dq +:+ "to_string" +:+ dq +:+ "=$1").
Proof. split; eexists; split; reflexivity. Qed.

Lemma mapped_column_name jsToSql k : mapped jsToSql k = column_name jsToSql k.
Proof.
  unfold mapped, column_name.
  destruct (jsToSql !! k) as [c|]; [|by destruct (inherited k)].
  destruct (String.eqb_spec c EmptyString), (decide (c = EmptyString)); done.
Qed.


Lemma prop_unique (data : obj) k v :
  NoDup (keys data) → (k, v) ∈ data → prop data k = v.
Proof.
  unfold keys. induction data as [|[k' v'] data IH]; intros Hnd Hin.
  - by apply elem_of_nil in Hin.
  - apply NoDup_cons in Hnd as [Hk' Hnd]. simpl.
    apply elem_of_cons in Hin as [[= <- <-]|Hin].
    + by rewrite String.eqb_refl.
    + destruct (String.eqb_spec k' k) as [->|]; [|by apply IH].
      exfalso. apply Hk'. apply list_elem_of_fmap. by exists (k, v).
Qed.

Lemma prop_all_undefined (data : obj) k :
  Forall (λ kv, kv.2 = VUndefined) data → prop data k = VUndefined.
Proof.
  induction 1 as [|[k' v'] data Hv _ IH]; [done|].
  simpl in *. subst. by destruct (String.eqb k' k).
Qed.






(** ** Updates without data *)

Lemma fold_visit_all_undefined data jsToSql (l : list string) acc :
  Forall (λ kv, kv.2 = VUndefined) data →
  fold_left (visit data jsToSql) l acc = acc.
Proof.
  intros Hu. induction l as [|k l IH]; [done|].
  cbn [fold_left]. unfold visit at 2.
  by rewrite (prop_all_undefined _ _ Hu).
Qed.

(** C10. For a non-empty update object all of whose values are
    [undefined], the builder does not raise the "No data" error: it
    returns the empty fragment and no values. Each entity update called
    with such an object sends its UPDATE statement with an empty SET
    clause to the database, where it fails; the error is not a
    BadRequest. *)
Theorem update_with_only_undefined_fields `{Collation} `{Config} `{Bcrypt}
    (data : obj) (jsToSql : gmap string string) (w : world)
    (handle username : string) (id : Z) :
  data ≠ [] →
  Forall (λ kv, kv.2 = VUndefined) data →
  sqlForPartialUpdate data jsToSql
  = inr {| setCols := EmptyString; values := []; assignments := [] |}
  ∧ Company.update handle data w
    = (inl (ExpressError "syntax error at or near WHERE" None),
       refused w (Update Companies EmptyString [] "handle" 1 Company.columns)
         [VStr handle])
  ∧ Job.update id data w
    = (inl (DatabaseError "42601" "syntax error at or near WHERE"),
       refused w (Update Jobs EmptyString [] "id" 1 Job.columns) [VNum id])
  ∧ User.update username data w
    = (inl (ExpressError "syntax error at or near WHERE" (Some 500%Z)),
       refused w (Update Users EmptyString [] "username" 1 User.columns)
         [VStr username]).
Proof.
  intros Hne Hu.
  assert (Hsql : ∀ js, sqlForPartialUpdate data js
            = inr {| setCols := EmptyString; values := []; assignments := [] |}).
  { intros js. unfold sqlForPartialUpdate. destruct data as [|kv data]; [done|].
    change (length (keys (kv :: data)) =? 0)%nat with false. cbn iota.
    by rewrite fold_visit_all_undefined. }
  split; [apply Hsql|].
  unfold Company.update, Job.update, User.update, bind, lift.
  rewrite (prop_all_undefined _ _ Hu). cbn [truthy]. unfold ret.
  rewrite !Hsql. done.
Qed.

Lemma update_with_only_undefined_fields_witness :
  sqlForPartialUpdate [("name", VUndefined)] ∅
  = inr {| setCols := EmptyString; values := []; assignments := [] |}
  ∧ @Company.update test_collation "c1" [("name", VUndefined)] test_world
    = (inl (ExpressError "syntax error at or near WHERE" None),
       refused test_world
         (Update Companies EmptyString [] "handle" 1 Company.columns)
         [VStr "c1"])
  ∧ @Job.update test_collation 1 [("name", VUndefined)] test_world
    = (inl (DatabaseError "42601" "syntax error at or near WHERE"),
       refused test_world (Update Jobs EmptyString [] "id" 1 Job.columns)
         [VNum 1])
  ∧ @User.update test_collation test_config test_bcrypt "u1"
      [("name", VUndefined)] test_world
    = (inl (ExpressError "syntax error at or near WHERE" (Some 500%Z)),
       refused test_world
         (Update Users EmptyString [] "username" 1 User.columns)
         [VStr "u1"]).
Proof.
  apply (@update_with_only_undefined_fields test_collation test_config
           test_bcrypt [("name", VUndefined)] ∅ test_world "c1" "u1" 1).
  - discriminate.
  - repeat constructor.
Defined.

(** C2. Each entity update called with an empty data object raises the
    BadRequest error "No data", and leaves the world as it was: no
    statement is sent and the database is unchanged. *)
Theorem update_without_data `{Collation} `{Config} `{Bcrypt}
    (w : world) (handle username : string) (id : Z) :
  Company.update handle [] w = (inl (BadRequestError "No data"), w)
  ∧ Job.update id [] w = (inl (BadRequestError "No data"), w)
  ∧ User.update username [] w = (inl (BadRequestError "No data"), w).
Proof.
  assert (Hno : ∀ jsToSql,
            sqlForPartialUpdate [] jsToSql = inl (BadRequestError "No data"))
    by done.
  unfold Company.update, Job.update, User.update, bind, lift.
  cbn [prop truthy]. unfold ret. rewrite !Hno. done.
Qed.

(** ** The authentication middleware *)

(** The white space around a token is stripped, also when it is not
    ASCII; the white space inside it is kept. *)
Example bearer_token_white_space :
  bearer_token ("Bearer  u1Token" +:+ nbsp) = "u1Token"
  ∧ bearer_token ("bearer " +:+ line_separator +:+ "u1" +:+ nbsp +:+ "Token "
                  +:+ line_separator)
    = "u1" +:+ nbsp +:+ "Token"
  ∧ bearer_token ("BEARER u1Token") = "BEARER u1Token"
  ∧ bearer_token "Bearer " = EmptyString.
Proof. repeat split; reflexivity. Qed.

(** C4. [authenticateJWT] always continues without an error. When the
    header is missing or empty, or its token does not verify against the
    server secret, the response locals are left as they were, exactly as
    for a request without the header; when the token verifies, the decoded
    claims are attached; and claims are attached in no other case. *)
Theorem authenticateJWT_fails_open `{Config} `{Jwt}
    (req : request) (res : locals) :
  snd (authenticateJWT req res) = Next
  ∧ (∀ h c, authorization req = Some h → h ≠ EmptyString →
       jwt_verify (bearer_token h) SECRET_KEY = Some c →
       fst (authenticateJWT req res) = {| user := Some c |})
  ∧ ((∀ h, authorization req = Some h →
        h = EmptyString ∨ jwt_verify (bearer_token h) SECRET_KEY = None) →
     authenticateJWT req res = (res, Next)
     ∧ authenticateJWT req res
       = authenticateJWT {| authorization := None;
                            params_username := params_username req |} res)
  ∧ (∀ c, user (fst (authenticateJWT req res)) = Some c →
       user res = Some c
       ∨ ∃ h, authorization req = Some h ∧ h ≠ EmptyString
              ∧ jwt_verify (bearer_token h) SECRET_KEY = Some c).
Proof.
  unfold authenticateJWT, bearer_token.
  destruct (authorization req) as [h|] eqn:Hh; cbn [authorization].
  2: { split_and!; try done; intros; simplify_eq; auto. }
  destruct (String.eqb_spec h EmptyString) as [->|Hne].
  { split_and!; try done; intros; simplify_eq; auto. }
  destruct (jwt_verify (trim (strip_bearer h)) SECRET_KEY) as [c|] eqn:Hv.
  - split_and!; [done| | |].
    + intros h' c' [= <-] _. rewrite Hv. by intros [= <-].
    + intros Hbad. destruct (Hbad h eq_refl) as [->|Hn]; [done|].
      congruence.
    + cbn. intros c' [= <-]. right. by exists h.
  - split_and!; [done| |done|].
    + intros h' c' [= <-] _. by rewrite Hv.
    + cbn. intros c' Hc. by left.
Qed.

Lemma authenticateJWT_fails_open_witness :
  fst (@authenticateJWT test_config test_jwt
         {| authorization := Some "Bearer u1Token"; params_username := None |}
         {| user := None |})
  = {| user := Some {| username := "u1"; isAdmin := false |} |}
  ∧ fst (@authenticateJWT test_config test_jwt
           {| authorization := Some ("Bearer u1Token" +:+ nbsp);
              params_username := None |}
           {| user := None |})
    = {| user := Some {| username := "u1"; isAdmin := false |} |}
  ∧ @authenticateJWT test_config test_jwt
      {| authorization := Some "Bearer garbage"; params_username := None |}
      {| user := None |}
    = ({| user := None |}, Next).
Proof.
  split; [|split].
  - apply (@authenticateJWT_fails_open test_config test_jwt
             {| authorization := Some "Bearer u1Token";
                params_username := None |}
             {| user := None |}) with (h := "Bearer u1Token");
      [reflexivity | discriminate | reflexivity].
  - apply (@authenticateJWT_fails_open test_config test_jwt
             {| authorization := Some ("Bearer u1Token" +:+ nbsp);
                params_username := None |}
             {| user := None |}) with (h := "Bearer u1Token" +:+ nbsp);
      [reflexivity | discriminate | reflexivity].
  - apply (@authenticateJWT_fails_open test_config test_jwt
             {| authorization := Some "Bearer garbage";
                params_username := None |}
             {| user := None |}).
    intros h [= <-]. right. reflexivity.
Defined.

(** C5. [ensureLoggedIn] raises the authorization error exactly when no
    claims are attached; [onlyAdmin] exactly when no claims are attached
    or [isAdmin] is not true; [ensureCorrectUserOrAdmin] exactly when no
    claims are attached, or [isAdmin] is false and the username of the
    claims differs from the username of the route. A guard that does not
    raise continues with [next()]. *)
Theorem guards_decide (req : request) (res : locals) :
  (rejects (ensureLoggedIn req res) ↔ user res = None)
  ∧ (rejects (onlyAdmin req res)
     ↔ user res = None ∨ ∃ c, user res = Some c ∧ isAdmin c ≠ true)
  ∧ (rejects (ensureCorrectUserOrAdmin req res)
     ↔ user res = None
       ∨ ∃ c, user res = Some c ∧ isAdmin c = false
              ∧ Some (username c) ≠ params_username req)
  ∧ (¬ rejects (ensureLoggedIn req res) → ensureLoggedIn req res = Next)
  ∧ (¬ rejects (onlyAdmin req res) → onlyAdmin req res = Next)
  ∧ (¬ rejects (ensureCorrectUserOrAdmin req res) →
     ensureCorrectUserOrAdmin req res = Next).
Proof.
  unfold rejects, ensureLoggedIn, onlyAdmin, ensureCorrectUserOrAdmin.
  destruct (user res) as [[name admin]|]; cbn [username isAdmin].
  2: { split_and!; try done; split; auto. }
  destruct admin; cbn [orb].
  - split_and!; try done; split; try done.
    + intros [|(c & [= <-] & Hc)]; done.
    + intros [|(c & [= <-] & Hc & _)]; done.
  - case_bool_decide as Heq.
    + split_and!; try done; split; try done.
      * intros _. right. by eexists.
      * intros [|(c & [= <-] & _ & Hc)]; done.
    + split_and!; try done; try (intros Hn; by destruct Hn); split; try done.
      * intros _. right. by eexists.
      * intros _. right. by eexists.
Qed.

Lemma guards_decide_witness :
  ensureCorrectUserOrAdmin
    {| authorization := None; params_username := Some "u2" |}
    {| user := Some {| username := "u1"; isAdmin := false |} |}
  = NextErr (UnauthorizedError "Unauthorized")
  ∧ onlyAdmin {| authorization := None; params_username := None |}
      {| user := Some {| username := "a1"; isAdmin := true |} |}
    = Next.
Proof.
  split.
  - apply (guards_decide
             {| authorization := None; params_username := Some "u2" |}
             {| user := Some {| username := "u1"; isAdmin := false |} |}).
    right. eexists. split; [reflexivity|]. split; [reflexivity|discriminate].
  - apply (guards_decide
             {| authorization := None; params_username := None |}
             {| user := Some {| username := "a1"; isAdmin := true |} |}).
    vm_compute. discriminate.
Defined.

(** ** Applications *)

Lemma filter_nil {A} (p : A → bool) (l : list A) :
  List.filter p l = [] ↔ ∀ x, x ∈ l → p x = false.
Proof.
  induction l as [|a l IH]; simpl.
  - split; [|done]. intros _ x Hx. by apply elem_of_nil in Hx.
  - destruct (p a) eqn:Ha; split.
    + done.
    + intros Hall. specialize (Hall a). rewrite Ha in Hall.
      discriminate Hall. left.
    + intros Hnil x [->|Hx]%elem_of_cons; [done|]. by apply IH.
    + intros Hall. apply IH. intros x Hx. apply Hall. by right.
Qed.

Lemma no_job_rows (d : db) (jobId : Z) :
  List.filter (λ r, (j_id r =? jobId)%Z && true) (jobs d) = []
  ↔ ¬ job_exists d jobId.
Proof.
  rewrite filter_nil. unfold job_exists. rewrite list_elem_of_fmap. split.
  - intros Hall (r & -> & Hr). specialize (Hall r Hr).
    rewrite Z.eqb_refl in Hall. done.
  - intros Hn r Hr. rewrite andb_true_r. apply Z.eqb_neq. intros <-.
    apply Hn. by exists r.
Qed.

Lemma no_user_rows (d : db) (username : string) :
  List.filter (λ r, (u_username r =? username)%string && true) (users d) = []
  ↔ ¬ user_exists d username.
Proof.
  rewrite filter_nil. unfold user_exists. rewrite list_elem_of_fmap. split.
  - intros Hall (r & -> & Hr). specialize (Hall r Hr).
    rewrite String.eqb_refl in Hall. done.
  - intros Hn r Hr. rewrite andb_true_r. apply String.eqb_neq. intros <-.
    apply Hn. by exists r.
Qed.

Lemma no_application_rows (d : db) (username : string) (jobId : Z) :
  List.filter
    (λ r, (app_username r =? username)%string
          && ((app_job_id r =? jobId)%Z && true))
    (applications d) = []
  ↔ ¬ has_applied d username jobId.
Proof.
  rewrite filter_nil. unfold has_applied. rewrite list_elem_of_fmap. split.
  - intros Hall (r & [= -> ->] & Hr). specialize (Hall r Hr).
    rewrite String.eqb_refl, Z.eqb_refl in Hall. done.
  - intros Hn r Hr. rewrite andb_true_r. apply andb_false_iff.
    destruct (String.eqb_spec (app_username r) username) as [<-|]; [|by left].
    right. apply Z.eqb_neq. intros <-. apply Hn. by exists r.
Qed.

(** The ids of the stored jobs and applications are of the type
    INTEGER, and an integer of this type is the id of a row [to_int4]
    builds. *)
Lemma in_int4_true (i : int4) : in_int4 i = true.
Proof. apply Is_true_true_1, int4_ok. Qed.

Lemma to_int4_in_range (n : Z) :
  in_int4 n = true → ∃ i, to_int4 n = Some i ∧ int4_val i = n.
Proof.
  intros Hn. unfold to_int4. destruct (decide _) as [ok|Hno].
  - by eexists.
  - by apply Is_true_true_2 in Hn.
Qed.

Lemma to_int4_out_of_range (n : Z) : in_int4 n = false → to_int4 n = None.
Proof.
  intros Hn. unfold to_int4. destruct (decide _) as [ok|Hno]; [|done].
  exfalso. apply Is_true_true_1 in ok. congruence.
Qed.

Lemma to_int4_val (i : int4) : to_int4 i = Some i.
Proof.
  destruct i as [n ok]. unfold to_int4. cbn.
  destruct (decide _) as [ok'|Hno]; [|done].
  f_equal. f_equal. apply proof_irrel.
Qed.

Lemma job_exists_in_range (d : db) (jobId : Z) :
  job_exists d jobId → in_int4 jobId = true.
Proof.
  unfold job_exists. intros (r & -> & _)%list_elem_of_fmap.
  apply in_int4_true.
Qed.

Lemma has_applied_in_range (d : db) (username : string) (jobId : Z) :
  has_applied d username jobId → in_int4 jobId = true.
Proof.
  unfold has_applied. intros (r & [= _ ->] & _)%list_elem_of_fmap.
  apply in_int4_true.
Qed.

(** What [apply] does for a job and a user that are stored, when the user
    has not applied to the job. *)
Lemma apply_adds `{Collation} (w : world) (username : string) (jobId : Z) :
  job_exists (store w) jobId →
  user_exists (store w) username →
  ¬ has_applied (store w) username jobId →
  fst (apply (Some username) (Some jobId) w) = inr [("applied", VNum jobId)]
  ∧ ∃ a, app_username a = username ∧ app_job_id a = jobId
         ∧ store (snd (apply (Some username) (Some jobId) w))
           = set_applications (store w) (applications (store w) ++ [a]).
Proof.
  intros Hj Hu Ha. pose proof (job_exists_in_range _ _ Hj) as Hrange.
  destruct (to_int4_in_range _ Hrange) as (i & Hi & Hval).
  unfold apply, bind, try_catch, query. cbn. rewrite ?Hrange. cbn.
  destruct (List.filter _ (jobs _)) eqn:Ej.
  { by apply no_job_rows in Ej. }
  cbn. destruct (List.filter _ (users _)) eqn:Eu.
  { by apply no_user_rows in Eu. }
  cbn. rewrite ?Hrange. cbn.
  pose proof (proj2 (no_application_rows _ _ _) Ha) as Ea.
  rewrite Ea. cbn. rewrite Hi. cbn.
  rewrite bool_decide_eq_false_2.
  - cbn. unfold app_job_id at 1. cbn. rewrite Hval. split; [done|].
    eexists. split_and!; [| |reflexivity]; [done|exact Hval].
  - unfold has_applied in Ha. cbn. unfold app_job_id. cbn. by rewrite Hval.
Qed.




(** ** Returned user records *)

Lemma has_delete (o : obj) (k : string) : has (JS.delete o k) k = false.
Proof.
  unfold has, keys, JS.delete. induction o as [|[k' v] o IH]; [done|].
  cbn [List.filter fst]. destruct (String.eqb_spec k' k) as [->|Hne]; cbn.
  - done.
  - rewrite IH. apply not_eq_sym, String.eqb_neq in Hne. by rewrite Hne.
Qed.

Lemma has_assign_ne (o : obj) (k k' : string) (v : value) :
  k ≠ k' → has (assign o k v) k' = has o k'.
Proof.
  intros Hne. unfold has, keys. induction o as [|[k0 v0] o IH]; cbn.
  - apply not_eq_sym, String.eqb_neq in Hne. by rewrite Hne.
  - destruct (String.eqb_spec k0 k) as [->|]; cbn; [done|]. by rewrite IH.
Qed.

Lemma keys_project {R} `{Relation R} (cols : select_list) (r : R) :
  keys (project cols r) = cols.*2.
Proof.
  unfold keys, project. rewrite <- list_fmap_compose. done.
Qed.

Lemma bind_returns {A B} (m : M A) (k : A → M B) (w w' : world) (b : B) :
  bind m k w = (inr b, w') → ∃ a w1, m w = (inr a, w1) ∧ k a w1 = (inr b, w').
Proof.
  unfold bind. destruct (m w) as [[e|a] w1]; [done|]. eauto.
Qed.

Lemma server_error_caught {A} (m : M A) (w w' : world) (a : A) :
  try_catch m User.server_error w = (inr a, w') → m w = (inr a, w').
Proof.
  unfold try_catch. destruct (m w) as [[e|a'] w1]; [done|]. done.
Qed.

Lemma query_returns `{Collation} (s : statement) (params : list value)
    (w w' : world) (rows : list obj) :
  query s params w = (inr rows, w') →
  exec s params (store w) = inr (rows, store w').
Proof.
  unfold query. destruct (exec s params (store w)) as [e|[rows' d]]; [done|].
  by intros [= <- <-].
Qed.

Lemma exec_names `{Collation} (s : statement) (params : list value)
    (d d' : db) (rows : list obj) (names : list string) :
  exec s params d = inr (rows, d') →
  names_of s = Some names →
  Forall (λ o, keys o = names) rows.
Proof.
  assert (Hp : ∀ R (HR : Relation R) cols (l : list R),
            Forall (λ o, keys o = cols.*2) (project cols <$> l)).
  { intros. apply Forall_fmap, Forall_forall. intros r _. cbn.
    apply keys_project. }
  destruct s as [cols t conds order| |t sc set kc ki cols|t columns cols];
    cbn [names_of]; intros He [= <-]; cbn [exec] in He.
  - destruct t; unfold reading, Pg.select in He;
      repeat (case_match; simplify_eq); apply Hp.
  - destruct t; unfold writing, Pg.update in He;
      repeat (case_match; simplify_eq); apply Hp.
  - destruct t; unfold writing, Pg.insert in He;
      repeat (case_match; simplify_eq); apply (Hp _ _ _ [_]).
Qed.

Lemma server_query_names `{Collation} (s : statement) (params : list value)
    (w w' : world) (rows : list obj) (names : list string) :
  try_catch (query s params) User.server_error w = (inr rows, w') →
  names_of s = Some names →
  Forall (λ o, keys o = names) rows.
Proof.
  intros Hq%server_error_caught%query_returns Hn. by eapply exec_names.
Qed.

(** C7. No object returned by [authenticate], [register], [get],
    [findAll] or [update] of the User model has a [password] field; this
    covers the object an update that changes the password returns. *)
Theorem password_never_returned `{Collation} `{Config} `{Bcrypt}
    (w : world) (user : obj) :
  returns_user w user → has user "password" = false.
Proof.
  destruct 1 as [username password user w' Hr|userData user w' Hr
                |username user w' Hr|users user w' Hr Hin
                |username data user w' Hr].
  - apply bind_returns in Hr as (rows & w1 & _ & Hr).
    destruct rows as [|row rows]; [done|].
    destruct (prop row "password"); try done.
    destruct (bcrypt_compare _ _); [|done].
    injection Hr as <- _. apply has_delete.
  - apply bind_returns in Hr as (dup & w1 & _ & Hr).
    destruct dup; [|done]. destruct (prop userData "password"); try done.
    apply bind_returns in Hr as (rows & w2 & Hq & Hr).
    eapply server_query_names in Hq; [|done].
    destruct rows as [|row rows]; [done|]. injection Hr as <- _.
    apply Forall_cons in Hq as [Hk _]. unfold has. by rewrite Hk.
  - apply bind_returns in Hr as (rows & w1 & _ & Hr).
    destruct rows as [|row rows]; [done|]. by injection Hr as <- _.
  - apply bind_returns in Hr as (rows & w1 & Hq & Hr).
    eapply server_query_names in Hq; [|done].
    injection Hr as <- _. eapply Forall_forall in Hq; [|done].
    unfold has. by rewrite Hq.
  - apply bind_returns in Hr as (data' & w1 & _ & Hr).
    apply bind_returns in Hr as (u & w2 & _ & Hr).
    apply bind_returns in Hr as (rows & w3 & _ & Hr).
    destruct rows as [|row rows]; [done|].
    apply bind_returns in Hr as (userJobs & w4 & _ & Hr).
    destruct userJobs; injection Hr as <- _.
    + apply has_delete.
    + rewrite has_assign_ne by done. apply has_delete.
Qed.

Lemma password_never_returned_witness :
  has [("username", VStr "u1"); ("firstName", VStr "U1F");
       ("lastName", VStr "U1L"); ("email", VStr "u1@email.com");
       ("isAdmin", VBool false)] "password" = false.
Proof.
  apply (@password_never_returned test_collation test_config test_bcrypt
           test_world).
  eapply (@by_update test_collation test_config test_bcrypt test_world "u1"
            [("password", VStr "new")]).
  vm_compute. reflexivity.
Defined.

(** ** Filters *)

Lemma prefix_spec (s1 s2 : string) :
  String.prefix s1 s2 = true ↔ ∃ post, s2 = s1 +:+ post.
Proof.
  revert s2. induction s1 as [|a s1 IH]; intros s2; cbn.
  - destruct s2; split; eauto.
  - destruct s2 as [|b s2]; cbn.
    + split; [done|]. by intros [post Hp].
    + destruct (Ascii.ascii_dec a b) as [->|Hne].
      * rewrite IH. split; intros [post Hp]; exists post.
        -- by rewrite Hp.
        -- by injection Hp.
      * split; [done|]. intros [post [= Hab _]]. done.
Qed.

Lemma contains_spec (needle hay : string) :
  contains needle hay = true ↔ ∃ pre post, hay = pre +:+ needle +:+ post.
Proof.
  induction hay as [|c hay IH]; cbn [contains].
  - rewrite orb_false_r, prefix_spec. split.
    + intros [post Hp]. by exists EmptyString, post.
    + intros (pre & post & Hp). exists post.
      destruct pre; [done|discriminate].
  - rewrite orb_true_iff, prefix_spec, IH. split.
    + intros [[post Hp]|(pre & post & Hp)].
      * by exists EmptyString, post.
      * exists (String c pre), post. cbn. by rewrite Hp.
    + intros ([|c' pre] & post & Hp).
      * left. by exists post.
      * right. injection Hp as -> Hp. by exists pre, post.
Qed.

Lemma lower_char_wildcard (c : ascii) :
  is_wildcard (lower_char c) = is_wildcard c.
Proof.
  destruct c as [[] [] [] [] [] [] [] []]; reflexivity.
Qed.

Lemma plain_lower (s : string) : plain (lower s) = plain s.
Proof.
  induction s as [|c s IH]; [done|]. cbn. by rewrite lower_char_wildcard, IH.
Qed.

Lemma like_percent (p s : string) :
  like (String "%" p) s
  = like p s
    || match s with
       | EmptyString => false
       | String _ s' => like (String "%" p) s'
       end.
Proof. destruct s; reflexivity. Qed.

Lemma like_only_percent (s : string) : like "%" s = true.
Proof.
  induction s as [|c s IH]; [done|]. rewrite like_percent, IH.
  apply orb_true_r.
Qed.

Lemma like_plain_prefix (q s : string) :
  plain q = true → like (q +:+ "%") s = String.prefix q s.
Proof.
  revert s. induction q as [|c q IH]; intros s Hq.
  - change (EmptyString +:+ "%") with "%". rewrite like_only_percent.
    by destruct s.
  - cbn [plain] in Hq. apply andb_true_iff in Hq as [Hc Hq].
    apply negb_true_iff in Hc. unfold is_wildcard in Hc.
    apply orb_false_iff in Hc as [[Hc1 Hc2]%orb_false_iff Hc3].
    change (String c q +:+ "%") with (String c (q +:+ "%")).
    cbn [like]. rewrite Hc1, Hc2, Hc3.
    destruct s as [|x s]; [done|]. rewrite IH by done. cbn [String.prefix].
    destruct (Ascii.ascii_dec c x) as [->|Hne].
    + by rewrite Ascii.eqb_refl.
    + apply not_eq_sym, Ascii.eqb_neq in Hne. by rewrite Hne.
Qed.

(** Between two [%], a pattern without wildcards is a substring test. *)
Lemma like_plain_contains (q s : string) :
  plain q = true → like ("%" +:+ q +:+ "%") s = contains q s.
Proof.
  intros Hq. change ("%" +:+ q +:+ "%") with (String "%" (q +:+ "%")).
  induction s as [|c s IH].
  - rewrite like_percent, like_plain_prefix by done. done.
  - rewrite like_percent, like_plain_prefix, IH by done. done.
Qed.

Lemma sql_lower_like_plain (hay needle : string) :
  plain needle = true →
  sql_lower_like (VStr hay) (VStr needle) = contains_ignoring_case needle hay.
Proof.
  intros Hp. unfold sql_lower_like, contains_ignoring_case.
  apply like_plain_contains. by rewrite plain_lower.
Qed.

Lemma Sorted_Is_true {A} (leb : A → A → bool) (l : list A) :
  Sorted (λ a b, Is_true (leb a b)) l → Sorted (λ a b, leb a b = true) l.
Proof.
  induction 1 as [|a l Hs IH Hh]; constructor; [done|].
  destruct Hh; constructor. by apply Is_true_true.
Qed.

Lemma filter_agree {A} (p q : A → bool) (l : list A) :
  (∀ x, p x = q x) → List.filter p l = List.filter q l.
Proof. intros Hpq. apply List.filter_ext. exact Hpq. Qed.

(** Sorting the rows that pass a filter, as ORDER BY does. *)
Lemma sorted_rows {A} (leb : A → A → bool) (p q : A → bool) (l : list A) :
  (∀ a b, leb a b = true ∨ leb b a = true) →
  (∀ x, p x = q x) →
  merge_sort (λ a b, Is_true (leb a b)) (List.filter p l)
    ≡ₚ List.filter q l
  ∧ Sorted (λ a b, leb a b = true)
      (merge_sort (λ a b, Is_true (leb a b)) (List.filter p l)).
Proof.
  intros Htotal Hpq. split.
  - rewrite merge_sort_Permutation. by rewrite (filter_agree p q).
  - apply Sorted_Is_true.
    assert (Total (λ a b, Is_true (leb a b))).
    { intros a b. destruct (Htotal a b) as [Hab|Hba]; [left|right];
        by apply Is_true_true. }
    by apply (Sorted_merge_sort _).
Qed.

Lemma filter_all {A} (p : A → bool) (l : list A) :
  (∀ x, p x = true) → List.filter p l = l.
Proof.
  intros Hp. induction l as [|a l IH]; [done|]. cbn. by rewrite Hp, IH.
Qed.








(** ** Updating a user *)






Lemma arg_middle (pre : list value) (v : value) (post : list value) :
  arg (pre ++ v :: post) (S (length pre)) = v.
Proof.
  unfold arg. cbn [Nat.sub]. rewrite Nat.sub_0_r.
  by rewrite list_lookup_middle.
Qed.
















Lemma update_unfold `{Collation} `{Config} `{Bcrypt} (username : string)
    (data : obj) (w : world) :
  User.update username data w
  = bind (if truthy (prop data "password") then
            match prop data "password" with
            | VStr password =>
                ret (assign data "password"
                       (VStr (bcrypt_hash password BCRYPT_WORK_FACTOR)))
            | _ => throw (BcryptError "data must be a string or Buffer")
            end
          else ret data)
      (update_stored username) w.
Proof. reflexivity. Qed.




(** An empty password is falsy: it is stored as it is, not hashed. *)
Example User_update_empty_password :
  users (store (snd (@User.update test_collation test_config test_bcrypt "u1"
                       [("password", VStr EmptyString)] test_world)))
  = [ {| u_username := "u1"; u_password := EmptyString;
         u_first_name := "U1F"; u_last_name := "U1L";
         u_email := "u1@email.com"; u_is_admin := false |};
      test_user "u2" "password2" "U2F" "U2L" "u2@email.com" false;
      test_user "a1" "password3" "A1F" "A1L" "a1@email.com" true ].
Proof. vm_compute. reflexivity. Qed.

(** ** The builder on every object *)

Lemma push_numbered (sqlKey : string) (v : value)
    (acc : list assignment * list value) :
  a_index <$> acc.1 = seq 1 (length acc.2) →
  a_index <$> (push sqlKey v acc).1 = seq 1 (length (push sqlKey v acc).2).
Proof.
  intros IH. unfold push. cbn [fst snd].
  rewrite fmap_app, IH, length_app, Nat.add_1_r. cbn
      [length fmap list_fmap a_index].
  rewrite Nat.add_1_r, seq_S. reflexivity.
Qed.

Lemma fold_visit_nested_numbered jsToSql key (props : obj) acc :
  a_index <$> acc.1 = seq 1 (length acc.2) →
  a_index <$> (fold_left (visit_nested jsToSql key) props acc).1
  = seq 1 (length (fold_left (visit_nested jsToSql key) props acc).2).
Proof.
  revert acc. induction props as [|e props IH]; intros acc Hacc; [done|].
  cbn [fold_left]. apply IH. unfold visit_nested.
  destruct (is_undefined e.2); [done|]. by apply push_numbered.
Qed.

Lemma fold_visit_numbered data jsToSql (l : list string) acc :
  a_index <$> acc.1 = seq 1 (length acc.2) →
  a_index <$> (fold_left (visit data jsToSql) l acc).1
  = seq 1 (length (fold_left (visit data jsToSql) l acc).2).
Proof.
  revert acc. induction l as [|k l IH]; intros acc Hacc; [done|].
  cbn [fold_left]. apply IH. unfold visit.
  destruct (is_undefined (prop data k)); [done|].
  destruct (prop data k); try by apply push_numbered.
  destruct (has_nested_mapping jsToSql k).
  - by apply fold_visit_nested_numbered.
  - by apply push_numbered.
Qed.

(** X1. On every object that has a key, whatever the mapping and however
    the fields nest, the builder succeeds, the placeholders of its
    assignments are [$1], [$2], ... in this order, one per value, and
    [setCols] is the assignments joined by a comma and a space. *)
Theorem sqlForPartialUpdate_numbers_placeholders (data : obj)
    (jsToSql : gmap string string) :
  data ≠ [] →
  ∃ u, sqlForPartialUpdate data jsToSql = inr u
       ∧ a_index <$> assignments u = seq 1 (length (values u))
       ∧ setCols u = String.concat ", " (render <$> assignments u).
Proof.
  intros Hdata. unfold sqlForPartialUpdate.
  destruct data as [|kv data]; [done|]. cbn
      [keys fmap list_fmap length Nat.eqb].
  eexists. split; [reflexivity|]. cbn [assignments values setCols].
  split; [|reflexivity].
  apply (fold_visit_numbered (kv :: data) jsToSql (kv.1 :: data.*1) ([], [])).
  reflexivity.
Qed.

Lemma sqlForPartialUpdate_numbers_placeholders_witness :
  ∃ u, sqlForPartialUpdate
         [("name", VStr "N"); ("skipped", VUndefined);
          ("address", VObj [("street", VStr "123 Main St");
                            ("zip", VUndefined); ("city", VStr "Anytown")])]
         {[ "address.street" := "address_street" ]} = inr u
       ∧ a_index <$> assignments u = seq 1 (length (values u))
       ∧ setCols u = String.concat ", " (render <$> assignments u).
Proof.
  apply (sqlForPartialUpdate_numbers_placeholders
           [("name", VStr "N"); ("skipped", VUndefined);
            ("address", VObj [("street", VStr "123 Main St");
                              ("zip", VUndefined); ("city", VStr "Anytown")])]
           {[ "address.street" := "address_street" ]}).
  discriminate.
Defined.

Lemma fold_visit_nested_expansion jsToSql key (props : obj) acc :
  a_column <$> (fold_left (visit_nested jsToSql key) props acc).1
  = (a_column <$> acc.1)
    ++ ((λ e, column_name jsToSql (key +:+ "." +:+ e.1)) <$> kept props)
  ∧ (fold_left (visit_nested jsToSql key) props acc).2
    = acc.2 ++ (kept props).*2.
Proof.
  revert acc. induction props as [|e props IH]; intros acc.
  - cbn. by rewrite !app_nil_r.
  - cbn [fold_left]. destruct (IH (visit_nested jsToSql key acc e)) as [-> ->].
    unfold visit_nested, kept. cbn [List.filter].
    destruct (is_undefined e.2); cbn [negb]; [done|].
    unfold push. cbn [fst snd fmap list_fmap].
    rewrite fmap_app, <- !app_assoc, mapped_column_name. done.
Qed.

Lemma fold_visit_expansion data jsToSql (l : obj) acc :
  (∀ k v, (k, v) ∈ l → prop data k = v) →
  a_column <$> (fold_left (visit data jsToSql) (keys l) acc).1
  = (a_column <$> acc.1) ++ (flat_map (expansion jsToSql) l).*1
  ∧ (fold_left (visit data jsToSql) (keys l) acc).2
    = acc.2 ++ (flat_map (expansion jsToSql) l).*2.
Proof.
  revert acc. induction l as [|[k v] l IH]; intros acc Hl.
  - cbn. by rewrite !app_nil_r.
  - change (keys ((k, v) :: l)) with (k :: keys l). cbn [fold_left flat_map].
    destruct (IH (visit data jsToSql acc k)) as [-> ->].
    { intros k' v' Hin. apply Hl. by right. }
    assert (Hk : prop data k = v) by (apply Hl; left).
    rewrite !fmap_app, !app_assoc.
    assert (a_column <$> (visit data jsToSql acc k).1
            = (a_column <$> acc.1) ++ (expansion jsToSql (k, v)).*1
            ∧ (visit data jsToSql acc k).2
              = acc.2 ++ (expansion jsToSql (k, v)).*2) as [-> ->]; [|done].
    unfold visit, expansion. rewrite Hk. cbn [fst snd].
    assert (Hpush : ∀ x, a_column <$> (push (mapped jsToSql k) x acc).1
                         = (a_column <$> acc.1) ++ [column_name jsToSql k]
                         ∧ (push (mapped jsToSql k) x acc).2 = acc.2 ++ [x]).
    { intros x. unfold push. cbn [fst snd].
      by rewrite fmap_app, mapped_column_name. }
    destruct v as [| | | | | |props]; cbn [is_undefined];
      try exact (Hpush _).
    + by rewrite !app_nil_r.
    + destruct (has_nested_mapping jsToSql k); [|exact (Hpush _)].
      destruct (fold_visit_nested_expansion jsToSql k props acc) as [-> ->].
      split; f_equal.
      * by rewrite <- list_fmap_compose.
      * by rewrite <- list_fmap_compose.
Qed.

(** X2. On an object with a key, a field contributes to the statement as
    follows, in the order of the object: nothing when its value is
    [undefined]; when its value is a plain object and some key of the
    mapping starts with the field's name and a dot, one assignment per
    entry of that object whose value is not [undefined], to the column
    of [field.entry]; one assignment to the field's own column otherwise.
    The column of a name is the one the mapping has for it when that is
    not empty; for a name the mapping does not have it is the text of the
    property of that name that every object inherits, when there is one,
    and the name itself otherwise. The values follow the assignments. *)
Theorem sqlForPartialUpdate_expands (data : obj)
    (jsToSql : gmap string string) :
  data ≠ [] →
  NoDup (keys data) →
  ∃ u, sqlForPartialUpdate data jsToSql = inr u
       ∧ a_column <$> assignments u = (flat_map (expansion jsToSql) data).*1
       ∧ values u = (flat_map (expansion jsToSql) data).*2.
Proof.
  intros Hdata Hnd. unfold sqlForPartialUpdate.
  destruct data as [|kv data]; [done|].
  change (length (keys (kv :: data)) =? 0)%nat with false. cbn iota.
  eexists. split; [reflexivity|]. cbn [assignments values].
  apply (fold_visit_expansion (kv :: data) jsToSql (kv :: data) ([], [])).
  intros k v Hin. by apply prop_unique.
Qed.

Lemma sqlForPartialUpdate_expands_witness :
  ∃ u, sqlForPartialUpdate
         [("name", VStr "N"); ("skipped", VUndefined);
          ("address", VObj [("street", VStr "123 Main St");
                            ("zip", VUndefined); ("city", VStr "Anytown")])]
         {[ "address.street" := "address_street" ]} = inr u
       ∧ a_column <$> assignments u
         = ["name"; "address_street"; "address.city"]
       ∧ values u = [VStr "N"; VStr "123 Main St"; VStr "Anytown"].
Proof.
  destruct (sqlForPartialUpdate_expands
              [("name", VStr "N"); ("skipped", VUndefined);
               ("address", VObj [("street", VStr "123 Main St");
                                 ("zip", VUndefined);
                                 ("city", VStr "Anytown")])]
              {[ "address.street" := "address_street" ]})
    as (u & Hu & Hc & Hv).
  - discriminate.
  - by_evaluation.
  - exists u. rewrite Hc, Hv. split; [exact Hu|]. vm_compute. done.
Defined.

(** ** Users: authentication and registration *)

Lemma filter_head_find {A} (p q : A → bool) (l : list A) :
  (∀ x, p x = q x) → head (List.filter p l) = List.find q l.
Proof.
  intros Hpq. induction l as [|x l IH]; [done|].
  cbn. rewrite <- Hpq. by destruct (p x).
Qed.

Lemma find_user_exists (d : db) (username : string) :
  user_exists d username ↔ is_Some (find_user d username).
Proof.
  unfold user_exists, find_user. induction (users d) as [|r l IH].
  - split; [by intros ?%elem_of_nil|by intros [? ?]].
  - cbn. destruct (String.eqb_spec (u_username r) username) as [<-|Hne].
    + split; [by eexists|by left].
    + rewrite <- IH. split; [intros [?|?]%elem_of_cons; [congruence|done]|].
      by right.
Qed.

Lemma find_user_spec (d : db) (username : string) (r : user_row) :
  find_user d username = Some r → r ∈ users d ∧ u_username r = username.
Proof.
  unfold find_user. intros Hf. apply List.find_some in Hf as [Hin Heq].
  split; [by apply list_elem_of_In|by apply String.eqb_eq].
Qed.



(** [register] on a username that is taken. *)
Lemma register_taken `{Collation} `{Config} `{Bcrypt} (w : world)
    (userData : obj) (name : string) :
  prop userData "username" = VStr name →
  user_exists (store w) name →
  register userData w
  = (inl (BadRequestError ("Duplicate username: " +:+ name)),
     {| store := store w;
        log := log w
               ++ [{| i_statement :=
                        Select [("username", "username")] Users
                          [Eq "username" 1] None;
                      i_params := [VStr name] |}] |}).
Proof.
  intros Hname Hex. unfold register, bind, try_catch, query. rewrite Hname.
  cbn. destruct (List.filter _ (users _)) eqn:Eu; [|done].
  by apply no_user_rows in Eu.
Qed.


(** X4. [User.register] with a username that a stored user has throws
    BadRequestError [Duplicate username: <username>] before it looks at
    any other field, and leaves the database as it was. *)
Theorem register_refuses_duplicate `{Collation} `{Config} `{Bcrypt}
    (w : world) (userData : obj) (name : string) :
  prop userData "username" = VStr name →
  user_exists (store w) name →
  fst (register userData w)
  = inl (BadRequestError ("Duplicate username: " +:+ name))
  ∧ store (snd (register userData w)) = store w.
Proof. intros Hname Hex. by rewrite (register_taken w userData name). Qed.

Lemma register_refuses_duplicate_witness :
  fst (@register test_collation test_config test_bcrypt
         [("username", VStr "u1")] test_world)
  = inl (BadRequestError "Duplicate username: u1")
  ∧ store (snd (@register test_collation test_config test_bcrypt
                  [("username", VStr "u1")] test_world))
    = store test_world.
Proof.
  apply (@register_refuses_duplicate test_collation test_config test_bcrypt
           test_world [("username", VStr "u1")] "u1").
  - reflexivity.
  - unfold user_exists. by_evaluation.
Defined.






(** ** Users: reading *)

Lemma filter_by_key {A} (f : A → string) (l : list A) (k : string) :
  NoDup (f <$> l) →
  List.filter (λ x, String.eqb (f x) k) l
  = option_list (List.find (λ x, String.eqb (f x) k) l).
Proof.
  induction l as [|x l IH]; [done|]. cbn. intros [Hx Hl]%NoDup_cons.
  destruct (String.eqb_spec (f x) k) as [He|Hne]; [|by apply IH].
  cbn. f_equal. apply filter_nil. intros y Hy.
  apply String.eqb_neq. intros Hk. apply Hx. rewrite He, <- Hk.
  by apply list_elem_of_fmap_2.
Qed.

Lemma filter_fmap_all {A B} (p : B → bool) (f : A → B) (l : list A) :
  (∀ x, p (f x) = true) → List.filter p (f <$> l) = f <$> l.
Proof.
  intros Hp. induction l as [|a l IH]; [done|]. cbn. by rewrite Hp, IH.
Qed.

(** What [get] does. *)
Lemma get_run `{Collation} (w : world) (username : string) :
  NoDup (u_username <$> users (store w)) →
  get username w
  = (match find_user (store w) username with
     | Some r => inr (user_with_jobs (store w) r)
     | None => inl (NotFoundError ("No username found: " +:+ username))
     end,
     {| store := store w;
        log := log w
               ++ [{| i_statement := SelectUserLeftJoinApplications;
                      i_params := [VStr username] |}] |}).
Proof.
  intros Hnd. unfold get, bind, try_catch, query. cbn.
  unfold user_left_join_applications. cbn.
  rewrite (filter_by_key u_username _ username Hnd).
  unfold find_user. destruct (List.find _ (users _)) as [r|] eqn:Ef; [|done].
  apply List.find_some in Ef as [_ Hr%String.eqb_eq].
  cbn. rewrite app_nil_r. unfold user_with_jobs, applied_jobs. rewrite Hr.
  rewrite (filter_agree (λ a, String.eqb username (app_username a))
             (λ a, String.eqb (app_username a) username))
    by (intros; apply String.eqb_sym).
  destruct (List.filter _ (applications _)) as [|a mine]; [by rewrite <- Hr|].
  cbn. rewrite <- Hr. do 4 f_equal.
  rewrite <- !list_fmap_compose. cbn.
  rewrite filter_fmap_all by done. done.
Qed.



(** X8. After [JobApplication.apply] has added an application of a user
    to a job, [User.get] of that user lists the job last in [jobs], after
    the jobs it listed before. *)
Theorem apply_then_get `{Collation} (w : world) (username : string)
    (jobId : Z) :
  NoDup (u_username <$> users (store w)) →
  job_exists (store w) jobId →
  user_exists (store w) username →
  ¬ has_applied (store w) username jobId →
  ∃ user,
    fst (get username w)
    = inr (user ++ [("jobs", VArr (VNum <$> applied_jobs (store w) username))])
    ∧ fst (get username (snd (apply (Some username) (Some jobId) w)))
      = inr (user
             ++ [("jobs",
                  VArr (VNum <$> applied_jobs (store w) username
                                 ++ [jobId]))]).
Proof.
  intros Hnd Hj Hu Ha.
  destruct (apply_adds w username jobId Hj Hu Ha)
    as (_ & a & Hau & Haj & Hstore).
  rewrite !get_run; [|by rewrite Hstore|done]. cbn [fst]. rewrite Hstore.
  apply find_user_exists in Hu as [r Hr].
  change (find_user (set_applications (store w) _) username)
    with (find_user (store w) username). rewrite Hr.
  apply find_user_spec in Hr as [_ Hr]. exists (user_object r).
  unfold user_with_jobs, applied_jobs. rewrite Hr. split; [done|].
  cbn [applications set_applications].
  rewrite List.filter_app, fmap_app. cbn [List.filter].
  rewrite Hau, String.eqb_refl. cbn [fmap list_fmap]. by rewrite Haj.
Qed.

Lemma apply_then_get_witness :
  ∃ user,
    fst (@get test_collation "u1" test_world_applied)
    = inr (user ++ [("jobs", VArr [VNum 1; VNum 2])])
    ∧ fst (@get test_collation "u1"
             (snd (@apply test_collation (Some "u1") (Some 3%Z)
                     test_world_applied)))
      = inr (user ++ [("jobs", VArr [VNum 1; VNum 2; VNum 3])]).
Proof.
  apply (@apply_then_get test_collation test_world_applied "u1" 3).
  - by_evaluation.
  - unfold job_exists. by_evaluation.
  - unfold user_exists. by_evaluation.
  - unfold has_applied. by_evaluation.
Defined.

(** X9. [User.findAll] returns every stored user once, without the
    password, ordered by username in the collation of the database, taken
    to be total; it never changes the database. *)
Theorem User_findAll_lists_users `{Collation} (w : world) :
  (∀ a b, collate a b = true ∨ collate b a = true) →
  ∃ rows,
    fst (User.findAll w) = inr (user_object <$> rows)
    ∧ rows ≡ₚ users (store w)
    ∧ Sorted (λ a b, collate (u_username a) (u_username b) = true) rows
    ∧ store (snd (User.findAll w)) = store w.
Proof.
  intros Htotal. unfold User.findAll, bind, try_catch, query. cbn.
  destruct (sorted_rows (λ a b, collate (u_username a) (u_username b))
              (λ _, true) (λ _, true) (users (store w)))
    as [Hperm Hsorted]; [by intros|done|].
  eexists. split; [reflexivity|]. split_and!; [|done|done].
  rewrite Hperm. by rewrite filter_all.
Qed.

Lemma User_findAll_lists_users_witness :
  ∃ rows,
    fst (@User.findAll test_collation test_world) = inr (user_object <$> rows)
    ∧ rows ≡ₚ users (store test_world)
    ∧ Sorted (λ a b, String.leb (u_username a) (u_username b) = true) rows
    ∧ store (snd (@User.findAll test_collation test_world))
      = store test_world.
Proof.
  apply (@User_findAll_lists_users test_collation test_world).
  exact String.leb_total.
Defined.

(** ** Updates: the rows they touch *)

(** An UPDATE that succeeds changes the rows its WHERE clause selects, all
    in the same way, and returns them as they are afterwards. *)
Lemma update_rows {R} `{Relation R} (rows : list R) (set : list assignment)
    (key_column : string) (key_index : nat) (returning : select_list)
    (params : list value) (out : list obj) (rows' : list R) :
  Pg.update rows set key_column key_index returning params
  = inr (out, rows') →
  ∃ change : R → R,
    let hit r := sql_eq (cell key_column r) (arg params key_index) in
    rows' = (λ r, if hit r then change r else r) <$> rows
    ∧ out = project returning <$> (change <$> List.filter hit rows).
Proof.
  unfold Pg.update. destruct set as [|a set]; [done|].
  destruct (negb (bool_decide _)); [done|].
  destruct (negb (forallb _ _)); [done|].
  destruct (mapM _ _) as [changes|]; [|done].
  destruct (out_of_range _ _); [done|].
  destruct (bool_decide (NoDup _)); [|done].
  intros [= <- <-]. by eexists.
Qed.

(** An UPDATE that succeeds has a key of the type of its column. *)
Lemma update_in_range {R} `{Relation R} (rows : list R) (set : list assignment)
    (key_column : string) (key_index : nat) (returning : select_list)
    (params : list value) (result : list obj * list R) :
  Pg.update rows set key_column key_index returning params = inr result →
  out_of_range params (Eq key_column key_index) = false.
Proof.
  unfold Pg.update. destruct set as [|a set]; [done|].
  destruct (negb (bool_decide _)); [done|].
  destruct (negb (forallb _ _)); [done|].
  destruct (mapM _ _) as [changes|]; [|done].
  by destruct (out_of_range _ _).
Qed.

Lemma arg_last (pre : list value) (v : value) :
  arg (pre ++ [v]) (length pre + 1) = v.
Proof. rewrite Nat.add_1_r. apply arg_middle. Qed.

Lemma fmap_unless_hit {A} (hit : A → bool) (change : A → A) (l : list A) :
  List.filter hit l = [] → (λ r, if hit r then change r else r) <$> l = l.
Proof.
  intros Hn. induction l as [|x l IH]; [done|]. cbn in *.
  destruct (hit x); [done|]. by rewrite IH.
Qed.

Lemma fmap_if_same {A} (hit : A → bool) (l : list A) :
  (λ r, if hit r then r else r) <$> l = l.
Proof.
  induction l as [|x l IH]; [done|]. cbn. rewrite IH. by destruct (hit x).
Qed.

Lemma sublist_unless_hit {A} (hit : A → bool) (change : A → A) (l : list A) :
  sublist (List.filter (λ r, negb (hit r)) l)
    ((λ r, if hit r then change r else r) <$> l).
Proof.
  induction l as [|x l IH]; [done|]. cbn. destruct (hit x); cbn.
  - by apply sublist_cons.
  - by apply sublist_skip.
Qed.

Lemma head_filter_elem {A} (hit : A → bool) (l : list A) (r : A) :
  head (List.filter hit l) = Some r → r ∈ l ∧ hit r = true.
Proof.
  intros Hh. assert (Hin : r ∈ List.filter hit l).
  { destruct (List.filter hit l); [done|]. injection Hh as ->. by left. }
  apply list_elem_of_In, List.filter_In in Hin as [Hin Hhit].
  split; [by apply list_elem_of_In|done].
Qed.

Lemma no_company_rows (d : db) (handle : string) :
  List.filter (λ r, String.eqb (c_handle r) handle) (companies d) = []
  ↔ ¬ company_exists d handle.
Proof.
  unfold company_exists. rewrite filter_nil, list_elem_of_fmap. split.
  - intros Hf (r & -> & Hr). specialize (Hf r Hr).
    by rewrite String.eqb_refl in Hf.
  - intros Hn r Hr. apply String.eqb_neq. intros <-. apply Hn. by exists r.
Qed.

Lemma no_job_rows' (d : db) (id : Z) :
  List.filter (λ r, (j_id r =? id)%Z) (jobs d) = [] ↔ ¬ job_exists d id.
Proof.
  rewrite <- no_job_rows.
  rewrite (filter_agree (λ r, (j_id r =? id)%Z)
             (λ r, (j_id r =? id)%Z && true)); [done|].
  intros r. by rewrite andb_true_r.
Qed.

Lemma no_user_rows' (d : db) (username : string) :
  List.filter (λ r, String.eqb (u_username r) username) (users d) = []
  ↔ ¬ user_exists d username.
Proof.
  rewrite <- no_user_rows.
  rewrite (filter_agree (λ r, String.eqb (u_username r) username)
             (λ r, String.eqb (u_username r) username && true)); [done|].
  intros r. by rewrite andb_true_r.
Qed.

(** What [Company.update] does: the store afterwards, the record it
    returns, and the errors it throws. *)
Lemma Company_update_run `{Collation} (handle : string) (data : obj)
    (w : world) :
  ∃ change : company_row → company_row,
    let hit r := String.eqb (c_handle r) handle in
    let result := Company.update handle data w in
    store (snd result)
    = set_companies (store w)
        ((λ r, if hit r then change r else r) <$> companies (store w))
    ∧ match head (List.filter hit (companies (store w))) with
      | Some r =>
          fst result = inr (company_object (change r))
          ∨ fst result = inl (BadRequestError "No data")
          ∨ ∃ m, fst result = inl (ExpressError m None)
      | None =>
          fst result = inl (NotFoundError ("No company: " +:+ handle))
          ∨ fst result = inl (BadRequestError "No data")
          ∨ ∃ m, fst result = inl (ExpressError m None)
      end.
Proof.
  assert (Hsame : ∀ d : db,
            d = set_companies d
                  ((λ r, if String.eqb (c_handle r) handle then r else r)
                     <$> companies d)).
  { intros d. rewrite fmap_if_same. by destruct d. }
  unfold Company.update, bind, lift, try_catch, query.
  destruct (sqlForPartialUpdate data _) as [e|u] eqn:Eu.
  { exists id. cbn. split; [apply Hsame|].
    unfold sqlForPartialUpdate in Eu.
    destruct (length (keys data) =? 0)%nat; [|done]. injection Eu as <-.
    destruct (head _); auto. }
  cbn [exec]. unfold writing.
  destruct (Pg.update _ _ _ _ _ _) as [e|[out rows']] eqn:Ex.
  { exists id. cbn. split; [apply Hsame|]. destruct (head _); eauto. }
  apply update_rows in Ex as (change & Hrows & Hout). exists change.
  cbn zeta in *. rewrite arg_last in Hrows, Hout. cbn in Hrows, Hout.
  subst out rows'. destruct (List.filter _ _) as [|r rs]; cbn; auto.
Qed.

Lemma update_error {R} `{Relation R} (rows : list R) (set : list assignment)
    (key_column : string) (key_index : nat) (returning : select_list)
    (params : list value) (e : error) :
  Pg.update rows set key_column key_index returning params = inl e →
  ∃ code m, e = DatabaseError code m.
Proof.
  unfold Pg.update. destruct set as [|a set]; [intros [= <-]; eauto|].
  destruct (negb (bool_decide _)); [intros [= <-]; eauto|].
  destruct (negb (forallb _ _)); [intros [= <-]; eauto|].
  destruct (mapM _ _) as [changes|]; [|intros [= <-]; eauto].
  destruct (out_of_range _ _); [intros [= <-]; eauto|].
  destruct (bool_decide (NoDup _)); [done|intros [= <-]; eauto].
Qed.

(** What [Job.update] does. *)
Lemma Job_update_run `{Collation} (id : Z) (data : obj) (w : world) :
  ∃ change : job_row → job_row,
    let hit r := (j_id r =? id)%Z in
    let result := Job.update id data w in
    store (snd result)
    = set_jobs (store w)
        ((λ r, if hit r then change r else r) <$> jobs (store w))
    ∧ match head (List.filter hit (jobs (store w))) with
      | Some r =>
          fst result = inr (job_object (change r))
          ∨ fst result = inl (BadRequestError "No data")
          ∨ ∃ code m, fst result = inl (DatabaseError code m)
      | None =>
          fst result
          = inl (NotFoundError ("No job was updated: " +:+ pretty id))
          ∨ fst result = inl (BadRequestError "No data")
          ∨ ∃ code m, fst result = inl (DatabaseError code m)
      end.
Proof.
  assert (Hsame : ∀ d : db,
            d = set_jobs d
                  ((λ r, if (j_id r =? id)%Z then r else r) <$> jobs d)).
  { intros d. rewrite fmap_if_same. by destruct d. }
  unfold Job.update, bind, lift, query.
  destruct (sqlForPartialUpdate data _) as [e|u] eqn:Eu.
  { exists (λ r, r). cbn. split; [apply Hsame|].
    unfold sqlForPartialUpdate in Eu.
    destruct (length (keys data) =? 0)%nat; [|done]. injection Eu as <-.
    destruct (head _); auto. }
  cbn [exec]. unfold writing.
  destruct (Pg.update _ _ _ _ _ _) as [e|[out rows']] eqn:Ex.
  { exists (λ r, r). cbn. split; [apply Hsame|].
    apply update_error in Ex as (code & m & ->). destruct (head _); eauto. }
  apply update_rows in Ex as (change & Hrows & Hout). exists change.
  cbn zeta in *. rewrite arg_last in Hrows, Hout. cbn in Hrows, Hout.
  subst out rows'. destruct (List.filter _ _) as [|r rs]; cbn; auto.
Qed.

(** What [User.update] does to the store, and how it fails when no user
    has the username. *)
Lemma User_update_run `{Collation} `{Config} `{Bcrypt} (username : string)
    (data : obj) (w : world) :
  ∃ change : user_row → user_row,
    let hit r := String.eqb (u_username r) username in
    let result := User.update username data w in
    store (snd result)
    = set_users (store w)
        ((λ r, if hit r then change r else r) <$> users (store w))
    ∧ (List.filter hit (users (store w)) = [] →
       fst result = inl (NotFoundError ("No user: " +:+ username))
       ∨ fst result = inl (BadRequestError "No data")
       ∨ (∃ m, fst result = inl (ExpressError m (Some 500%Z)))
       ∨ ∃ m, fst result = inl (BcryptError m))
    ∧ (∀ u, fst result = inr u →
         ∃ r, head (List.filter hit (users (store w))) = Some r
              ∧ (u = user_object (change r)
                 ∨ ∃ v, u = user_object (change r) ++ [("jobs", v)])).
Proof.
  assert (Hsame : ∀ d : db,
            d = set_users d
                  ((λ r, if String.eqb (u_username r) username then r else r)
                     <$> users d)).
  { intros d. rewrite fmap_if_same. by destruct d. }
  assert (Hstored : ∀ data',
            ∃ change : user_row → user_row,
              store (snd (update_stored username data' w))
              = set_users (store w)
                  ((λ r, if String.eqb (u_username r) username
                         then change r else r) <$> users (store w))
              ∧ (List.filter (λ r, String.eqb (u_username r) username)
                   (users (store w)) = [] →
                 fst (update_stored username data' w)
                 = inl (NotFoundError ("No user: " +:+ username))
                 ∨ fst (update_stored username data' w)
                   = inl (BadRequestError "No data")
                 ∨ (∃ m, fst (update_stored username data' w)
                         = inl (ExpressError m (Some 500%Z)))
                 ∨ ∃ m, fst (update_stored username data' w)
                        = inl (BcryptError m))
              ∧ (∀ u, fst (update_stored username data' w) = inr u →
                   ∃ r, head (List.filter
                                (λ r, String.eqb (u_username r) username)
                                (users (store w))) = Some r
                        ∧ (u = user_object (change r)
                           ∨ ∃ v, u = user_object (change r)
                                      ++ [("jobs", v)]))).
  { intros data'. unfold update_stored, bind, lift, try_catch, query.
    destruct (sqlForPartialUpdate data' _) as [e|u] eqn:Eu.
    { exists id. cbn. split; [apply Hsame|]. split; [|done]. intros _.
      unfold sqlForPartialUpdate in Eu.
      destruct (length (keys data') =? 0)%nat; [|done]. injection Eu as <-.
      auto. }
    cbn [exec]. unfold writing.
    destruct (Pg.update _ _ _ _ _ _) as [e|[out rows']] eqn:Ex.
    { exists id. cbn. split; [apply Hsame|]. split; [eauto|done]. }
    apply update_rows in Ex as (change & Hrows & Hout). exists change.
    cbn zeta in *. rewrite arg_last in Hrows, Hout. cbn in Hrows, Hout.
    subst out rows'. destruct (List.filter _ (users _)) as [|r rs]; cbn.
    { split; [done|]. split; [auto|done]. }
    destruct (List.filter _ (applications _)); cbn.
    - split; [done|]. split; [done|]. intros ? [= <-]. eauto.
    - split; [done|]. split; [done|]. intros ? [= <-]. eauto. }
  cbn zeta. rewrite update_unfold. unfold bind.
  destruct (truthy (prop data "password")); [|apply Hstored].
  destruct (prop data "password");
    try (exists id; cbn; split; [apply Hsame|]; split; [eauto 6|done]).
  apply Hstored.
Qed.

(** X10. Whatever the data, and whether it succeeds or throws, an update
    of a company, a job or a user adds no row and removes none, keeps
    every row of another key as it was, these rows in the order they had
    among themselves, and leaves the three other tables as they were.
    Where the row of the key itself comes among the others is left
    open. *)
Theorem update_touches_one_row `{Collation} `{Config} `{Bcrypt} (w : world)
    (handle username : string) (id : Z) (data : obj) :
  (let d' := store (snd (Company.update handle data w)) in
   length (companies d') = length (companies (store w))
   ∧ sublist
       (List.filter (λ r, negb (String.eqb (c_handle r) handle))
          (companies (store w)))
       (companies d')
   ∧ jobs d' = jobs (store w) ∧ users d' = users (store w)
   ∧ applications d' = applications (store w))
  ∧ (let d' := store (snd (Job.update id data w)) in
     length (jobs d') = length (jobs (store w))
     ∧ sublist (List.filter (λ r, negb (j_id r =? id)%Z) (jobs (store w)))
         (jobs d')
     ∧ companies d' = companies (store w) ∧ users d' = users (store w)
     ∧ applications d' = applications (store w))
  ∧ (let d' := store (snd (User.update username data w)) in
     length (users d') = length (users (store w))
     ∧ sublist
         (List.filter (λ r, negb (String.eqb (u_username r) username))
            (users (store w)))
         (users d')
     ∧ companies d' = companies (store w) ∧ jobs d' = jobs (store w)
     ∧ applications d' = applications (store w)).
Proof.
  cbn zeta. split; [|split].
  - destruct (Company_update_run handle data w) as (change & -> & _).
    cbn. split_and!; try done; [apply length_fmap|apply sublist_unless_hit].
  - destruct (Job_update_run id data w) as (change & -> & _).
    cbn. split_and!; try done; [apply length_fmap|apply sublist_unless_hit].
  - destruct (User_update_run username data w) as (change & -> & _).
    cbn. split_and!; try done; [apply length_fmap|apply sublist_unless_hit].
Qed.

(** X11. An update of a company, a job or a user that is not stored
    leaves the database as it was and throws: NotFoundError, unless the
    builder has thrown BadRequestError [No data] or the database has
    refused the statement (which [Company.update] rethrows as an
    ExpressError without status, [User.update] as an ExpressError of
    status 500, and [Job.update] lets through as it is), or bcrypt has
    refused the password of a user. *)
Theorem update_of_missing_key `{Collation} `{Config} `{Bcrypt} (w : world)
    (handle username : string) (id : Z) (data : obj) :
  (¬ company_exists (store w) handle →
   let result := Company.update handle data w in
   store (snd result) = store w
   ∧ (fst result = inl (NotFoundError ("No company: " +:+ handle))
      ∨ fst result = inl (BadRequestError "No data")
      ∨ ∃ m, fst result = inl (ExpressError m None)))
  ∧ (¬ job_exists (store w) id →
     let result := Job.update id data w in
     store (snd result) = store w
     ∧ (fst result
        = inl (NotFoundError ("No job was updated: " +:+ pretty id))
        ∨ fst result = inl (BadRequestError "No data")
        ∨ ∃ code m, fst result = inl (DatabaseError code m)))
  ∧ (¬ user_exists (store w) username →
     let result := User.update username data w in
     store (snd result) = store w
     ∧ (fst result = inl (NotFoundError ("No user: " +:+ username))
        ∨ fst result = inl (BadRequestError "No data")
        ∨ (∃ m, fst result = inl (ExpressError m (Some 500%Z)))
        ∨ ∃ m, fst result = inl (BcryptError m))).
Proof.
  split; [|split].
  - intros Hn%no_company_rows. cbn zeta.
    destruct (Company_update_run handle data w) as (change & Hs & Hr).
    cbn zeta in Hs, Hr. rewrite Hn in Hr. split; [|exact Hr].
    rewrite Hs, fmap_unless_hit by done. by destruct (store w).
  - intros Hn%no_job_rows'. cbn zeta.
    destruct (Job_update_run id data w) as (change & Hs & Hr).
    cbn zeta in Hs, Hr. rewrite Hn in Hr. split; [|exact Hr].
    rewrite Hs, fmap_unless_hit by done. by destruct (store w).
  - intros Hn%no_user_rows'. cbn zeta.
    destruct (User_update_run username data w) as (change & Hs & Hr & _).
    cbn zeta in Hs, Hr. split; [|by apply Hr].
    rewrite Hs, fmap_unless_hit by done. by destruct (store w).
Qed.

Lemma update_of_missing_key_witness :
  (let result :=
     @Company.update test_collation "nope" [("name", VStr "New")] test_world in
   store (snd result) = store test_world
   ∧ (fst result = inl (NotFoundError "No company: nope")
      ∨ fst result = inl (BadRequestError "No data")
      ∨ ∃ m, fst result = inl (ExpressError m None)))
  ∧ (let result :=
       @Job.update test_collation 0 [("title", VStr "New")] test_world in
     store (snd result) = store test_world
     ∧ (fst result = inl (NotFoundError "No job was updated: 0")
        ∨ fst result = inl (BadRequestError "No data")
        ∨ ∃ code m, fst result = inl (DatabaseError code m)))
  ∧ (let result :=
       @User.update test_collation test_config test_bcrypt "nope"
         [("firstName", VStr "New")] test_world in
     store (snd result) = store test_world
     ∧ (fst result = inl (NotFoundError "No user: nope")
        ∨ fst result = inl (BadRequestError "No data")
        ∨ (∃ m, fst result = inl (ExpressError m (Some 500%Z)))
        ∨ ∃ m, fst result = inl (BcryptError m))).
Proof.
  destruct (@update_of_missing_key test_collation test_config test_bcrypt
              test_world "nope" "nope" 0 [("name", VStr "New")])
    as (Hcompany & _).
  destruct (@update_of_missing_key test_collation test_config test_bcrypt
              test_world "nope" "nope" 0 [("title", VStr "New")])
    as (_ & Hjob & _).
  destruct (@update_of_missing_key test_collation test_config test_bcrypt
              test_world "nope" "nope" 0 [("firstName", VStr "New")])
    as (_ & _ & Huser).
  split; [|split].
  - apply Hcompany. unfold company_exists. by_evaluation.
  - apply Hjob. unfold job_exists. by_evaluation.
  - apply Huser. unfold user_exists. by_evaluation.
Defined.

(** X12. When an update of a company, a job or a user returns a record,
    the key it was given was stored, and the record is a row of the table
    as it is after the update; for a user, the row without its password,
    followed by [jobs] when the user has applications. *)
Theorem update_returns_stored_row `{Collation} `{Config} `{Bcrypt}
    (w : world) (handle username : string) (id : Z) (data : obj) :
  (∀ c w', Company.update handle data w = (inr c, w') →
     company_exists (store w) handle
     ∧ ∃ r', r' ∈ companies (store w') ∧ c = company_object r')
  ∧ (∀ j w', Job.update id data w = (inr j, w') →
       job_exists (store w) id
       ∧ ∃ r', r' ∈ jobs (store w') ∧ j = job_object r')
  ∧ (∀ u w', User.update username data w = (inr u, w') →
       user_exists (store w) username
       ∧ ∃ r', r' ∈ users (store w')
               ∧ (u = user_object r'
                  ∨ ∃ v, u = user_object r' ++ [("jobs", v)])).
Proof.
  split; [|split].
  - intros c w' Hupd.
    destruct (Company_update_run handle data w) as (change & Hs & Hr).
    cbn zeta in Hs, Hr. rewrite Hupd in Hs, Hr. cbn [fst snd] in Hs, Hr.
    destruct (head _) as [r|] eqn:Eh.
    + apply head_filter_elem in Eh as [Hin Hhit].
      destruct Hr as [[= ->]|[|[m ?]]]; [|done|done]. split.
      * apply String.eqb_eq in Hhit as <-. unfold company_exists.
        by apply list_elem_of_fmap_2.
      * exists (change r). split; [|done]. rewrite Hs. cbn.
        apply list_elem_of_fmap. exists r. by rewrite Hhit.
    + by destruct Hr as [|[|[m ?]]].
  - intros j w' Hupd.
    destruct (Job_update_run id data w) as (change & Hs & Hr).
    cbn zeta in Hs, Hr. rewrite Hupd in Hs, Hr. cbn [fst snd] in Hs, Hr.
    destruct (head _) as [r|] eqn:Eh.
    + apply head_filter_elem in Eh as [Hin Hhit].
      destruct Hr as [[= ->]|[|(code & m & ?)]]; [|done|done]. split.
      * apply Z.eqb_eq in Hhit as <-. unfold job_exists.
        by apply list_elem_of_fmap_2.
      * exists (change r). split; [|done]. rewrite Hs. cbn.
        apply list_elem_of_fmap. exists r. by rewrite Hhit.
    + by destruct Hr as [|[|(code & m & ?)]].
  - intros u w' Hupd.
    destruct (User_update_run username data w) as (change & Hs & _ & Hr).
    cbn zeta in Hs, Hr. rewrite Hupd in Hs, Hr. cbn [fst snd] in Hs, Hr.
    destruct (Hr u eq_refl) as (r & Eh & Hu).
    apply head_filter_elem in Eh as [Hin Hhit]. split.
    + apply String.eqb_eq in Hhit as <-. unfold user_exists.
      by apply list_elem_of_fmap_2.
    + exists (change r). split; [|done]. rewrite Hs. cbn.
      apply list_elem_of_fmap. exists r. by rewrite Hhit.
Qed.

Lemma update_returns_stored_row_witness :
  let updated :=
    @Company.update test_collation "c1" [("name", VStr "New")] test_world in
  company_exists (store test_world) "c1"
  ∧ ∃ r', r' ∈ companies (store (snd updated))
          ∧ company_object (test_company "c1" "New" 1 "Desc1" "http://c1.img")
            = company_object r'.
Proof.
  intros updated.
  apply (proj1 (@update_returns_stored_row test_collation test_config
                  test_bcrypt test_world "c1" "u1" 1 [("name", VStr "New")])
           (company_object (test_company "c1" "New" 1 "Desc1" "http://c1.img"))
           (snd updated)).
  vm_compute. reflexivity.
Defined.

(** ** Reading a job *)

Lemma find_job_spec (d : db) (id : Z) (r : job_row) :
  find_job d id = Some r → r ∈ jobs d ∧ j_id r = id.
Proof.
  unfold find_job. intros Hf. apply List.find_some in Hf as [Hin Heq].
  split; [by apply list_elem_of_In|by apply Z.eqb_eq].
Qed.

Lemma find_job_in_range (d : db) (id : Z) (r : job_row) :
  find_job d id = Some r → in_int4 id = true.
Proof. intros [_ <-]%find_job_spec. apply in_int4_true. Qed.

(** What [Job.get] does. *)
Lemma Job_get_run `{Collation} (w : world) (id : option Z) :
  store (snd (Job.get id w)) = store w
  ∧ fst (Job.get id w)
    = match id with
      | None => inl (NotFoundError "No job for ID: undefined")
      | Some id =>
          if in_int4 id then
            match find_job (store w) id with
            | Some r => inr (job_object r)
            | None =>
                inl (NotFoundError
                       ("No job was found for ID: " +:+ pretty id))
            end
          else
            inl (ExpressError "value is out of range for type integer"
                   (Some 500%Z))
      end.
Proof.
  destruct id as [id|]; [|done].
  unfold Job.get, bind, try_catch, query. cbn.
  destruct (in_int4 id); cbn; [|done].
  pose proof (filter_head_find (λ r, (j_id r =? id)%Z && true)
                (λ r, (j_id r =? id)%Z) (jobs (store w))) as Hf.
  unfold find_job. rewrite <- Hf by (intros; apply andb_true_r).
  destruct (List.filter _ (jobs _)) as [|r rows] eqn:Ej; cbn; [done|].
  split; [done|].
  assert (Hr : r ∈ List.filter (λ r, (j_id r =? id)%Z && true)
                     (jobs (store w))) by (rewrite Ej; left).
  apply list_elem_of_In, List.filter_In in Hr as [_ Hr].
  rewrite andb_true_r in Hr. apply Z.eqb_eq in Hr as <-. done.
Qed.

(** X13. [Job.get] returns the first stored job of the given id, with
    its id, title, salary, equity and company handle. When no job has the
    id it throws NotFoundError [No job was found for ID: <id>] for an id
    of the type INTEGER, and for an id beyond the range of the type the
    ExpressError of status 500 by which it reports the errors of the
    database; for an [undefined] id it throws NotFoundError [No job for
    ID: undefined]. It never changes the database. *)
Theorem Job_get_decides `{Collation} (w : world) (id : option Z) :
  store (snd (Job.get id w)) = store w
  ∧ (id = None →
     fst (Job.get id w) = inl (NotFoundError "No job for ID: undefined"))
  ∧ (∀ n r, id = Some n → find_job (store w) n = Some r →
       fst (Job.get id w) = inr (job_object r))
  ∧ (∀ n, id = Some n → in_int4 n = true → find_job (store w) n = None →
       fst (Job.get id w)
       = inl (NotFoundError ("No job was found for ID: " +:+ pretty n)))
  ∧ (∀ n, id = Some n → in_int4 n = false →
       ∃ m, fst (Job.get id w) = inl (ExpressError m (Some 500%Z))).
Proof.
  destruct (Job_get_run w id) as [Hstore Hget]. split; [done|].
  rewrite Hget. split_and!.
  - by intros ->.
  - intros n r -> Hfind. by rewrite (find_job_in_range _ _ _ Hfind), Hfind.
  - intros n -> -> Hfind. by rewrite Hfind.
  - intros n -> ->. eauto.
Qed.

Lemma Job_get_decides_witness :
  fst (@Job.get test_collation (Some 2%Z) test_world)
  = inr (job_object (test_job 2 "j2" 200000 "0.2" "c2"))
  ∧ fst (@Job.get test_collation (Some 0%Z) test_world)
    = inl (NotFoundError "No job was found for ID: 0")
  ∧ (∃ m, fst (@Job.get test_collation (Some 2147483648%Z) test_world)
          = inl (ExpressError m (Some 500%Z)))
  ∧ fst (@Job.get test_collation None test_world)
    = inl (NotFoundError "No job for ID: undefined").
Proof.
  destruct (@Job_get_decides test_collation test_world (Some 2%Z))
    as (_ & _ & Hfound & _).
  destruct (@Job_get_decides test_collation test_world (Some 0%Z))
    as (_ & _ & _ & Hmissing & _).
  destruct (@Job_get_decides test_collation test_world
              (Some 2147483648%Z)) as (_ & _ & _ & _ & Hbeyond).
  destruct (@Job_get_decides test_collation test_world None)
    as (_ & Hundefined & _).
  split_and!.
  - by apply (Hfound 2%Z).
  - by apply (Hmissing 0%Z).
  - by apply (Hbeyond 2147483648%Z).
  - by apply Hundefined.
Defined.

(** ** Tokens *)

Lemma substring_all (s : string) : String.substring 0 (String.length s) s = s.
Proof. induction s as [|c s IH]; [done|]. cbn. by rewrite IH. Qed.

Lemma strip_bearer_prefixed (t : string) :
  strip_bearer ("Bearer " +:+ t) = t ∧ strip_bearer ("bearer " +:+ t) = t.
Proof.
  split.
  - change ("Bearer " +:+ t)
      with (String "B" (String "e" (String "a" (String "r" (String "e"
             (String "r" (String " " t))))))).
    unfold strip_bearer. cbn. rewrite Nat.sub_0_r, substring_all.
    by destruct t.
  - change ("bearer " +:+ t)
      with (String "b" (String "e" (String "a" (String "r" (String "e"
             (String "r" (String " " t))))))).
    unfold strip_bearer. cbn. rewrite Nat.sub_0_r, substring_all.
    by destruct t.
Qed.

Lemma createToken_payload `{Config} `{Tokens.Signer} (user : obj)
    (name : string) (flag : option bool) :
  prop user "username" = VStr name →
  prop user "isAdmin" = from_option VBool VUndefined flag →
  Tokens.createToken user
  = Tokens.jwt_sign [("username", VStr name);
                     ("isAdmin", VBool (default false flag))] SECRET_KEY.
Proof.
  intros Hname Hflag. unfold Tokens.createToken. rewrite Hname, Hflag.
  by destruct flag as [[]|].
Qed.

(** X14. For a user object with a username and an admin flag that is a
    boolean or missing, [createToken] signs the payload of the username
    and the flag, [false] when it is missing, with the secret key. When
    the library verifies that token to that payload and the token has no
    white space around it, [authenticateJWT] on the header [Bearer
    <token>] or [bearer <token>] attaches the payload to the response,
    whatever was attached before, and the guards then decide by it:
    [ensureLoggedIn] passes, [onlyAdmin] passes exactly when the flag was
    [true], and [ensureCorrectUserOrAdmin] passes exactly when the flag was
    [true] or the route names the user. *)
Theorem createToken_authenticates `{Config} `{Jwt} `{Tokens.Signer}
    (user : obj) (name : string) (flag : option bool) (res : locals)
    (route : option string) (scheme : string) :
  prop user "username" = VStr name →
  prop user "isAdmin" = from_option VBool VUndefined flag →
  let payload := [("username", VStr name);
                  ("isAdmin", VBool (default false flag))] in
  let c := {| username := name; isAdmin := default false flag |} in
  jwt_verify (Tokens.jwt_sign payload SECRET_KEY) SECRET_KEY = Some c →
  trim (Tokens.jwt_sign payload SECRET_KEY)
  = Tokens.jwt_sign payload SECRET_KEY →
  scheme = "Bearer " ∨ scheme = "bearer " →
  let req := {| authorization := Some (scheme +:+ Tokens.createToken user);
                params_username := route |} in
  Tokens.createToken user = Tokens.jwt_sign payload SECRET_KEY
  ∧ authenticateJWT req res = ({| Auth.user := Some c |}, Next)
  ∧ ensureLoggedIn req (fst (authenticateJWT req res)) = Next
  ∧ (onlyAdmin req (fst (authenticateJWT req res)) = Next
     ↔ flag = Some true)
  ∧ (ensureCorrectUserOrAdmin req (fst (authenticateJWT req res)) = Next
     ↔ flag = Some true ∨ route = Some name).
Proof.
  intros Hname Hflag payload c Hverify Htrim Hscheme req.
  pose proof (createToken_payload user name flag Hname Hflag) as Htoken.
  fold payload in Htoken.
  assert (Hauth : authenticateJWT req res = ({| Auth.user := Some c |}, Next)).
  { unfold authenticateJWT, req. cbn [authorization]. rewrite Htoken.
    assert (Hstrip : strip_bearer
                       (scheme +:+ Tokens.jwt_sign payload SECRET_KEY)
                     = Tokens.jwt_sign payload SECRET_KEY).
    { destruct Hscheme as [-> | ->]; apply strip_bearer_prefixed. }
    rewrite Hstrip, Htrim, Hverify.
    by destruct Hscheme as [-> | ->]. }
  rewrite Hauth. cbn [fst]. split_and!; [done|done|done| |].
  - unfold onlyAdmin. cbn. destruct flag as [[]|]; cbn; split; done.
  - unfold ensureCorrectUserOrAdmin. cbn.
    destruct flag as [[]|]; cbn.
    + split; [by left|done].
    + case_bool_decide as Hr; split; try done.
      * by right.
      * intros [|]; [done|congruence].
    + case_bool_decide as Hr; split; try done.
      * by right.
      * intros [|]; [done|congruence].
Qed.

Lemma createToken_authenticates_witness :
  let user := [("username", VStr "u1"); ("isAdmin", VBool false)] in
  let c := {| username := "u1"; isAdmin := false |} in
  let req :=
    {| authorization :=
         Some ("Bearer " +:+ @Tokens.createToken test_config test_signer user);
       params_username := Some "u1" |} in
  let res := {| Auth.user := None |} in
  @Tokens.createToken test_config test_signer user = "u1Token"
  ∧ @authenticateJWT test_config test_jwt req res
    = ({| Auth.user := Some c |}, Next)
  ∧ ensureLoggedIn req (fst (@authenticateJWT test_config test_jwt req res))
    = Next
  ∧ (onlyAdmin req (fst (@authenticateJWT test_config test_jwt req res))
     = Next ↔ Some false = Some true)
  ∧ (ensureCorrectUserOrAdmin req
       (fst (@authenticateJWT test_config test_jwt req res)) = Next
     ↔ Some false = Some true ∨ Some "u1" = Some "u1").
Proof.
  intros user c req res.
  apply (@createToken_authenticates test_config test_jwt test_signer user
           "u1" (Some false) res (Some "u1") "Bearer ");
    try reflexivity.
  by left.
Defined.

(** ** The routes of the users *)




(** ** Removing an application *)

Lemma application_hit (a : application_row) (username : string) (jobId : Z) :
  (app_job_id a =? jobId)%Z && (String.eqb (app_username a) username && true)
  = bool_decide (pkey a = (username, jobId)).
Proof.
  rewrite andb_true_r. cbn.
  destruct (Z.eqb_spec (app_job_id a) jobId) as [Hj|Hj],
    (String.eqb_spec (app_username a) username) as [Hu|Hu];
    case_bool_decide as Hk; try done; try congruence.
Qed.

Lemma has_applied_filter (d : db) (username : string) (jobId : Z) :
  List.filter (λ a, bool_decide (pkey a = (username, jobId)))
    (applications d) = []
  ↔ ¬ has_applied d username jobId.
Proof.
  unfold has_applied. rewrite filter_nil, list_elem_of_fmap. split.
  - intros Hf (a & Hk & Ha). specialize (Hf a Ha).
    by rewrite bool_decide_eq_true_2 in Hf.
  - intros Hn a Ha. apply bool_decide_eq_false_2. intros Hk. apply Hn.
    by exists a.
Qed.

Lemma filter_negb_all {A} (p : A → bool) (l : list A) :
  List.filter p l = [] → List.filter (λ x, negb (p x)) l = l.
Proof.
  induction l as [|x l IH]; [done|]. cbn.
  destruct (p x); [done|]. intros Hl. cbn. by rewrite IH.
Qed.

Lemma other_applications_all (d : db) (username : string) (jobId : Z) :
  ¬ has_applied d username jobId →
  other_applications d username jobId = applications d.
Proof.
  intros Hn%has_applied_filter. unfold other_applications.
  by apply filter_negb_all.
Qed.

Lemma other_applications_none (d : db) (username : string) (jobId : Z) :
  (username, jobId) ∉ pkey <$> other_applications d username jobId.
Proof.
  unfold other_applications. intros (a & Hk & Ha)%list_elem_of_fmap.
  apply list_elem_of_In, List.filter_In in Ha as [_ Ha].
  by rewrite bool_decide_eq_true_2 in Ha.
Qed.

(** What [remove] does. *)
Lemma remove_run `{Collation} `{Db.ForeignKeys} `{Db.Constraints} (w : Db.world)
    (username : string) (jobId : Z) :
  let result := JobApplication.remove (Some username) (Some jobId) w in
  Db.store (snd result)
  = set_applications (Db.store w)
      (other_applications (Db.store w) username jobId)
  ∧ (has_applied (Db.store w) username jobId → fst result = inr tt)
  ∧ (¬ has_applied (Db.store w) username jobId →
     ∃ m, fst result = inl (NotFoundError m))
  ∧ (¬ has_applied (Db.store w) username jobId → in_int4 jobId = true →
     fst result
     = inl (NotFoundError
              ("No job aplication found for Job ID " +:+ pretty jobId
               +:+ " by username " +:+ username))).
Proof.
  cbn zeta.
  unfold JobApplication.remove, Db.bind, Db.try_catch, Db.query. cbn.
  destruct (in_int4 jobId) eqn:Hrange; cbn.
  2: { assert (Hn : ¬ has_applied (Db.store w) username jobId).
       { intros Ha%has_applied_in_range. congruence. }
       split_and!; [|done|eauto|done].
       rewrite other_applications_all by done. by destruct (Db.store w). }
  unfold other_applications.
  rewrite (filter_agree
             (λ r, (app_job_id r =? jobId)%Z
                   && (String.eqb (app_username r) username && true))
             (λ a : application_row,
                bool_decide (@pkey _ application_relation a =
                    (username, jobId))))
    by (intros; apply application_hit).
  rewrite (filter_agree
             (λ r, negb ((app_job_id r =? jobId)%Z
                         && (String.eqb (app_username r) username && true)))
             (λ a : application_row,
                negb (bool_decide (@pkey _ application_relation a =
                    (username, jobId)))))
    by (intros; by rewrite application_hit).
  destruct (List.filter (λ a, bool_decide _) _) as [|a hits] eqn:Ea; cbn.
  - split_and!; [done| |eauto|done]. intros Ha.
    by apply has_applied_filter in Ea.
  - split_and!; [done|done| |]; intros Hn%has_applied_filter; congruence.
Qed.

(** X16. With both arguments defined, [JobApplication.remove] takes the
    application of the user to the job out of the applications and leaves
    every other application, and every other table, as it was; when there
    is no such application it throws NotFoundError and changes nothing.
    After a removal the same call throws NotFoundError. *)
Theorem remove_decides `{Collation} `{Db.ForeignKeys} `{Db.Constraints}
    (w : Db.world) (username : string)
    (jobId : Z) :
  let result := JobApplication.remove (Some username) (Some jobId) w in
  (has_applied (Db.store w) username jobId →
   fst result = inr tt
   ∧ Db.store (snd result)
     = set_applications (Db.store w)
         (other_applications (Db.store w) username jobId)
   ∧ ¬ has_applied (Db.store (snd result)) username jobId
   ∧ ∃ m, fst (JobApplication.remove (Some username) (Some jobId)
                 (snd result)) = inl (NotFoundError m))
  ∧ (¬ has_applied (Db.store w) username jobId →
     (∃ m, fst result = inl (NotFoundError m))
     ∧ Db.store (snd result) = Db.store w).
Proof.
  cbn zeta. destruct (remove_run w username jobId) as (Hs & Hyes & Hno & _).
  cbn zeta in Hs, Hyes, Hno. split.
  - intros Ha. rewrite Hs.
    assert (Hgone : ¬ has_applied
                        (set_applications (Db.store w)
                           (other_applications (Db.store w) username jobId))
                        username jobId)
      by apply other_applications_none.
    split_and!; [by apply Hyes|done|done|].
    destruct (remove_run
                (snd (JobApplication.remove (Some username) (Some jobId) w))
                username jobId) as (_ & _ & Hagain & _).
    cbn zeta in Hagain. apply Hagain. by rewrite Hs.
  - intros Hn. split; [by apply Hno|].
    rewrite Hs, other_applications_all by done. by destruct (Db.store w).
Qed.

Lemma remove_decides_witness :
  let w := test_session_applied in
  fst (@JobApplication.remove test_collation test_foreign_keys test_constraints
      (Some "u1") (Some 1%Z) w)
  = inr tt
  ∧ applications
      (Db.store
         (snd (@JobApplication.remove test_collation test_foreign_keys
             test_constraints (Some "u1") (Some 1%Z)
                 w)))
    = [test_application "u1" 2]
  ∧ ∃ m, fst (@JobApplication.remove test_collation test_foreign_keys
      test_constraints (Some "u2") (Some 1%Z) w)
         = inl (NotFoundError m).
Proof.
  intros w.
  destruct (@remove_decides test_collation test_foreign_keys test_constraints w
      "u1" 1) as [Hyes _].
  destruct (@remove_decides test_collation test_foreign_keys test_constraints w
      "u2" 1) as [_ Hno].
  destruct Hyes as (Hr & Hs & _); [unfold has_applied; by_evaluation|].
  destruct Hno as (Hm & _); [unfold has_applied; by_evaluation|].
  split; [exact Hr|]. split; [by rewrite Hs|exact Hm].
Defined.

(** X17. An application made by [JobApplication.apply] is taken back by
    [JobApplication.remove] of the same user and job: the removal
    succeeds and the database is as it was before the application. *)
Theorem apply_then_remove `{Collation} `{Db.ForeignKeys} `{Db.Constraints}
    (w : Db.world) (username : string)
    (jobId : Z) :
  job_exists (Db.store w) jobId →
  user_exists (Db.store w) username →
  ¬ has_applied (Db.store w) username jobId →
  let applied := Db.earlier (apply (Some username) (Some jobId)) w in
  fst applied = inr [("applied", VNum jobId)]
  ∧ has_applied (Db.store (snd applied)) username jobId
  ∧ fst (JobApplication.remove (Some username) (Some jobId) (snd applied))
    = inr tt
  ∧ Db.store (snd (JobApplication.remove (Some username) (Some jobId)
                     (snd applied)))
    = Db.store w.
Proof.
  intros Hj Hu Ha applied.
  destruct (apply_adds {| Pg.store := Db.store w; Pg.log := [] |}
              username jobId Hj Hu Ha) as (Hr & a & Hau & Haj & Hs).
  assert (Happlied : fst applied = inr [("applied", VNum jobId)]
                     ∧ Db.store (snd applied)
                       = set_applications (Db.store w)
                           (applications (Db.store w) ++ [a])).
  { subst applied. unfold Db.earlier.
    destruct (apply _ _ _) as [r w']. cbn in *. by subst. }
  destruct Happlied as [Hres Hstore].
  assert (Hkey : @pkey _ application_relation a = (username, jobId)).
  { cbn. by rewrite Hau, Haj. }
  assert (Hnow : has_applied (Db.store (snd applied)) username jobId).
  { rewrite Hstore. unfold has_applied. cbn [applications set_applications].
    rewrite fmap_app. apply elem_of_app. right. rewrite <- Hkey. by left. }
  destruct (remove_run (snd applied) username jobId) as (Hrs & Hyes & _).
  cbn zeta in Hrs, Hyes. split_and!; [done|done|by apply Hyes|].
  rewrite Hrs, Hstore. unfold other_applications.
  cbn [applications set_applications].
  rewrite List.filter_app. cbn [List.filter].
  rewrite (bool_decide_eq_true_2 _ Hkey). cbn [negb].
  rewrite app_nil_r.
  change (List.filter _ (applications (Db.store w)))
    with (other_applications (Db.store w) username jobId).
  rewrite other_applications_all by done. by destruct (Db.store w).
Qed.

Lemma apply_then_remove_witness :
  let w := test_session in
  let applied :=
    Db.earlier (@apply test_collation (Some "u1") (Some 1%Z)) w in
  fst applied = inr [("applied", VNum 1)]
  ∧ has_applied (Db.store (snd applied)) "u1" 1
  ∧ fst (@JobApplication.remove test_collation test_foreign_keys
      test_constraints (Some "u1") (Some 1%Z)
           (snd applied)) = inr tt
  ∧ Db.store (snd (@JobApplication.remove test_collation test_foreign_keys
      test_constraints (Some "u1")
                     (Some 1%Z) (snd applied)))
    = test_db.
Proof.
  intros w.
  apply (@apply_then_remove test_collation test_foreign_keys test_constraints w
      "u1" 1).
  - unfold job_exists. by_evaluation.
  - unfold user_exists. by_evaluation.
  - unfold has_applied. by_evaluation.
Defined.

(** ** Companies: creating and reading *)

(** What [Company.get] does for a handle that is not empty. *)
Lemma Company_get_run `{Collation} `{Db.ForeignKeys} `{Db.Constraints}
    (w : Db.world) (handle : string) :
  NoDup (c_handle <$> companies (Db.store w)) →
  handle ≠ EmptyString →
  Company.get (Some handle) w
  = (match find_company (Db.store w) handle with
     | Some r => inr (company_with_jobs (Db.store w) r)
     | None => inl (NotFoundError ("No company: " +:+ handle))
     end,
     {| Db.store := Db.store w;
        Db.jobs_id_seq := Db.jobs_id_seq w;
        Db.log := Db.log w
                  ++ [{| Db.i_statement := Db.SelectCompanyLeftJoinJobs;
                         Db.i_params := [VStr handle] |}] |}).
Proof.
  intros Hnd Hne. unfold Company.get.
  destruct (String.eqb_spec handle EmptyString) as [|_]; [done|].
  unfold Db.bind, Db.try_catch, Db.query. cbn.
  unfold Db.company_left_join_jobs. cbn.
  rewrite (filter_by_key c_handle _ handle Hnd).
  unfold find_company.
  destruct (List.find _ (companies _)) as [r|] eqn:Ef; [|done].
  apply List.find_some in Ef as [_ Hr%String.eqb_eq].
  cbn. rewrite app_nil_r. unfold company_with_jobs, jobs_of. rewrite Hr.
  rewrite (filter_agree (λ j, String.eqb handle (j_company_handle j))
             (λ j, String.eqb (j_company_handle j) handle))
    by (intros; apply String.eqb_sym).
  destruct (List.filter _ (jobs _)) as [|j theirs]; [by rewrite <- Hr|].
  cbn. rewrite <- Hr. do 4 f_equal.
  rewrite <- !list_fmap_compose.
  rewrite filter_fmap_all by done. by rewrite <- list_fmap_compose.
Qed.



Lemma no_company_rows' (d : db) (handle : string) :
  List.filter (λ r, String.eqb (c_handle r) handle && true) (companies d) = []
  ↔ ¬ company_exists d handle.
Proof.
  rewrite <- no_company_rows.
  rewrite (filter_agree (λ r, String.eqb (c_handle r) handle && true)
             (λ r, String.eqb (c_handle r) handle)); [done|].
  intros r. by rewrite andb_true_r.
Qed.

(** [create] on a handle that is taken. *)
Lemma create_taken `{Collation} `{Db.ForeignKeys} `{Db.Constraints}
    (w : Db.world) (company : obj)
    (handle : string) :
  prop company "handle" = VStr handle →
  company_exists (Db.store w) handle →
  fst (Company.create company w)
  = inl (BadRequestError ("Duplicate company: " +:+ handle))
  ∧ Db.store (snd (Company.create company w)) = Db.store w.
Proof.
  intros Hhandle Hex.
  unfold Company.create, Db.bind, Db.try_catch, Db.query. rewrite Hhandle.
  cbn. destruct (List.filter _ (companies _)) eqn:Ec; [|done].
  by apply no_company_rows' in Ec.
Qed.

(** [create] on a handle that is free, with the fields of a company. *)
Lemma create_free `{Collation} `{Db.ForeignKeys} `{Db.Constraints}
    (w : Db.world) (company : obj)
    (handle name description : string) (numEmployees : option Z)
    (logoUrl : option string) :
  prop company "handle" = VStr handle →
  prop company "name" = VStr name →
  prop company "description" = VStr description →
  prop company "numEmployees" = from_option VNum VNull numEmployees →
  prop company "logoUrl" = from_option VStr VNull logoUrl →
  ¬ company_exists (Db.store w) handle →
  let r := {| c_handle := handle; c_name := name;
              c_num_employees := numEmployees;
              c_description := description; c_logo_url := logoUrl |} in
  Db.admits_company (companies (Db.store w)) r = true →
  fst (Company.create company w) = inr (company_object r)
  ∧ Db.store (snd (Company.create company w))
    = set_companies (Db.store w) (companies (Db.store w) ++ [r]).
Proof.
  intros Hhandle Hname Hdescription Hnum Hlogo Hfree r Hadmits.
  unfold Company.create, Db.bind, Db.try_catch, Db.query.
  rewrite Hhandle, Hname, Hdescription, Hnum, Hlogo. cbn.
  rewrite (proj2 (no_company_rows' _ _) Hfree). cbn.
  unfold Db.insert_company. cbn.
  assert (nullable as_int (from_option VNum VNull numEmployees)
          = Some numEmployees) as -> by (by destruct numEmployees).
  assert (nullable as_text (from_option VStr VNull logoUrl)
          = Some logoUrl) as -> by (by destruct logoUrl).
  cbn. fold r. rewrite Hadmits. cbn.
  rewrite bool_decide_eq_false_2 by exact Hfree. done.
Qed.

(** X19. [Company.create] with a handle that a stored company has throws
    BadRequestError [Duplicate company: <handle>] before it looks at any
    other field, and leaves the database as it was. *)
Theorem create_refuses_duplicate `{Collation} `{Db.ForeignKeys}
    `{Db.Constraints} (w : Db.world) (company : obj)
    (handle : string) :
  prop company "handle" = VStr handle →
  company_exists (Db.store w) handle →
  fst (Company.create company w)
  = inl (BadRequestError ("Duplicate company: " +:+ handle))
  ∧ Db.store (snd (Company.create company w)) = Db.store w.
Proof. apply create_taken. Qed.

Lemma create_refuses_duplicate_witness :
  let w := test_session in
  fst (@Company.create test_collation test_foreign_keys test_constraints
      [("handle", VStr "c1")] w)
  = inl (BadRequestError "Duplicate company: c1")
  ∧ Db.store (snd (@Company.create test_collation test_foreign_keys
      test_constraints [("handle", VStr "c1")] w))
    = test_db.
Proof.
  intros w.
  apply (@create_refuses_duplicate test_collation test_foreign_keys
      test_constraints w [("handle", VStr "c1")]
           "c1").
  - reflexivity.
  - unfold company_exists. by_evaluation.
Defined.

Lemma find_company_added (d : db) (r : company_row) :
  ¬ company_exists d (c_handle r) →
  find_company (set_companies d (companies d ++ [r])) (c_handle r) = Some r.
Proof.
  unfold company_exists, find_company. cbn.
  induction (companies d) as [|x l IH].
  - intros _. cbn. by rewrite String.eqb_refl.
  - intros Hn. cbn.
    destruct (String.eqb_spec (c_handle x) (c_handle r)) as [He|Hne].
    + exfalso. apply Hn. rewrite <- He. by left.
    + apply IH. intros Hin. apply Hn. by right.
Qed.

(** X20. [Company.create] with a free handle that is not empty, a text
    for the name and the description, an integer or [null] for
    numEmployees and a text or [null] for logoUrl, which the constraints
    of the table admit, adds one company, last, and returns it;
    afterwards [Company.get] of the handle returns that company with the
    jobs of the handle, and [Company.create] with the same handle throws
    BadRequestError. *)
Theorem create_then_get `{Collation} `{Db.ForeignKeys} `{Db.Constraints}
    (w : Db.world) (company : obj)
    (handle name description : string) (numEmployees : option Z)
    (logoUrl : option string) :
  prop company "handle" = VStr handle →
  prop company "name" = VStr name →
  prop company "description" = VStr description →
  prop company "numEmployees" = from_option VNum VNull numEmployees →
  prop company "logoUrl" = from_option VStr VNull logoUrl →
  handle ≠ EmptyString →
  NoDup (c_handle <$> companies (Db.store w)) →
  ¬ company_exists (Db.store w) handle →
  let r := {| c_handle := handle; c_name := name;
              c_num_employees := numEmployees;
              c_description := description; c_logo_url := logoUrl |} in
  Db.admits_company (companies (Db.store w)) r = true →
  let created := Company.create company w in
  fst created = inr (company_object r)
  ∧ Db.store (snd created)
    = set_companies (Db.store w) (companies (Db.store w) ++ [r])
  ∧ fst (Company.get (Some handle) (snd created))
    = inr (company_object r
           ++ [("jobs",
                VArr (VObj <$> (job_entry <$> jobs_of (Db.store w) handle)))])
  ∧ fst (Company.create company (snd created))
    = inl (BadRequestError ("Duplicate company: " +:+ handle)).
Proof.
  intros Hhandle Hname Hdescription Hnum Hlogo Hne Hnd Hfree r Hadmits
    created.
  destruct (create_free w company handle name description numEmployees
              logoUrl) as [Hres Hstore]; try done.
  fold r in Hres, Hstore. fold created in Hres, Hstore.
  split_and!; [done|done| |].
  - rewrite Company_get_run; [|rewrite Hstore; cbn|done].
    + cbn [fst]. rewrite Hstore.
      pose proof (find_company_added (Db.store w) r Hfree) as Hfind.
      change (c_handle r) with handle in Hfind. rewrite Hfind. done.
    + rewrite fmap_app. apply NoDup_app. split_and!; [done| |].
      * intros x Hx [->|[]%elem_of_nil]%elem_of_cons. by apply Hfree.
      * apply NoDup_singleton.
  - apply create_taken; [done|]. rewrite Hstore. unfold company_exists. cbn.
    rewrite fmap_app. apply elem_of_app. right. by left.
Qed.

Lemma create_then_get_witness :
  let w := test_session in
  let company := [("handle", VStr "new"); ("name", VStr "New");
                  ("description", VStr "New Description");
                  ("numEmployees", VNum 1);
                  ("logoUrl", VStr "http://new.img")] in
  let r := test_company "new" "New" 1 "New Description" "http://new.img" in
  let created := @Company.create test_collation test_foreign_keys
      test_constraints company w in
  fst created = inr (company_object r)
  ∧ Db.store (snd created) = set_companies test_db (companies test_db ++ [r])
  ∧ fst (@Company.get test_collation test_foreign_keys test_constraints
      (Some "new") (snd created))
    = inr (company_object r ++ [("jobs", VArr [])])
  ∧ fst (@Company.create test_collation test_foreign_keys test_constraints
      company (snd created))
    = inl (BadRequestError "Duplicate company: new").
Proof.
  intros w company r.
  apply (@create_then_get test_collation test_foreign_keys test_constraints w
      company "new" "New"
           "New Description" (Some 1%Z) (Some "http://new.img"));
    try reflexivity.
  - discriminate.
  - by_evaluation.
  - unfold company_exists. by_evaluation.
Defined.

(** ** Lists under every filter *)





(** ** The row a user update stores *)
















(** ** Reading after an update *)

Lemma update_keys_distinct {R} `{Relation R} (rows : list R)
    (set : list assignment) (key_column : string) (key_index : nat)
    (returning : select_list) (params : list value) (out : list obj)
    (rows' : list R) :
  Pg.update rows set key_column key_index returning params
  = inr (out, rows') →
  NoDup (pkey <$> rows').
Proof.
  unfold Pg.update. destruct set as [|a set]; [done|].
  destruct (negb (bool_decide _)); [done|].
  destruct (negb (forallb _ _)); [done|].
  destruct (mapM _ _) as [changes|]; [|done].
  destruct (out_of_range _ _); [done|].
  case_bool_decide as Hnd; [|done]. by intros [= <- <-].
Qed.

Lemma Job_update_distinct `{Collation} (id : Z) (data : obj) (w w' : world)
    (j : obj) :
  Job.update id data w = (inr j, w') → NoDup (j_id <$> jobs (store w')).
Proof.
  unfold Job.update, bind, lift, query.
  destruct (sqlForPartialUpdate data _) as [e|u]; [done|].
  cbn [exec]. unfold writing.
  destruct (Pg.update _ _ _ _ _ _) as [e|[out rows']] eqn:Ex; [done|].
  apply update_keys_distinct in Ex.
  destruct out; cbn; [done|]. by intros [= _ <-].
Qed.

Lemma User_update_distinct `{Collation} `{Config} `{Bcrypt}
    (username : string) (data : obj) (w w' : world) (u : obj) :
  User.update username data w = (inr u, w') →
  NoDup (u_username <$> users (store w')).
Proof.
  assert (Hstored : ∀ data',
            update_stored username data' w = (inr u, w') →
            NoDup (u_username <$> users (store w'))).
  { intros data'. unfold update_stored, bind, lift, try_catch, query.
    destruct (sqlForPartialUpdate data' _) as [e|p]; [done|].
    cbn [exec]. unfold writing.
    destruct (Pg.update _ _ _ _ _ _) as [e|[out rows']] eqn:Ex; [done|].
    apply update_keys_distinct in Ex.
    destruct out; cbn; [done|].
    destruct (List.filter _ (applications _)); cbn; by intros [= _ <-]. }
  rewrite update_unfold. unfold bind.
  destruct (truthy (prop data "password")); [|apply Hstored].
  destruct (prop data "password"); try done. apply Hstored.
Qed.

Lemma find_by_key {A K} `{EqDecision K} (key : A → K) (hit : A → bool)
    (l : list A) (r : A) :
  (∀ x, hit x = true ↔ key x = key r) →
  NoDup (key <$> l) →
  r ∈ l →
  List.find hit l = Some r.
Proof.
  intros Hhit Hnd Hr. induction l as [|x l IH]; [by inversion Hr|].
  apply NoDup_cons in Hnd as [Hx Hnd]. cbn.
  destruct (hit x) eqn:Ex.
  - apply Hhit in Ex. apply elem_of_cons in Hr as [->|Hr]; [done|].
    exfalso. apply Hx. rewrite Ex. by apply list_elem_of_fmap_2.
  - apply elem_of_cons in Hr as [->|Hr]; [|by apply IH].
    assert (hit x = true) by (by apply Hhit). congruence.
Qed.

(** X23. What an update returns is what a reading then returns: after
    [Job.update] has returned a job under the id it was given, [Job.get] of
    that id returns the same job; after [User.update] has returned a user
    under the username it was given, [User.get] of that username returns
    the same user, with the jobs applied to. *)
Theorem update_then_get `{Collation} `{Config} `{Bcrypt} (w : world)
    (username : string) (id : Z) (data : obj) :
  (∀ j w', Job.update id data w = (inr j, w') →
     prop j "id" = VNum id →
     fst (Job.get (Some id) w') = inr j)
  ∧ (∀ u w', User.update username data w = (inr u, w') →
       prop u "username" = VStr username →
       ∃ r', (u = user_object r' ∨ ∃ v, u = user_object r' ++ [("jobs", v)])
             ∧ fst (get username w')
               = inr (user_object r'
                      ++ [("jobs",
                           VArr (VNum <$> applied_jobs (store w')
                                            username))])).
Proof.
  split.
  - intros j w' Hupd Hid.
    pose proof (Job_update_distinct id data w w' j Hupd) as Hnd.
    destruct (Job_update_run id data w) as (change & Hs & Hr).
    cbn zeta in Hs, Hr. rewrite Hupd in Hs, Hr. cbn [fst snd] in Hs, Hr.
    destruct (head _) as [r|] eqn:Eh;
      [|by destruct Hr as [|[|(code & m & ?)]]].
    apply head_filter_elem in Eh as [Hin Hhit].
    destruct Hr as [[= ->]|[|(code & m & ?)]]; [|done|done].
    injection Hid as Hid.
    assert (Hrange : in_int4 id = true)
      by (rewrite <- Hid; apply in_int4_true).
    destruct (Job_get_run w' (Some id)) as [_ ->]. rewrite Hrange.
    unfold find_job.
    rewrite (find_by_key j_id _ (jobs (store w')) (change r)); [done| |done|].
    + intros x. rewrite Hid. apply Z.eqb_eq.
    + rewrite Hs. cbn. apply list_elem_of_fmap. exists r. by rewrite Hhit.
  - intros u w' Hupd Hname.
    pose proof (User_update_distinct username data w w' u Hupd) as Hnd.
    destruct (User_update_run username data w) as (change & Hs & _ & Hr).
    cbn zeta in Hs, Hr. rewrite Hupd in Hs, Hr. cbn [fst snd] in Hs, Hr.
    destruct (Hr u eq_refl) as (r & Eh & Hu).
    apply head_filter_elem in Eh as [Hin Hhit].
    exists (change r). split; [done|].
    assert (Hkey : u_username (change r) = username).
    { destruct Hu as [->|[v ->]]; by injection Hname. }
    rewrite get_run by done. cbn [fst]. unfold find_user.
    rewrite (find_by_key u_username _ (users (store w')) (change r)).
    + unfold user_with_jobs. by rewrite Hkey.
    + intros x. rewrite Hkey. apply String.eqb_eq.
    + done.
    + rewrite Hs. cbn. apply list_elem_of_fmap. exists r. by rewrite Hhit.
Qed.

Lemma update_then_get_witness :
  let updated :=
    @Job.update test_collation 1 [("title", VStr "New")] test_world in
  fst (@Job.get test_collation (Some 1%Z) (snd updated))
  = inr [("id", VNum 1); ("title", VStr "New"); ("salary", VNum 100000);
         ("equity", VStr "0.1"); ("companyHandle", VStr "c1")].
Proof.
  intros updated.
  apply (proj1 (@update_then_get test_collation test_config test_bcrypt
                  test_world "u1" 1 [("title", VStr "New")])
           [("id", VNum 1); ("title", VStr "New"); ("salary", VNum 100000);
            ("equity", VStr "0.1"); ("companyHandle", VStr "c1")]
           (snd updated)).
  - vm_compute. reflexivity.
  - reflexivity.
Defined.

(** ** Removing a company, a job or a user *)

(** What the three [remove] do: nothing but NotFoundError when no row has
    the key; otherwise what the foreign keys make of the table without the
    rows of the key, or their refusal. *)
Lemma Company_remove_run `{Collation} `{Db.ForeignKeys} `{Db.Constraints}
    (w : Db.world)
    (handle : string) :
  let d := Db.store w in
  let result := Company.remove handle w in
  match List.filter (λ r, String.eqb (c_handle r) handle) (companies d) with
  | [] =>
      fst result = inl (NotFoundError ("No company: " +:+ handle))
      ∧ Db.store (snd result) = d
  | _ :: _ =>
      match
        Db.on_delete Companies d
          (set_companies d
             (List.filter (λ r, negb (String.eqb (c_handle r) handle))
                (companies d)))
      with
      | inr d' => fst result = inr tt ∧ Db.store (snd result) = d'
      | inl e =>
          fst result = inl (ExpressError (message_of e) None)
          ∧ Db.store (snd result) = d
      end
  end.
Proof.
  unfold Company.remove, Db.bind, Db.try_catch, Db.query. cbn.
  rewrite (filter_agree (λ r, String.eqb (c_handle r) handle && true)
             (λ r, String.eqb (c_handle r) handle))
    by (intros; apply andb_true_r).
  rewrite (filter_agree
             (λ r, negb (String.eqb (c_handle r) handle && true))
             (λ r, negb (String.eqb (c_handle r) handle)))
    by (intros; by rewrite andb_true_r).
  destruct (List.filter (λ r, String.eqb (c_handle r) handle) _) eqn:Eh; cbn.
  - split; [done|]. rewrite (filter_negb_all _ _ Eh). by destruct (Db.store w).
  - by destruct (Db.on_delete _ _ _).
Qed.

Lemma Job_remove_run `{Collation} `{Db.ForeignKeys} `{Db.Constraints}
    (w : Db.world) (id : Z) :
  let d := Db.store w in
  let result := Job.remove id w in
  if in_int4 id then
    match List.filter (λ r, (j_id r =? id)%Z) (jobs d) with
    | [] =>
        fst result = inl (NotFoundError ("No job: " +:+ pretty id))
        ∧ Db.store (snd result) = d
    | _ :: _ =>
        match
          Db.on_delete Jobs d
            (set_jobs d
               (List.filter (λ r, negb (j_id r =? id)%Z) (jobs d)))
        with
        | inr d' => fst result = inr tt ∧ Db.store (snd result) = d'
        | inl e =>
            fst result = inl (NotFoundError (message_of e))
            ∧ Db.store (snd result) = d
        end
    end
  else
    fst result
    = inl (NotFoundError "value is out of range for type integer")
    ∧ Db.store (snd result) = d.
Proof.
  unfold Job.remove, Db.bind, Db.try_catch, Db.query. cbn.
  destruct (in_int4 id); cbn; [|done].
  rewrite (filter_agree (λ r, (j_id r =? id)%Z && true)
             (λ r, (j_id r =? id)%Z))
    by (intros; apply andb_true_r).
  rewrite (filter_agree (λ r, negb ((j_id r =? id)%Z && true))
             (λ r, negb (j_id r =? id)%Z))
    by (intros; by rewrite andb_true_r).
  destruct (List.filter (λ r, (j_id r =? id)%Z) _) eqn:Eh; cbn.
  - split; [done|]. rewrite (filter_negb_all _ _ Eh). by destruct (Db.store w).
  - by destruct (Db.on_delete _ _ _).
Qed.

Lemma User_remove_run `{Collation} `{Db.ForeignKeys} `{Db.Constraints}
    (w : Db.world)
    (username : string) :
  let d := Db.store w in
  let result := User.remove username w in
  match List.filter (λ r, String.eqb (u_username r) username) (users d) with
  | [] =>
      fst result = inl (NotFoundError ("No user: " +:+ username))
      ∧ Db.store (snd result) = d
  | _ :: _ =>
      match
        Db.on_delete Users d
          (set_users d
             (List.filter (λ r, negb (String.eqb (u_username r) username))
                (users d)))
      with
      | inr d' => fst result = inr tt ∧ Db.store (snd result) = d'
      | inl e =>
          fst result = inl (ExpressError (message_of e) (Some 500%Z))
          ∧ Db.store (snd result) = d
      end
  end.
Proof.
  unfold User.remove, Db.bind, Db.try_catch, Db.query. cbn.
  rewrite (filter_agree (λ r, String.eqb (u_username r) username && true)
             (λ r, String.eqb (u_username r) username))
    by (intros; apply andb_true_r).
  rewrite (filter_agree
             (λ r, negb (String.eqb (u_username r) username && true))
             (λ r, negb (String.eqb (u_username r) username)))
    by (intros; by rewrite andb_true_r).
  destruct (List.filter (λ r, String.eqb (u_username r) username) _) eqn:Eh;
    cbn.
  - split; [done|]. rewrite (filter_negb_all _ _ Eh). by destruct (Db.store w).
  - by destruct (Db.on_delete _ _ _).
Qed.



(** X25. Let the foreign keys, when they allow a deletion, leave the
    table of the deleted row as it is. Then [remove] of a stored company,
    job or user either succeeds, after which the table holds the rows of
    the other keys, as they were and in their order, none of the given
    key, and the same call throws NotFoundError; or the database has
    refused the deletion, the database is as it was, and the error is an
    ExpressError without status for a company, an ExpressError of status
    500 for a user, and a NotFoundError for a job. *)
Theorem remove_takes_the_row `{Collation} `{Db.ForeignKeys} `{Db.Constraints}
    (w : Db.world)
    (handle username : string) (id : Z) :
  (∀ d d' d'', Db.on_delete Companies d d' = inr d'' →
     companies d'' = companies d') →
  (∀ d d' d'', Db.on_delete Jobs d d' = inr d'' → jobs d'' = jobs d') →
  (∀ d d' d'', Db.on_delete Users d d' = inr d'' → users d'' = users d') →
  (company_exists (Db.store w) handle →
   let result := Company.remove handle w in
   (fst result = inr tt
    ∧ companies (Db.store (snd result))
      = List.filter (λ r, negb (String.eqb (c_handle r) handle))
          (companies (Db.store w))
    ∧ fst (Company.remove handle (snd result))
      = inl (NotFoundError ("No company: " +:+ handle)))
   ∨ ((∃ m, fst result = inl (ExpressError m None))
      ∧ Db.store (snd result) = Db.store w))
  ∧ (job_exists (Db.store w) id →
     let result := Job.remove id w in
     (fst result = inr tt
      ∧ jobs (Db.store (snd result))
        = List.filter (λ r, negb (j_id r =? id)%Z) (jobs (Db.store w))
      ∧ fst (Job.remove id (snd result))
        = inl (NotFoundError ("No job: " +:+ pretty id)))
     ∨ ((∃ m, fst result = inl (NotFoundError m))
        ∧ Db.store (snd result) = Db.store w))
  ∧ (user_exists (Db.store w) username →
     let result := User.remove username w in
     (fst result = inr tt
      ∧ users (Db.store (snd result))
        = List.filter (λ r, negb (String.eqb (u_username r) username))
            (users (Db.store w))
      ∧ fst (User.remove username (snd result))
        = inl (NotFoundError ("No user: " +:+ username)))
     ∨ ((∃ m, fst result = inl (ExpressError m (Some 500%Z)))
        ∧ Db.store (snd result) = Db.store w)).
Proof.
  intros Hc Hj Hu. split; [|split].
  - intros Hex. cbn zeta.
    pose proof (Company_remove_run w handle) as Hrun. cbn zeta in Hrun.
    destruct (List.filter _ (companies (Db.store w))) eqn:Eh.
    { by apply no_company_rows in Eh. }
    destruct (Db.on_delete _ _ _) as [e|d'] eqn:Ed.
    { right. destruct Hrun as [-> ->]. eauto. }
    left. destruct Hrun as [Hr Hs]. apply Hc in Ed. cbn in Ed.
    split_and!; [done|by rewrite Hs|].
    pose proof (Company_remove_run (snd (Company.remove handle w)) handle)
      as Hagain. cbn zeta in Hagain. rewrite Hs, Ed in Hagain.
    rewrite (proj2 (filter_nil _ _)) in Hagain; [by destruct Hagain|].
    intros r Hr'. apply list_elem_of_In, List.filter_In in Hr' as [_ Hr'].
    by apply negb_true_iff.
  - intros Hex. cbn zeta.
    pose proof (job_exists_in_range _ _ Hex) as Hrange.
    pose proof (Job_remove_run w id) as Hrun. cbn zeta in Hrun.
    rewrite Hrange in Hrun.
    destruct (List.filter _ (jobs (Db.store w))) eqn:Eh.
    { by apply no_job_rows' in Eh. }
    destruct (Db.on_delete _ _ _) as [e|d'] eqn:Ed.
    { right. destruct Hrun as [-> ->]. eauto. }
    left. destruct Hrun as [Hr Hs]. apply Hj in Ed. cbn in Ed.
    split_and!; [done|by rewrite Hs|].
    pose proof (Job_remove_run (snd (Job.remove id w)) id) as Hagain.
    cbn zeta in Hagain. rewrite Hrange, Hs, Ed in Hagain.
    rewrite (proj2 (filter_nil _ _)) in Hagain; [by destruct Hagain|].
    intros r Hr'. apply list_elem_of_In, List.filter_In in Hr' as [_ Hr'].
    by apply negb_true_iff.
  - intros Hex. cbn zeta.
    pose proof (User_remove_run w username) as Hrun. cbn zeta in Hrun.
    destruct (List.filter _ (users (Db.store w))) eqn:Eh.
    { by apply no_user_rows' in Eh. }
    destruct (Db.on_delete _ _ _) as [e|d'] eqn:Ed.
    { right. destruct Hrun as [-> ->]. eauto. }
    left. destruct Hrun as [Hr Hs]. apply Hu in Ed. cbn in Ed.
    split_and!; [done|by rewrite Hs|].
    pose proof (User_remove_run (snd (User.remove username w)) username)
      as Hagain. cbn zeta in Hagain. rewrite Hs, Ed in Hagain.
    rewrite (proj2 (filter_nil _ _)) in Hagain; [by destruct Hagain|].
    intros r Hr'. apply list_elem_of_In, List.filter_In in Hr' as [_ Hr'].
    by apply negb_true_iff.
Qed.

Lemma remove_takes_the_row_witness :
  let w := test_session_applied in
  let result := @User.remove test_collation test_foreign_keys test_constraints
      "u1" w in
  (fst result = inr tt
   ∧ users (Db.store (snd result))
     = List.filter (λ r, negb (String.eqb (u_username r) "u1"))
         (users test_db)
   ∧ fst (@User.remove test_collation test_foreign_keys test_constraints "u1"
       (snd result))
     = inl (NotFoundError "No user: u1"))
  ∨ ((∃ m, fst result = inl (ExpressError m (Some 500%Z)))
     ∧ Db.store (snd result) = Db.store w).
Proof.
  intros w.
  destruct (@remove_takes_the_row test_collation test_foreign_keys
      test_constraints w "c1"
              "u1" 1) as (_ & _ & Huser).
  - by intros d d' d'' [= <-].
  - by intros d d' d'' [= <-].
  - by intros d d' d'' [= <-].
  - apply Huser. unfold user_exists. by_evaluation.
Defined.

(** ** Creating a job *)

(** [create] for a stored company, with the fields of a job that the
    constraints admit, when the next value of the sequence is of the type
    INTEGER and no job has it. *)
Lemma Job_create_adds `{Collation} `{Db.ForeignKeys} `{Db.Constraints}
    (w : Db.world) (jobData : obj) (title handle : string)
    (salary : option Z) (equity : option string) (id : int4) :
  Db.jobs_id_seq w = id →
  prop jobData "title" = VStr title →
  prop jobData "salary" = from_option VNum VNull salary →
  prop jobData "equity" = from_option VStr VNull equity →
  prop jobData "companyHandle" = VStr handle →
  (∀ e, equity = Some e → is_numeral e = true) →
  company_exists (Db.store w) handle →
  let r := {| j_id4 := id; j_title := title;
              j_salary := salary; j_equity := numeric_out <$> equity;
              j_company_handle := handle |} in
  Db.admits_job (jobs (Db.store w)) r = true →
  ¬ job_exists (Db.store w) (Db.jobs_id_seq w) →
  fst (Job.create jobData w) = inr (job_object r)
  ∧ Db.store (snd (Job.create jobData w))
    = set_jobs (Db.store w) (jobs (Db.store w) ++ [r])
  ∧ Db.jobs_id_seq (snd (Job.create jobData w)) = (Db.jobs_id_seq w + 1)%Z.
Proof.
  intros Hseq Htitle Hsalary Hequity Hhandle Hnum Hex r Hcheck Hfree.
  unfold Job.create, Db.bind, Db.try_catch, Db.query.
  rewrite Htitle, Hsalary, Hequity, Hhandle. cbn.
  destruct (List.filter _ (companies _)) eqn:Ec.
  { by apply no_company_rows' in Ec. }
  cbn. unfold Db.insert_job. cbn. rewrite Hseq, to_int4_val. cbn.
  assert (nullable as_int (from_option VNum VNull salary) = Some salary)
    as -> by (by destruct salary).
  assert (nullable as_numeric (from_option VStr VNull equity)
          = Some (numeric_out <$> equity)) as ->.
  { destruct equity as [e|]; [|done]. cbn. by rewrite (Hnum e). }
  cbn. fold r. rewrite Hcheck. cbn.
  rewrite Hseq in Hfree. rewrite bool_decide_eq_false_2 by exact Hfree.
  done.
Qed.



Lemma find_job_added (d : db) (r : job_row) :
  ¬ job_exists d (j_id r) →
  find_job (set_jobs d (jobs d ++ [r])) (j_id r) = Some r.
Proof.
  unfold job_exists, find_job. cbn. induction (jobs d) as [|x l IH].
  - intros _. cbn. by rewrite Z.eqb_refl.
  - intros Hn. cbn. destruct (Z.eqb_spec (j_id x) (j_id r)) as [He|Hne].
    + exfalso. apply Hn. rewrite <- He. by left.
    + apply IH. intros Hin. apply Hn. by right.
Qed.

Lemma find_company_exists (d : db) (handle : string) :
  company_exists d handle →
  ∃ c, find_company d handle = Some c ∧ c_handle c = handle.
Proof.
  unfold company_exists, find_company. induction (companies d) as [|r l IH].
  - by intros ?%elem_of_nil.
  - cbn. destruct (String.eqb_spec (c_handle r) handle) as [He|Hne].
    + intros _. by exists r.
    + intros [?|?]%elem_of_cons; [congruence|by apply IH].
Qed.

(** X27. A job that [Job.create] has added is read back: [Job.get] of its
    id returns the record [create] returned, and [Company.get] of its
    company lists it last among the jobs of the company. *)
Theorem Job_create_then_read `{Collation} `{Db.ForeignKeys} `{Db.Constraints}
    (w : Db.world) (jobData : obj) (title handle : string)
    (salary : option Z) (equity : option string) (id : int4) :
  Db.jobs_id_seq w = id →
  prop jobData "title" = VStr title →
  prop jobData "salary" = from_option VNum VNull salary →
  prop jobData "equity" = from_option VStr VNull equity →
  prop jobData "companyHandle" = VStr handle →
  (∀ e, equity = Some e → is_numeral e = true) →
  handle ≠ EmptyString →
  NoDup (c_handle <$> companies (Db.store w)) →
  company_exists (Db.store w) handle →
  let r := {| j_id4 := id; j_title := title;
              j_salary := salary; j_equity := numeric_out <$> equity;
              j_company_handle := handle |} in
  Db.admits_job (jobs (Db.store w)) r = true →
  ¬ job_exists (Db.store w) (Db.jobs_id_seq w) →
  let created := Job.create jobData w in
  fst created = inr (job_object r)
  ∧ fst (Db.earlier (Job.get (Some (Db.jobs_id_seq w))) (snd created))
    = inr (job_object r)
  ∧ ∃ c, find_company (Db.store w) handle = Some c
         ∧ fst (Company.get (Some handle) (snd created))
           = inr (company_object c
                  ++ [("jobs",
                       VArr (VObj <$> (job_entry
                                         <$> jobs_of (Db.store w) handle
                                             ++ [r])))]).
Proof.
  intros Hseq Htitle Hsalary Hequity Hhandle Hnum Hne Hnd Hex r Hcheck Hfree
    created.
  destruct (Job_create_adds w jobData title handle salary equity id)
    as (Hres & Hstore & _); try done.
  fold r in Hres, Hstore. fold created in Hres, Hstore.
  split; [done|]. split.
  - unfold Db.earlier.
    pose proof (Job_get_run {| Pg.store := Db.store (snd created);
                               Pg.log := [] |}
                  (Some (Db.jobs_id_seq w))) as [_ Hget].
    destruct (Job.get _ _) as [got w']. cbn [fst] in *. rewrite Hget.
    cbn [Pg.store]. rewrite Hstore.
    rewrite Hseq in Hfree. rewrite Hseq, in_int4_true.
    pose proof (find_job_added (Db.store w) r Hfree) as Hfind.
    change (j_id r) with (int4_val id) in Hfind. by rewrite Hfind.
  - destruct (find_company_exists _ _ Hex) as (c & Hc & Hch). exists c.
    split; [done|].
    rewrite Company_get_run; [|by rewrite Hstore|done]. cbn [fst].
    rewrite Hstore.
    change (find_company (set_jobs (Db.store w) _) handle)
      with (find_company (Db.store w) handle). rewrite Hc.
    unfold company_with_jobs, jobs_of. rewrite Hch. cbn [jobs set_jobs].
    rewrite List.filter_app. cbn. by rewrite String.eqb_refl.
Qed.

Lemma Job_create_then_read_witness :
  let jobData := [("title", VStr "new"); ("salary", VNum 100);
                  ("equity", VStr ".5"); ("companyHandle", VStr "c1")] in
  let r := test_job 4 "new" 100 "0.5" "c1" in
  let created :=
    @Job.create test_collation test_foreign_keys test_constraints jobData
      test_session in
  fst created = inr (job_object r)
  ∧ fst (Db.earlier (@Job.get test_collation (Some 4%Z)) (snd created))
    = inr (job_object r)
  ∧ ∃ c, find_company test_db "c1" = Some c
         ∧ fst (@Company.get test_collation test_foreign_keys test_constraints
                  (Some "c1") (snd created))
           = inr (company_object c
                  ++ [("jobs",
                       VArr (VObj <$> (job_entry
                                         <$> jobs_of test_db "c1" ++ [r])))]).
Proof.
  intros jobData r.
  apply (@Job_create_then_read test_collation test_foreign_keys test_constraints
           test_session jobData "new" "c1" (Some 100%Z) (Some ".5")
           (test_id 4));
    try reflexivity.
  - by intros e [= <-].
  - discriminate.
  - by_evaluation.
  - unfold company_exists. by_evaluation.
  - unfold job_exists. by_evaluation.
Defined.

(** ** Reading a user that has registered *)


